(* ===== verification/_CoqProject ===== *)
-Q . S2P
Prelude.v
JsString.v
Ether.v
Float64.v
Rounding.v
Sol.v
PublicKey.v
React.v
Poller.v
EvmBalance.v
SolanaBalance.v
Contract.v
Jsx.v
UserBalance.v
Screen.v
