(* ===== verification/Prelude.v ===== *)
(** * cdp-walls: a verification development for the signed-in balance screen

    The repository is a React screen ([src/src/components/SignedInScreen.tsx])
    that shows the balances of a wallet on four networks (Base, Base
    Sepolia, Solana mainnet, Solana devnet) and a display component
    ([src/unnamed/part_000], the component [UserBalance]).  Its logic is

    - two formatters: [formatEther] (viem, called on a [bigint] of wei) and
      [formatSol] (lines 128-132: a double division, [toFixed(9)] and two
      regular-expression replacements);
    - two polling hooks, [useEvmBalance] (lines 60-88) and
      [useSolanaBalance] (lines 90-120): a [useState] cell, a [useMemo]
      cell, an async [getBalance] callback and an effect that calls it at
      once and then every 500 ms through [setInterval];
    - the screen itself (lines 137-239), which calls the hooks four times
      and renders one section per chain family whose address is present;
    - the card [UserBalance], which shows a skeleton, or the balance with
      an icon, and a faucet link.

    ** Files, in dependency order

    - [Prelude] (this file): the scope [js_scope], truthiness, the
      completion monad that models JavaScript exceptions with [try_catch],
      the tactics, the hint database [js], lemmas on powers of ten and on
      stripping trailing characters ([rstrip] is [/c+$/], [chop] is
      [/c$/]).
    - [JsString]: JavaScript strings as lists of characters; the decimal
      digits of a [bigint] ([BigInt.prototype.toString]), [padStart],
      [slice], the two [replace] calls of [formatSol], and a reader of
      decimal strings used to state what a formatted balance denotes.
    - [Ether]: viem's [formatUnits] and [formatEther], from the library's
      published algorithm, with exactness, canonicity and injectivity.
    - [Float64]: binary64 as the Standard Library's [spec_float] with
      [prec = 53] and [emax = 1024]: [Number(bigint)], [BigInt(number)],
      the division and [Number.prototype.toFixed], including its
      exponential branch for values of at least [10^21].
    - [Rounding]: what the roundings of binary64 do to integers, proved
      on the definitions of [SpecFloat]: a bigint below [2^53] is a number
      as it is and [BigInt] gives it back; a bigint of 54 to 64 bits
      becomes its 53 leading bits, rounded; the quotient of two numbers
      with mantissas of 53 bits is within half a unit of the last place
      of the exact quotient.
    - [Sol]: [formatSol] as written (lines 128-132), its values on sample
      balances, its equality with [formatUnits] at nine decimals below
      [2^23] SOL, and how far the detour through binary64 leads from the
      balance above: one lamport up to [2^53] lamports, a relative error
      of [2^-51] up to [2^64].
    - [PublicKey]: the constructor [new PublicKey(string)]: base58
      decoding and the 32-byte check.
    - [React]: the state of one hook instance (the record [hook]: phase,
      props, [useState] cell, [useMemo] cell, the cleanup of the last
      effect, interval timers, pending requests, console) and the runtime
      primitives the hook code calls.
    - [Poller]: what the two hooks share.  The class [PollerOps] is the
      code of a hook ([getBalance] before its [await], its continuation,
      its behaviour on rejection, the function under [useMemo], the effect
      and its cleanup); [PollerLaws] is what the life cycle assumes of it.
      Over the interface: the handlers [mount], [render], [unmount],
      [tick], [refresh], [resolve], [reject]; the step relation [step]
      with its function [exec]; the invariant [inv] and its preservation;
      frame lemmas.
    - [EvmBalance], [SolanaBalance]: the modules [useEvmBalance] and
      [useSolanaBalance]: each piece of hook code as a definition with the
      name it has in the source, the instance of the interface, and the
      theorems of the hook.
    - [Contract]: the state machine the design gives for a network
      section (no address, balance unknown, balance known), the machine
      with the memory the code has, the abstraction [observe] from a
      hook's state, and the interface [Outcome], implemented by both
      hooks, against which the refinement theorems are proved.
    - [Jsx]: rendered trees (elements, text, components of other modules,
      [Suspense]) and queries on them (the uses of a component, the
      callbacks handed down, the text, the children of the elements of a
      class); the part of [process.env] read.
    - [UserBalance]: the card of [src/unnamed/part_000], lines 17-44.
    - [Screen]: the module-level constants of [SignedInScreen.tsx] (lines
      21-58), the four hook calls with their arguments (lines 142-149),
      the tree [SignedInScreen] (lines 150-238), the events of the screen
      ([screen_exec]) and its invariant.

    ** Conventions

    - A [bigint] is a [Z]; a [number] is a [spec_float]; a string the
      program computes is a [list ascii]; [undefined] and [null] are
      [None].  An exception is a value [Throw e] of the type [completion].
    - An [async] function is split at its [await]: the part before it is
      a handler that registers a pending request, the part after it is the
      handler of the event that settles the request.  Requests settle in
      any order.
    - A handler is a total function on the hook's state; [step] adds the
      conditions under which the environment can fire it.  A run is a list
      of events from the state before the first render.
    - Time is a [Z] of milliseconds.  [Elapse] cannot skip a timer that
      is due, so timers fire exactly when due.
    - Fuel is used twice: the digits of a number are counted with the bit
      length as fuel, which bounds the number of decimal digits
      ([ndigits_enough_fuel]); the search for the shortest digit string in
      [toString_exponential] has fuel 17, the number of significant
      decimal digits that identifies any binary64 value.

    ** What the theorems show

    - Formatters: [formatEther] denotes exactly [wei / 10^18], with at most
      18 fraction digits, no trailing zero, no bare point, injectively.
      [formatSol (Number L)] is [formatUnits L 9] for every balance
      [0 <= L < 2^23 * 10^9]: [Number] is exact there, the division is off
      by at most half a unit of the last place of a quotient below
      [2^23], which is less than half of [10^-9], so [toFixed] rounds back
      to [L].  From [2^23 * 10^9] up to [2^53] lamports, where [Number]
      is still exact, what is shown is a decimal of at most nine fraction
      digits within one lamport of the balance, and the first balance
      above the bound, [2^23 * 10^9 + 1], is shown one lamport too
      large.  From [2^53] up to [2^64] lamports, where [Number] rounds,
      it is the balance up to a relative error of [2^-51], that is
      within four lamports at [2^53] and within [8192] at [2^64]; in
      particular no balance of 64 bits reaches the exponential notation
      of [toFixed].  (The example
      [formatSol_exponent] shows what the function does with [2 * 10^39]:
      the regular expression meant for the fraction digits removes the
      last zero of the exponent.)  Through the Solana hook, an answer of
      the RPC node below [2^23] SOL is returned as the same integer and
      shown as its exact decimal expansion.
    - Hooks, for every reachable state: a timer exists iff the hook is
      mounted and polling, and then there is exactly one, of period 500,
      bound to the current address; [formattedBalance] is the formatter
      applied to [balance]; after the unmount the hook stays unmounted,
      keeps its balance and has no timer, while a pending request that
      settles still leaves the table of requests and, when it is
      rejected, still writes to the console.  Functionally: the mount fetches at once,
      each tick fetches, [getBalance] called by a child fetches and leaves
      the timer alone; without an address nothing is fetched although the
      timer runs.  Liveness, for [useEvmBalance]: between two renders no
      more than 500 ms pass without a request for the address, because
      [Elapse] cannot pass a due timer and every tick sends one.
    - Errors: a rejection escapes [useEvmBalance] and leaves the balance;
      [useSolanaBalance] turns a rejection, a malformed address and a
      non-integer answer into balance zero and a console error, and no
      rejection ever escapes it; as long as every address passed is
      missing, empty or refused by [PublicKey], it sends no request.
    - An answer for a previous address is shown under the current one.
    - Refinement: what a component observes of a hook (mounted, address
      present, balance) evolves as an abstract machine driven by the
      actions of the events, whatever timers, requests and clock do.
      Seen through [view] this is the machine of the design as long as
      the hook is mounted and holds no balance without an address; a
      hook never forgets a balance, so after a sign-out that condition
      fails and the next address starts with the old balance.
    - Screen: each hook called with [poll = true] polls for the address
      the component passes now; the Solana mainnet hook, called without
      [poll], never has a timer and stays at the skeleton until a child
      calls its [onSuccess]; [onSuccess] can be called exactly by a
      signed-in user with the address present.  Section by section of
      the rendered tree: the callback a section hands to its transaction
      component belongs to the hook whose balance the card of that
      section shows, calling it sends one request on that hook for the
      address the component passes to it and touches no other hook, and
      [FundWallet] stands only in the sections of the two mainnet
      clients ([rpc_of]), with that address as destination.  Which
      children are rendered; all cards show the icon the environment
      selects.

    ** Not modelled

    The RPC transports, the hooks of [@coinbase/cdp-hooks] and the
    children [Header], [FundWallet] and the transaction components are
    not among the sources: what they deliver enters as events (the
    arguments of [Appear] and [Update], [Resolve] and [Reject] with an
    arbitrary value, [Success]).  CSS class names are kept as attribute
    strings; they are used to find the sections and cards of the screen
    and nothing else is proved of them.  React's batching of state
    updates and the double invocation of effects in strict mode are not
    modelled: each state update is followed by one render. *)

From Stdlib Require Export ZArith Lia Ascii String.
From stdpp Require Export base tactics option list numbers strings.

#[global] Open Scope Z_scope.

(** ** Notation *)

Declare Scope js_scope.
Delimit Scope js_scope with js.

(** A JavaScript string whose code units are all ASCII. *)
Abbreviation jsstring := (list ascii).

(** The characters of a string literal. *)
Definition str (s : string) : jsstring := list_ascii_of_string s.

Notation "s1 +++ s2" := (@app ascii s1 s2)
  (at level 60, right associativity) : js_scope.

(** ** Truthiness *)

(** [ToBoolean] of a value of type [string | null | undefined]: true for
    a non-empty string only. *)
Definition truthy (a : option string) : bool :=
  match a with
  | Some s => negb (String.eqb s "")
  | None => false
  end.

(** ** Completions: a value or a thrown exception *)

Inductive js_error : Type :=
| RangeError          (* BigInt of a number that is not an integer *)
| NonBase58Character  (* bs58.decode of a string outside the alphabet *)
| InvalidPublicKey    (* new PublicKey of a key that is not 32 bytes *)
| RpcError.           (* a rejected RPC promise *)

#[global] Instance js_error_eq_dec : EqDecision js_error.
Proof. solve_decision. Defined.

Inductive completion (A : Type) : Type :=
| Normal (a : A)
| Throw (e : js_error).
Arguments Normal {A} a.
Arguments Throw {A} e.

Definition completion_bind {A B} (f : A → completion B) (c : completion A)
    : completion B :=
  match c with
  | Normal a => f a
  | Throw e => Throw e
  end.

#[global] Instance completion_ret : MRet completion := @Normal.
#[global] Instance completion_mbind : MBind completion := @completion_bind.

(** [try { c } catch (e) { h e }] *)
Definition try_catch {A} (c : completion A) (h : js_error → A) : A :=
  match c with
  | Normal a => a
  | Throw e => h e
  end.

Lemma truthy_None : truthy None = false.
Proof. done. Qed.

Lemma truthy_Some s : truthy (Some s) = true ↔ s ≠ ""%string.
Proof.
  simpl. rewrite negb_true_iff. split.
  - intros E ->. by rewrite String.eqb_refl in E.
  - intros Hs. by apply String.eqb_neq.
Qed.

(** ** Tactics *)

Create HintDb js discriminated.
Create Rewrite HintDb js_simpl.
Create Rewrite HintDb pow10.

(** Destruct the first [decide], [if] or [match] scrutinee of the goal. *)
Ltac case_goal :=
  match goal with
  | |- context [decide ?P] => destruct (decide P)
  | |- context [if ?b then _ else _] => destruct b eqn:?
  | |- context [match ?x with _ => _ end] => destruct x eqn:?
  end.

(** Close a goal by computation on closed terms. *)
Ltac by_compute := vm_compute; first [reflexivity | done | intuition congruence].

(** Reflect boolean integer tests found in hypotheses and goal. *)
Ltac reflect_Z :=
  repeat match goal with
  | H : (_ <? _) = true |- _ => apply Z.ltb_lt in H
  | H : (_ <? _) = false |- _ => apply Z.ltb_ge in H
  | H : (_ <=? _) = true |- _ => apply Z.leb_le in H
  | H : (_ <=? _) = false |- _ => apply Z.leb_gt in H
  | H : (_ =? _) = true |- _ => apply Z.eqb_eq in H
  | H : (_ =? _) = false |- _ => apply Z.eqb_neq in H
  end.

(** ** Powers of ten *)

Lemma pow10_pos (k : Z) : 0 ≤ k → 0 < 10 ^ k.
Proof. intros. apply Z.pow_pos_nonneg; lia. Qed.

Lemma pow10_nat_pos (k : nat) : 0 < 10 ^ Z.of_nat k.
Proof. apply pow10_pos; lia. Qed.

Lemma pow10_succ (k : nat) : 10 ^ Z.of_nat (S k) = 10 * 10 ^ Z.of_nat k.
Proof. rewrite Nat2Z.inj_succ, Z.pow_succ_r; lia. Qed.

Lemma pow10_add (a b : nat) :
  10 ^ Z.of_nat (a + b) = 10 ^ Z.of_nat a * 10 ^ Z.of_nat b.
Proof. rewrite Nat2Z.inj_add, Z.pow_add_r; lia. Qed.

#[export] Hint Resolve pow10_pos pow10_nat_pos : js.
#[export] Hint Rewrite pow10_succ pow10_add : pow10.

Lemma div_div_pow10 (n : Z) (a b : nat) :
  n / 10 ^ Z.of_nat a / 10 ^ Z.of_nat b = n / 10 ^ Z.of_nat (a + b).
Proof.
  pose proof (pow10_nat_pos a). pose proof (pow10_nat_pos b).
  rewrite pow10_add, Z.div_div; lia.
Qed.

(** ** Stripping characters from the end of a list *)

Section strip.
Context {A : Type} `{!EqDecision A}.

(** Remove the maximal run of [c] at the end of [l]. *)
Fixpoint rstrip (c : A) (l : list A) : list A :=
  match l with
  | [] => []
  | x :: l' =>
      match rstrip c l' with
      | [] => if decide (x = c) then [] else [x]
      | r => x :: r
      end
  end.

(** Remove one [c] at the end of [l], if there is one. *)
Fixpoint chop (c : A) (l : list A) : list A :=
  match l with
  | [] => []
  | x :: l' =>
      match l' with
      | [] => if decide (x = c) then [] else [x]
      | _ => x :: chop c l'
      end
  end.

Lemma rstrip_replicate c n : rstrip c (replicate n c) = [].
Proof. induction n as [|n IH]; simpl; [done|]. rewrite IH. by case_decide. Qed.

Lemma rstrip_app_replicate c l n :
  rstrip c (l ++ replicate n c) = rstrip c l.
Proof.
  induction l as [|x l IH]; simpl.
  - apply rstrip_replicate.
  - by rewrite IH.
Qed.

Lemma rstrip_snoc_ne c l x : x ≠ c → rstrip c (l ++ [x]) = l ++ [x].
Proof.
  intros Hx. induction l as [|y l IH]; simpl.
  - by case_decide.
  - rewrite IH. by destruct l.
Qed.

Lemma rstrip_snoc_eq c l : rstrip c (l ++ [c]) = rstrip c l.
Proof. apply (rstrip_app_replicate c l 1). Qed.

Lemma rstrip_last c l : list.last (rstrip c l) ≠ Some c.
Proof.
  induction l as [|x l IH]; simpl; [done|].
  destruct (rstrip c l) as [|y r] eqn:E.
  - case_decide; simpl; congruence.
  - by rewrite last_cons_cons.
Qed.

Lemma rstrip_fixed c l : list.last l ≠ Some c → rstrip c l = l.
Proof.
  destruct l as [|x l _] using rev_ind; [done|].
  rewrite last_snoc. intros ?. apply rstrip_snoc_ne. congruence.
Qed.

Lemma rstrip_idemp c l : rstrip c (rstrip c l) = rstrip c l.
Proof. apply rstrip_fixed, rstrip_last. Qed.

(** [rstrip] removes a run of [c] and nothing else. *)
Lemma rstrip_spec c l : ∃ n, l = rstrip c l ++ replicate n c.
Proof.
  induction l as [|x l [n IH]]; simpl; [by exists 0%nat|].
  destruct (rstrip c l) as [|y r] eqn:E.
  - case_decide; subst.
    + exists (S n). simpl in *. by f_equal.
    + exists n. simpl in *. by f_equal.
  - exists n. simpl. by f_equal.
Qed.

Lemma rstrip_length c l : (length (rstrip c l) ≤ length l)%nat.
Proof.
  destruct (rstrip_spec c l) as [n E].
  rewrite E at 2. rewrite length_app. lia.
Qed.

Lemma chop_snoc_eq c l : chop c (l ++ [c]) = l.
Proof.
  induction l as [|x l IH]; simpl.
  - by case_decide.
  - rewrite IH. by destruct l.
Qed.

Lemma chop_snoc_ne c l x : x ≠ c → chop c (l ++ [x]) = l ++ [x].
Proof.
  intros Hx. induction l as [|y l IH]; simpl.
  - by case_decide.
  - rewrite IH. by destruct l.
Qed.

Lemma chop_fixed c l : list.last l ≠ Some c → chop c l = l.
Proof.
  destruct l as [|x l _] using rev_ind; [done|].
  rewrite last_snoc. intros ?. apply chop_snoc_ne. congruence.
Qed.

(** Stripping stops at the last element that is not [c]. *)
Lemma rstrip_app_cons_ne c l x k :
  x ≠ c → rstrip c (l ++ x :: k) = l ++ x :: rstrip c k.
Proof.
  intros Hx. induction l as [|y l IH]; simpl.
  - destruct (rstrip c k); [by case_decide|done].
  - rewrite IH. by destruct l.
Qed.

Lemma last_rstrip_elem c l x : list.last (rstrip c l) = Some x → x ∈ l.
Proof.
  intros Hl. destruct (rstrip_spec c l) as [n E]. rewrite E.
  apply elem_of_app. left. by apply last_Some_elem_of.
Qed.
End strip.

#[export] Hint Rewrite @rstrip_replicate @rstrip_app_replicate @rstrip_snoc_eq
  @chop_snoc_eq : js_simpl.
