(* ===== verification/JsString.v ===== *)
(** * JsString: the string operations the formatters are built from

    Decimal digits of a [bigint] ([BigInt.prototype.toString]),
    [String.prototype.padStart], [slice], the two [replace] calls with the
    regular expressions [/0+$/] and [/\.$/], and a reader of decimal
    strings.  All of them are built-ins of the language, so they are
    modelled from the ECMAScript definition; the reader is not part of the
    program and only serves to state what a formatted string denotes. *)

From S2P Require Import Prelude.

#[local] Open Scope js_scope.

(** ** Characters *)

Definition zero : ascii := "0"%char.
Definition dot : ascii := "."%char.
Definition minus : ascii := "-"%char.

(** The character of a decimal digit [0 ≤ d < 10]. *)
Definition digit_char (d : Z) : ascii := ascii_of_nat (48 + Z.to_nat d).

(** The digit a character stands for. *)
Definition char_digit (c : ascii) : option Z :=
  let n := Z.of_nat (nat_of_ascii c) in
  if decide (48 ≤ n ≤ 57) then Some (n - 48) else None.

(** ** Decimal digits of an integer *)

(** The [k] low-order decimal digits of [n], most significant first,
    pushed in front of [acc]. *)
Fixpoint digits_acc (k : nat) (n : Z) (acc : jsstring) : jsstring :=
  match k with
  | O => acc
  | S k' => digits_acc k' (n / 10) (digit_char (n mod 10) :: acc)
  end.

Definition digits (k : nat) (n : Z) : jsstring := digits_acc k n [].

(** The number of decimal digits of [n ≥ 0] (1 for 0); [fuel] bounds the
    number of divisions. *)
Fixpoint ndigits_fuel (fuel : nat) (n : Z) : nat :=
  match fuel with
  | O => 1
  | S f => if n <? 10 then 1%nat else S (ndigits_fuel f (n / 10))
  end.

Definition ndigits (n : Z) : nat := ndigits_fuel (Z.to_nat (Z.log2 n)) n.

(** [n.toString()] for a bigint [n]. *)
Definition bigint_toString (n : Z) : jsstring :=
  if n <? 0 then minus :: digits (ndigits (- n)) (- n)
  else digits (ndigits n) n.

(** ** Padding, slicing, replacing *)

(** [s.padStart(k, c)] *)
Definition padStart (k : nat) (c : ascii) (s : jsstring) : jsstring :=
  replicate (k - length s) c ++ s.

(** [s.slice(0, s.length - k)] and [s.slice(s.length - k)] *)
Definition slice_front (k : nat) (s : jsstring) : jsstring :=
  take (length s - k) s.
Definition slice_back (k : nat) (s : jsstring) : jsstring :=
  drop (length s - k) s.

(** [s.replace(/0+$/, "")] *)
Definition replace_trailing_zeros (s : jsstring) : jsstring := rstrip zero s.

(** [s.replace(/\.$/, "")] *)
Definition replace_trailing_dot (s : jsstring) : jsstring := chop dot s.

(** ** Reading a decimal string back *)

(** The number written by the digits of [s], continuing [acc]. *)
Fixpoint read_digits (s : jsstring) (acc : Z) : option Z :=
  match s with
  | [] => Some acc
  | c :: s' => d ← char_digit c; read_digits s' (10 * acc + d)
  end.

(** Split at the first point: the part before it and, when there is a
    point, the part after it. *)
Fixpoint split_dot (s : jsstring) : jsstring * option jsstring :=
  match s with
  | [] => ([], None)
  | c :: s' =>
      if decide (c = dot) then ([], Some s')
      else let '(a, b) := split_dot s' in (c :: a, b)
  end.

(** [read_unsigned s = Some (m, k)]: [s] is a non-empty digit string,
    optionally followed by a point and a non-empty digit string of length
    [k], and denotes [m / 10^k]. *)
Definition read_unsigned (s : jsstring) : option (Z * nat) :=
  match split_dot s with
  | ([], _) => None
  | (a, None) => m ← read_digits a 0; Some (m, 0%nat)
  | (_, Some []) => None
  | (a, Some b) => m ← read_digits (a ++ b) 0; Some (m, length b)
  end.

Definition read_decimal (s : jsstring) : option (Z * nat) :=
  match s with
  | c :: s' =>
      if decide (c = minus) then '(m, k) ← read_unsigned s'; Some (- m, k)
      else read_unsigned s
  | [] => None
  end.

(** ** Digit characters *)

Lemma char_digit_digit_char (d : Z) :
  0 ≤ d < 10 → char_digit (digit_char d) = Some d.
Proof.
  intros Hd. unfold char_digit, digit_char.
  rewrite nat_ascii_embedding by lia.
  case_decide; [f_equal|]; lia.
Qed.

Lemma digit_char_zero : digit_char 0 = zero.
Proof. reflexivity. Qed.

Lemma digit_char_inj (d e : Z) :
  0 ≤ d < 10 → 0 ≤ e < 10 → digit_char d = digit_char e → d = e.
Proof.
  intros Hd He E. apply (f_equal char_digit) in E.
  rewrite !char_digit_digit_char in E by done. congruence.
Qed.

Lemma digit_char_not_dot (d : Z) : 0 ≤ d < 10 → digit_char d ≠ dot.
Proof.
  intros Hd E. apply (f_equal char_digit) in E.
  rewrite char_digit_digit_char in E by done. discriminate.
Qed.

Lemma digit_char_not_minus (d : Z) : 0 ≤ d < 10 → digit_char d ≠ minus.
Proof.
  intros Hd E. apply (f_equal char_digit) in E.
  rewrite char_digit_digit_char in E by done. discriminate.
Qed.

Lemma digit_char_zero_iff (d : Z) : 0 ≤ d < 10 → digit_char d = zero ↔ d = 0.
Proof.
  intros Hd. split; [|by intros ->].
  rewrite <- digit_char_zero. by apply digit_char_inj.
Qed.

Lemma mod10_digit (n : Z) : 0 ≤ n mod 10 < 10.
Proof. apply Z.mod_pos_bound; lia. Qed.

#[export] Hint Resolve mod10_digit digit_char_not_dot digit_char_not_minus : js.

(** ** The digits of a number *)

Lemma digits_acc_app k n acc : digits_acc k n acc = digits k n ++ acc.
Proof.
  unfold digits. revert n acc.
  induction k as [|k IH]; intros n acc; simpl; [done|].
  rewrite (IH _ (_ :: acc)), (IH _ [_]), <- app_assoc. done.
Qed.

Lemma digits_0 n : digits 0 n = [].
Proof. done. Qed.

Lemma digits_S k n :
  digits (S k) n = digits k (n / 10) ++ [digit_char (n mod 10)].
Proof. unfold digits at 1. simpl. apply digits_acc_app. Qed.

Lemma digits_length k n : length (digits k n) = k.
Proof.
  revert n. induction k as [|k IH]; intros n; [done|].
  rewrite digits_S, length_app, IH. simpl. lia.
Qed.

(** The digits of [n] split at any position. *)
Lemma digits_add a b n :
  digits (a + b) n = digits a (n / 10 ^ Z.of_nat b) ++ digits b n.
Proof.
  revert n. induction b as [|b IH]; intros n.
  - rewrite Nat.add_0_r, Z.pow_0_r, Z.div_1_r, digits_0, app_nil_r. done.
  - rewrite Nat.add_succ_r, !digits_S, IH, <- app_assoc.
    rewrite pow10_succ, <- Z.div_div by auto with js lia. done.
Qed.

Lemma digits_mod k n : digits k (n mod 10 ^ Z.of_nat k) = digits k n.
Proof.
  revert n. induction k as [|k IH]; intros n; [done|].
  rewrite !digits_S, pow10_succ.
  pose proof (pow10_nat_pos k).
  rewrite Z.rem_mul_r by lia.
  pose proof (mod10_digit n).
  set (r := (n / 10) mod 10 ^ Z.of_nat k).
  assert ((n mod 10 + 10 * r) / 10 = r) as ->
    by (symmetry; apply Z.div_unique with (n mod 10); lia).
  assert ((n mod 10 + 10 * r) mod 10 = n mod 10) as ->
    by (symmetry; apply Z.mod_unique with r; lia).
  unfold r.
  by rewrite IH.
Qed.

Lemma digits_zero k : digits k 0 = replicate k zero.
Proof.
  induction k as [|k IH]; [done|].
  rewrite digits_S, Z.div_0_l, Z.mod_0_l, IH by lia.
  by rewrite replicate_S_end.
Qed.

(** Above the number's own digits there are only zeros. *)
Lemma digits_pad a b n :
  0 ≤ n < 10 ^ Z.of_nat b →
  digits (a + b) n = replicate a zero ++ digits b n.
Proof.
  intros Hn. rewrite digits_add, Z.div_small, digits_zero by done. done.
Qed.

Lemma read_digits_app s t acc :
  read_digits (s ++ t) acc = a ← read_digits s acc; read_digits t a.
Proof.
  revert acc. induction s as [|c s IH]; intros acc; simpl; [done|].
  destruct (char_digit c); simpl; auto.
Qed.

Lemma read_digits_digits k n acc :
  0 ≤ n →
  read_digits (digits k n) acc
  = Some (acc * 10 ^ Z.of_nat k + n mod 10 ^ Z.of_nat k).
Proof.
  revert n acc. induction k as [|k IH]; intros n acc Hn.
  - rewrite digits_0, Z.pow_0_r, Z.mod_1_r. cbn [read_digits]. f_equal; lia.
  - rewrite digits_S, read_digits_app, IH by (apply Z.div_pos; lia).
    cbn [mbind option_bind read_digits].
    rewrite char_digit_digit_char by auto with js.
    cbn [mbind option_bind]. f_equal.
    pose proof (pow10_nat_pos k).
    rewrite pow10_succ, (Z.rem_mul_r n 10) by lia. ring.
Qed.

(** Two numbers with the same [k] digits agree modulo [10^k]. *)
Lemma digits_inj k n m :
  0 ≤ n → 0 ≤ m → digits k n = digits k m →
  n mod 10 ^ Z.of_nat k = m mod 10 ^ Z.of_nat k.
Proof.
  intros Hn Hm E. apply (f_equal (λ s, read_digits s 0)) in E.
  rewrite !read_digits_digits in E by done. simplify_eq. lia.
Qed.

Lemma digits_Forall_digit k n :
  Forall (λ c, ∃ d, 0 ≤ d < 10 ∧ c = digit_char d) (digits k n).
Proof.
  revert n. induction k as [|k IH]; intros n; [constructor|].
  rewrite digits_S. apply Forall_app; split; [apply IH|].
  repeat constructor. exists (n mod 10). auto with js.
Qed.

Lemma digits_no_dot k n : dot ∉ digits k n.
Proof.
  intros Hin. pose proof (digits_Forall_digit k n) as HF.
  rewrite Forall_forall in HF. destruct (HF _ Hin) as (d & Hd & E).
  by eapply digit_char_not_dot.
Qed.

(** ** The number of digits *)

Lemma ndigits_fuel_pos fuel n : (1 ≤ ndigits_fuel fuel n)%nat.
Proof. destruct fuel; simpl; [lia|]. case_goal; lia. Qed.

Lemma pow10_pred (d : nat) :
  (1 ≤ d)%nat → 10 ^ Z.of_nat d = 10 * 10 ^ Z.of_nat (d - 1).
Proof. intros. rewrite <- pow10_succ. f_equal. lia. Qed.

(** With enough fuel, [ndigits_fuel] is the length of the shortest digit
    string of [n]. *)
Lemma ndigits_fuel_bounds fuel n :
  0 ≤ n < 10 ^ Z.of_nat (S fuel) →
  n < 10 ^ Z.of_nat (ndigits_fuel fuel n) ∧
  (0 < n → 10 ^ Z.of_nat (ndigits_fuel fuel n - 1) ≤ n).
Proof.
  revert n. induction fuel as [|f IH]; intros n Hn.
  - cbn [ndigits_fuel]. rewrite Z.pow_0_r. change (10 ^ Z.of_nat 1) with 10 in *. lia.
  - cbn [ndigits_fuel]. destruct (n <? 10) eqn:E; reflect_Z.
    + rewrite Z.pow_0_r. change (10 ^ Z.of_nat 1) with 10. lia.
    + rewrite pow10_succ in Hn.
      pose proof (Z.div_mod n 10 ltac:(lia)). pose proof (mod10_digit n).
      destruct (IH (n / 10)) as [Hlt Hge]; [lia|].
      pose proof (ndigits_fuel_pos f (n / 10)).
      rewrite pow10_succ. replace (S (ndigits_fuel f (n / 10)) - 1)%nat
        with (ndigits_fuel f (n / 10)) by lia.
      rewrite pow10_pred in * by done. lia.
Qed.

Lemma ndigits_enough_fuel n : 0 ≤ n → n < 10 ^ Z.of_nat (S (Z.to_nat (Z.log2 n))).
Proof.
  intros Hn. destruct (decide (n = 0)) as [->|]; [done|].
  pose proof (Z.log2_nonneg n).
  rewrite Nat2Z.inj_succ, Z2Nat.id by done.
  apply Z.lt_le_trans with (2 ^ Z.succ (Z.log2 n)).
  - apply Z.log2_spec. lia.
  - apply Z.pow_le_mono_l. lia.
Qed.

Lemma ndigits_pos n : (1 ≤ ndigits n)%nat.
Proof. apply ndigits_fuel_pos. Qed.

Lemma ndigits_upper n : 0 ≤ n → n < 10 ^ Z.of_nat (ndigits n).
Proof. intros. apply ndigits_fuel_bounds. split; [done|]. by apply ndigits_enough_fuel. Qed.

Lemma ndigits_lower n : 0 < n → 10 ^ Z.of_nat (ndigits n - 1) ≤ n.
Proof.
  intros. apply ndigits_fuel_bounds; [|done].
  split; [lia|]. apply ndigits_enough_fuel. lia.
Qed.

(** [ndigits] is the unique length between the two bounds. *)
Lemma ndigits_unique n d :
  (1 ≤ d)%nat → 10 ^ Z.of_nat (d - 1) ≤ n < 10 ^ Z.of_nat d → ndigits n = d.
Proof.
  intros Hd [Hlo Hhi].
  assert (0 < n) by (pose proof (pow10_nat_pos (d - 1)); lia).
  pose proof (ndigits_upper n ltac:(lia)) as Hu.
  pose proof (ndigits_lower n ltac:(lia)) as Hl.
  pose proof (ndigits_pos n).
  destruct (decide (ndigits n = d)) as [|Hne]; [done|exfalso].
  assert (ndigits n ≤ d - 1 ∨ d ≤ ndigits n - 1)%nat as [Hc|Hc] by lia.
  - assert (10 ^ Z.of_nat (ndigits n) ≤ 10 ^ Z.of_nat (d - 1))
      by (apply Z.pow_le_mono_r; lia). lia.
  - assert (10 ^ Z.of_nat d ≤ 10 ^ Z.of_nat (ndigits n - 1))
      by (apply Z.pow_le_mono_r; lia). lia.
Qed.

(** ** [toString], [padStart] and [slice] on digit strings *)

Lemma bigint_toString_nonneg n :
  0 ≤ n → bigint_toString n = digits (ndigits n) n.
Proof. intros. unfold bigint_toString. case_goal; reflect_Z; [lia|done]. Qed.

Lemma bigint_toString_neg n :
  n < 0 → bigint_toString n = minus :: digits (ndigits (- n)) (- n).
Proof. intros. unfold bigint_toString. case_goal; reflect_Z; [done|lia]. Qed.

Lemma bigint_toString_length n : 0 ≤ n → length (bigint_toString n) = ndigits n.
Proof. intros. by rewrite bigint_toString_nonneg, digits_length. Qed.

(** No leading zero, except for zero itself. *)
Lemma bigint_toString_head n :
  0 < n → head (bigint_toString n) ≠ Some zero.
Proof.
  intros Hn. rewrite bigint_toString_nonneg by lia.
  pose proof (ndigits_pos n). pose proof (ndigits_lower n Hn) as Hl.
  pose proof (ndigits_upper n ltac:(lia)) as Hu.
  replace (ndigits n) with (1 + (ndigits n - 1))%nat at 1 by lia.
  rewrite digits_add.
  set (q := n / 10 ^ Z.of_nat (ndigits n - 1)).
  assert (1 ≤ q < 10) as Hq.
  { pose proof (pow10_nat_pos (ndigits n - 1)). unfold q. split.
    - apply Z.div_le_lower_bound; lia.
    - apply Z.div_lt_upper_bound; [lia|].
      rewrite (pow10_pred (ndigits n)) in Hu by done. lia. }
  change (digits 1 q) with [digit_char (q mod 10)].
  rewrite Z.mod_small by lia. cbn [app head].
  intros [= E]. apply digit_char_zero_iff in E; lia.
Qed.

Lemma padStart_length k c s : length (padStart k c s) = (k `max` length s)%nat.
Proof. unfold padStart. rewrite length_app, length_replicate. lia. Qed.

(** Padding the digits of [n] with zeros gives the digits of [n] at the
    larger width. *)
Lemma padStart_digits k d n :
  0 ≤ n < 10 ^ Z.of_nat d →
  padStart k zero (digits d n) = digits (k `max` d) n.
Proof.
  intros Hn. unfold padStart. rewrite digits_length.
  replace (k `max` d)%nat with ((k - d) + d)%nat by lia.
  by rewrite digits_pad.
Qed.

Lemma slice_front_digits k m n :
  (k ≤ m)%nat → slice_front k (digits m n) = digits (m - k) (n / 10 ^ Z.of_nat k).
Proof.
  intros Hk. unfold slice_front. rewrite digits_length.
  replace m with ((m - k) + k)%nat at 2 by lia.
  rewrite digits_add, take_app_length'; [done|by rewrite digits_length].
Qed.

Lemma slice_back_digits k m n :
  (k ≤ m)%nat → slice_back k (digits m n) = digits k n.
Proof.
  intros Hk. unfold slice_back. rewrite digits_length.
  replace m with ((m - k) + k)%nat at 2 by lia.
  rewrite digits_add, drop_app_length'; [done|by rewrite digits_length].
Qed.

(** ** Stripping zeros from digit strings *)

(** The fraction digits of [n] without trailing zeros, when [10] divides
    [n] exactly [j] times below position [k]. *)
Lemma rstrip_digits_mul k j n :
  rstrip zero (digits (k + j) (n * 10 ^ Z.of_nat j)) = rstrip zero (digits k n).
Proof.
  pose proof (pow10_nat_pos j).
  rewrite digits_add, Z.div_mul by lia.
  rewrite <- (digits_mod j (n * _)), Z.mod_mul, digits_zero by lia.
  apply rstrip_app_replicate.
Qed.

Lemma rstrip_digits_fixed k n :
  n mod 10 ≠ 0 → rstrip zero (digits (S k) n) = digits (S k) n.
Proof.
  intros Hn. rewrite digits_S. apply rstrip_snoc_ne.
  intros E. apply digit_char_zero_iff in E; auto with js.
Qed.

Lemma rstrip_digits_zero k : rstrip zero (digits k 0) = [].
Proof. rewrite digits_zero. apply rstrip_replicate. Qed.
