(* ===== verification/Ether.v ===== *)
(** * Ether: viem's [formatUnits] and [formatEther]

    [SignedInScreen.tsx] imports [formatEther] from viem and calls it on
    the balance (line 69).  The library is not part of the repository; the
    definition below follows its published source,

<<
    let display = value.toString()
    const negative = display.startsWith('-')
    if (negative) display = display.slice(1)
    display = display.padStart(decimals, '0')
    let [integer, fraction] = [
      display.slice(0, display.length - decimals),
      display.slice(display.length - decimals),
    ]
    fraction = fraction.replace(/(0+)$/, '')
    return `${negative ? '-' : ''}${integer || '0'}${
      fraction ? `.${fraction}` : ''}`
>>

    and [formatEther wei = formatUnits wei 18].  The lemmas give its normal
    form ([formatUnits_nonneg]), what the string denotes
    ([read_formatUnits]) and that it is canonical. *)

From S2P Require Import Prelude JsString.

#[local] Open Scope js_scope.

(** ** Definitions *)

Definition formatUnits (value : Z) (decimals : nat) : jsstring :=
  let display := bigint_toString value in
  let negative := bool_decide (head display = Some minus) in
  let display := if negative then drop 1 display else display in
  let display := padStart decimals zero display in
  let integer := slice_front decimals display in
  let fraction := slice_back decimals display in
  let fraction := replace_trailing_zeros fraction in
  (if negative then [minus] else [])
  +++ (if integer is [] then [zero] else integer)
  +++ (if fraction is [] then [] else dot :: fraction).

(** [etherUnits.wei] *)
Definition etherUnits_wei : nat := 18.

Definition formatEther (wei : Z) : jsstring := formatUnits wei etherUnits_wei.

(** The fraction part of the normal form: the [d] digits of [r] without
    trailing zeros, after a point, or nothing. *)
Definition fraction_part (d : nat) (r : Z) : jsstring :=
  if rstrip zero (digits d r) is [] then []
  else dot :: rstrip zero (digits d r).

(** ** Normal form *)

Lemma head_digits_not_minus k n : head (digits k n) ≠ Some minus.
Proof.
  pose proof (digits_Forall_digit k n) as HF.
  destruct HF as [|c s (d & Hd & ->) _]; [done|].
  intros [= E]. by eapply digit_char_not_minus.
Qed.

(** The integer part: the digits above position [d], or ["0"]. *)
Lemma integer_part v d :
  0 ≤ v →
  (if digits (d `max` ndigits v - d) (v / 10 ^ Z.of_nat d) is []
   then [zero] else digits (d `max` ndigits v - d) (v / 10 ^ Z.of_nat d))
  = bigint_toString (v / 10 ^ Z.of_nat d).
Proof.
  intros Hv. pose proof (pow10_nat_pos d) as Hd.
  destruct (decide (v = 0)) as [->|Hv0].
  { rewrite Z.div_0_l, digits_zero by lia. change (ndigits 0) with 1%nat.
    assert (d `max` 1 - d ≤ 1)%nat by lia.
    by destruct (d `max` 1 - d)%nat as [|[|?]]; [| |lia]. }
  pose proof (ndigits_upper v Hv) as Hu. pose proof (ndigits_pos v) as Hp.
  assert (0 ≤ v / 10 ^ Z.of_nat d) as Hq by (apply Z.div_pos; lia).
  rewrite (bigint_toString_nonneg _ Hq).
  destruct (decide (ndigits v ≤ d)%nat) as [Hle|Hgt].
  - replace (d `max` ndigits v - d)%nat with 0%nat by lia.
    rewrite Z.div_small; [done|]. split; [done|].
    eapply Z.lt_le_trans; [done|]. apply Z.pow_le_mono_r; lia.
  - set (a := (d `max` ndigits v - d)%nat).
    assert (ndigits v = (a + d)%nat) as Hnd by lia.
    pose proof (ndigits_lower v ltac:(lia)) as Hl.
    rewrite Hnd in Hu. replace (ndigits v - 1)%nat with ((a - 1) + d)%nat in Hl by lia.
    rewrite pow10_add in Hu, Hl.
    rewrite (ndigits_unique (v / 10 ^ Z.of_nat d) a).
    + destruct a; [lia|]. by rewrite digits_S; destruct (digits _ _).
    + lia.
    + split; [apply Z.div_le_lower_bound|apply Z.div_lt_upper_bound]; lia.
Qed.

(** The same digits when the string is padded to [d + 1] places, as
    [toFixed] pads it: the integer part is never empty. *)
Lemma fixed_integer_part v d :
  0 ≤ v →
  digits ((d + 1) `max` ndigits v - d) (v / 10 ^ Z.of_nat d)
  = bigint_toString (v / 10 ^ Z.of_nat d).
Proof.
  intros Hv. rewrite <- integer_part by done.
  pose proof (ndigits_upper v Hv) as Hu.
  destruct (decide (ndigits v ≤ d)%nat) as [Hle|Hgt].
  - replace ((d + 1) `max` ndigits v - d)%nat with 1%nat by lia.
    replace (d `max` ndigits v - d)%nat with 0%nat by lia.
    rewrite Z.div_small; [done|]. split; [done|].
    eapply Z.lt_le_trans; [done|]. apply Z.pow_le_mono_r; lia.
  - replace ((d + 1) `max` ndigits v - d)%nat with (S (ndigits v - d - 1)) by lia.
    replace (d `max` ndigits v - d)%nat with (S (ndigits v - d - 1)) by lia.
    rewrite digits_S. by destruct (digits _ _).
Qed.

(** For a non-negative value the result is the integer quotient followed
    by the stripped fraction digits. *)
Lemma formatUnits_nonneg v d :
  0 ≤ v →
  formatUnits v d
  = bigint_toString (v / 10 ^ Z.of_nat d) +++ fraction_part d v.
Proof.
  intros Hv. unfold formatUnits, fraction_part, replace_trailing_zeros.
  rewrite (bigint_toString_nonneg v Hv).
  rewrite bool_decide_eq_false_2 by apply head_digits_not_minus.
  rewrite padStart_digits by (split; [done|by apply ndigits_upper]).
  rewrite slice_front_digits, slice_back_digits by lia.
  by rewrite integer_part.
Qed.

(** A negative value is formatted as its absolute value after a sign. *)
Lemma formatUnits_neg v d :
  v < 0 → formatUnits v d = minus :: formatUnits (- v) d.
Proof.
  intros Hv. rewrite (formatUnits_nonneg (- v)) by lia.
  unfold formatUnits, fraction_part, replace_trailing_zeros.
  rewrite (bigint_toString_neg v Hv). cbn [head].
  rewrite bool_decide_eq_true_2 by done. cbn [drop app]. rewrite drop_0.
  rewrite padStart_digits by (split; [lia|apply ndigits_upper; lia]).
  rewrite slice_front_digits, slice_back_digits by lia.
  by rewrite integer_part by lia.
Qed.

(** ** The stripped fraction *)

(** Stripping the zeros of [digits d r] leaves the [k] digits of
    [r / 10^(d-k)], for the [k] that makes the last of them non-zero. *)
Lemma rstrip_digits d r :
  0 ≤ r →
  ∃ k, (k ≤ d)%nat
     ∧ rstrip zero (digits d r) = digits k (r / 10 ^ Z.of_nat (d - k))
     ∧ r mod 10 ^ Z.of_nat (d - k) = 0
     ∧ (k = 0%nat ∨ (r / 10 ^ Z.of_nat (d - k)) mod 10 ≠ 0).
Proof.
  revert r. induction d as [|d IH]; intros r Hr.
  - exists 0%nat. rewrite Z.pow_0_r, Z.mod_1_r. auto.
  - destruct (decide (r mod 10 = 0)) as [E|E].
    + destruct (IH (r / 10)) as (k & Hk & Hs & Hm & Hl); [apply Z.div_pos; lia|].
      exists k. replace (S d - k)%nat with (S (d - k)) by lia.
      pose proof (pow10_nat_pos (d - k)).
      rewrite pow10_succ, <- Z.div_div, Z.rem_mul_r, E, Hm by lia.
      rewrite digits_S, E, digit_char_zero, rstrip_snoc_eq. auto with lia.
    + exists (S d). rewrite Nat.sub_diag, Z.pow_0_r, Z.div_1_r, Z.mod_1_r.
      rewrite rstrip_digits_fixed by done. auto.
Qed.

(** ** What the string denotes *)

Lemma split_dot_no_dot s : dot ∉ s → split_dot s = (s, None).
Proof.
  induction s as [|c s IH]; [done|]. rewrite not_elem_of_cons. intros [? ?].
  cbn [split_dot]. rewrite decide_False by done. by rewrite IH.
Qed.

Lemma split_dot_app s t : dot ∉ s → split_dot (s ++ dot :: t) = (s, Some t).
Proof.
  induction s as [|c s IH]; cbn [app split_dot].
  - by rewrite decide_True.
  - rewrite not_elem_of_cons. intros [? ?].
    rewrite decide_False by done. by rewrite IH.
Qed.

(** Reading an integer part [digits a q] followed by a fraction. *)
Lemma read_unsigned_digits a q k r :
  (1 ≤ a)%nat → 0 ≤ q < 10 ^ Z.of_nat a → 0 ≤ r < 10 ^ Z.of_nat k →
  read_unsigned (digits a q ++ (if digits k r is [] then [] else dot :: digits k r))
  = Some (q * 10 ^ Z.of_nat k + r, k).
Proof.
  intros Ha Hq Hr. unfold read_unsigned.
  assert (digits a q ≠ []) as Hne
    by (intros E; apply (f_equal length) in E; rewrite digits_length in E;
        simpl in E; lia).
  destruct k as [|k].
  - rewrite digits_0, app_nil_r, split_dot_no_dot by apply digits_no_dot.
    destruct (digits a q) as [|c s] eqn:E; [done|]. rewrite <- E.
    rewrite read_digits_digits, Z.mod_small by lia.
    rewrite Z.pow_0_r in *. cbn [mbind option_bind]. do 2 f_equal. lia.
  - destruct (digits (S k) r) as [|c' s'] eqn:E'.
    { apply (f_equal length) in E'. by rewrite digits_length in E'. }
    rewrite <- E', split_dot_app by apply digits_no_dot.
    destruct (digits a q) as [|c s] eqn:E; [done|]. rewrite <- E, E', <- E'.
    rewrite read_digits_app, read_digits_digits by lia.
    cbn [mbind option_bind]. rewrite read_digits_digits by lia.
    cbn [mbind option_bind]. rewrite digits_length, !Z.mod_small by lia.
    do 2 f_equal; lia.
Qed.

(** [formatUnits v d] reads back as [m / 10^k] with [k ≤ d] fraction
    digits, [m / 10^k = v / 10^d] exactly, and no trailing zero. *)
Lemma read_formatUnits_nonneg v d :
  0 ≤ v →
  ∃ m k, read_unsigned (formatUnits v d) = Some (m, k)
       ∧ (k ≤ d)%nat ∧ m * 10 ^ Z.of_nat (d - k) = v
       ∧ (k = 0%nat ∨ m mod 10 ≠ 0).
Proof.
  intros Hv. pose proof (pow10_nat_pos d) as Hd.
  set (q := v / 10 ^ Z.of_nat d). set (r := v mod 10 ^ Z.of_nat d).
  assert (0 ≤ q) as Hq by (apply Z.div_pos; lia).
  assert (0 ≤ r < 10 ^ Z.of_nat d) as Hr by (apply Z.mod_pos_bound; lia).
  assert (v = q * 10 ^ Z.of_nat d + r) as Hvqr
    by (unfold q, r; pose proof (Z.div_mod v (10 ^ Z.of_nat d)); lia).
  destruct (rstrip_digits d r) as (k & Hk & Hs & Hm & Hl); [lia|].
  set (r' := r / 10 ^ Z.of_nat (d - k)) in *.
  pose proof (pow10_nat_pos (d - k)) as Hdk. pose proof (pow10_nat_pos k) as Hpk.
  assert (r = r' * 10 ^ Z.of_nat (d - k)) as Hrr
    by (unfold r'; pose proof (Z.div_mod r (10 ^ Z.of_nat (d - k))); lia).
  assert (10 ^ Z.of_nat d = 10 ^ Z.of_nat k * 10 ^ Z.of_nat (d - k)) as Hpow
    by (rewrite <- pow10_add; f_equal; lia).
  assert (0 ≤ r' < 10 ^ Z.of_nat k) as Hr'.
  { split; [apply Z.div_pos; lia|]. apply Z.div_lt_upper_bound; lia. }
  exists (q * 10 ^ Z.of_nat k + r'), k.
  rewrite formatUnits_nonneg by done. unfold fraction_part. fold q.
  rewrite <- (digits_mod d v). fold r. rewrite Hs.
  rewrite (bigint_toString_nonneg q Hq).
  rewrite read_unsigned_digits;
    [|apply ndigits_pos|split; [done|by apply ndigits_upper]|done].
  repeat split; [done|clearbody q r r'; rewrite Hvqr, Hrr, Hpow; ring|].
  destruct Hl as [->|Hl]; [by left|right].
  destruct k as [|k].
  { change (10 ^ Z.of_nat 0) with 1 in Hr'. by replace r' with 0 in Hl by lia. }
  rewrite pow10_succ.
  replace (q * (10 * 10 ^ Z.of_nat k) + r') with (r' + (q * 10 ^ Z.of_nat k) * 10) by lia.
  by rewrite Z.mod_add by lia.
Qed.

Lemma formatUnits_head_not_minus v d :
  0 ≤ v → head (formatUnits v d) ≠ Some minus.
Proof.
  intros Hv. rewrite formatUnits_nonneg by done.
  rewrite bigint_toString_nonneg by (apply Z.div_pos; auto with js lia).
  pose proof (ndigits_pos (v / 10 ^ Z.of_nat d)).
  pose proof (head_digits_not_minus (ndigits (v / 10 ^ Z.of_nat d)) (v / 10 ^ Z.of_nat d)).
  pose proof (digits_length (ndigits (v / 10 ^ Z.of_nat d)) (v / 10 ^ Z.of_nat d)).
  by destruct (digits _ _); [simpl in *; lia|].
Qed.

Lemma read_decimal_nonneg s :
  head s ≠ Some minus → read_decimal s = read_unsigned s.
Proof.
  destruct s as [|c s]; [done|]. cbn [head read_decimal]. intros Hc.
  rewrite decide_False; [done|congruence].
Qed.

(** The same for every value, with the sign. *)
Lemma read_formatUnits v d :
  ∃ m k, read_decimal (formatUnits v d) = Some (m, k)
       ∧ (k ≤ d)%nat ∧ m * 10 ^ Z.of_nat (d - k) = v
       ∧ (k = 0%nat ∨ m mod 10 ≠ 0).
Proof.
  destruct (decide (0 ≤ v)) as [Hv|Hv].
  - destruct (read_formatUnits_nonneg v d Hv) as (m & k & Hr & ?).
    exists m, k. by rewrite read_decimal_nonneg by by apply formatUnits_head_not_minus.
  - destruct (read_formatUnits_nonneg (- v) d ltac:(lia)) as (m & k & Hr & Hk & Hm & Hl).
    exists (- m), k. rewrite formatUnits_neg by lia. cbn [read_decimal].
    rewrite decide_True, Hr by done. cbn [mbind option_bind].
    repeat split; [done|lia|].
    destruct Hl as [|Hl]; [by left|right].
    intros E. apply Hl. revert E. Z.div_mod_to_equations. lia.
Qed.

(** Different values have different strings. *)
Lemma formatUnits_inj v w d : formatUnits v d = formatUnits w d → v = w.
Proof.
  intros E.
  destruct (read_formatUnits v d) as (m & k & Hr & _ & Hv & _).
  destruct (read_formatUnits w d) as (m' & k' & Hr' & _ & Hw & _).
  rewrite E in Hr. by simplify_eq.
Qed.
