(* ===== verification/Float64.v ===== *)
(** * Float64: the JavaScript Number type

    A Number is an IEEE 754 binary64 value.  The model is the standard
    library's specification of binary floating point ([SpecFloat], at
    precision 53 and maximal exponent 1024): a value is a signed zero, a
    signed infinity, NaN, or a sign, a mantissa and an exponent.  On top
    of it this file defines the built-ins [formatSol] and the Solana hook
    call: [Number(bigint)], [BigInt(number)], the division of two numbers
    and [Number.prototype.toFixed], each from its clause in ECMA-262. *)

From Stdlib Require Export Floats.SpecFloat.
From S2P Require Import Prelude JsString.

#[local] Open Scope js_scope.

(** ** The type *)

Definition prec : Z := 53.
Definition emax : Z := 1024.

Abbreviation number := spec_float.

#[global] Instance number_eq_dec : EqDecision number.
Proof. solve_decision. Defined.

(** ** Conversions *)

(** [Number(b)] for a bigint [b]: the nearest number, ties to even. *)
Definition Number (b : Z) : number := binary_normalize prec emax b 0 false.

(** [BigInt(x)] for a number [x]: a RangeError unless [x] is an integer. *)
Definition BigInt (x : number) : completion Z :=
  match x with
  | S754_zero _ => Normal 0
  | S754_finite s m e =>
      if 0 <=? e then Normal (cond_Zopp s (Z.pos m * 2 ^ e))
      else if Z.pos m mod 2 ^ (- e) =? 0
           then Normal (cond_Zopp s (Z.pos m / 2 ^ (- e)))
           else Throw RangeError
  | _ => Throw RangeError
  end.

(** ** Arithmetic *)

(** [x / y] *)
Definition div (x y : number) : number := SFdiv prec emax x y.

(** ** [toFixed] *)

(** The integer [n] for which [n / 10^f - m * 2^e] is as close to zero as
    possible, the larger one if there are two. *)
Definition scaled_round (f : nat) (m : positive) (e : Z) : Z :=
  if 0 <=? e then Z.pos m * 2 ^ e * 10 ^ Z.of_nat f
  else (2 * Z.pos m * 10 ^ Z.of_nat f + 2 ^ (- e)) / 2 ^ (1 - e).

(** Steps 11.b and 11.c of [toFixed]: the digits of [n] with a point
    before the last [f] of them. *)
Definition fixed_digits (f : nat) (n : Z) : jsstring :=
  let m := bigint_toString n in
  if f is O then m
  else
    let m := padStart (f + 1) zero m in
    slice_front f m +++ [dot] +++ slice_back f m.

(** [10^21 <= m * 2^e] *)
Definition at_least_1e21 (m : positive) (e : Z) : bool :=
  if 0 <=? e then 10 ^ 21 <=? Z.pos m * 2 ^ e
  else 10 ^ 21 * 2 ^ (- e) <=? Z.pos m.

(** [Number::toString] on an integer [X >= 10^21]: the shortest digit
    string [s] of length [k] with [Number(s * 10^(n-k)) = X], the closest
    one if there are two, in exponential notation.  [fuel] bounds the
    search for [k]; 17 digits always suffice for a binary64 value. *)
Fixpoint shortest_digits (fuel k : nat) (n : nat) (X : Z) : nat * Z * nat :=
  let p := 10 ^ Z.of_nat (n - k) in
  let lo := X / p in
  let hi := lo + 1 in
  let ok_lo := bool_decide (Number (lo * p) = Number X) in
  let ok_hi := bool_decide (Number (hi * p) = Number X) in
  let carry s := if s =? 10 ^ Z.of_nat k then (k, 10 ^ Z.of_nat (k - 1), S n) else (k, s, n) in
  match fuel with
  | O => (k, lo, n)
  | S fuel' =>
      if ok_lo && ok_hi then
        if X - lo * p <=? hi * p - X then (k, lo, n) else carry hi
      else if ok_lo then (k, lo, n)
      else if ok_hi then carry hi
      else shortest_digits fuel' (S k) n X
  end.

Definition toString_exponential (X : Z) : jsstring :=
  let '(k, s, n) := shortest_digits 17 1 (ndigits X) X in
  let ds := digits k s in
  take 1 ds +++ (if k is 1%nat then [] else dot :: drop 1 ds)
  +++ str "e+" +++ bigint_toString (Z.of_nat n - 1).

(** [x.toFixed(f)] for [0 <= f <= 100]. *)
Definition toFixed (f : nat) (x : number) : jsstring :=
  match x with
  | S754_nan => str "NaN"
  | S754_infinity s => (if s then [minus] else []) +++ str "Infinity"
  | S754_zero _ => fixed_digits f 0
  | S754_finite s m e =>
      (if s then [minus] else [])
      +++ (if at_least_1e21 m e then toString_exponential (Z.pos m * 2 ^ e)
           else fixed_digits f (scaled_round f m e))
  end.

(** ** Examples *)

Example Number_examples :
  Number 0 = S754_zero false
  ∧ Number 1 = S754_finite false 4503599627370496 (-52)
  ∧ Number 1000000000 = S754_finite false 8388608000000000 (-23)
  ∧ Number (2 ^ 53 + 1) = Number (2 ^ 53)
  ∧ Number (2 ^ 53 + 3) = Number (2 ^ 53 + 4)
  ∧ Number (- 5) = S754_finite true 5629499534213120 (-50)
  ∧ Number (2 ^ 1024) = S754_infinity false.
Proof. by vm_compute. Qed.

Example BigInt_examples :
  BigInt (Number 7) = Normal 7
  ∧ BigInt (Number (- 7)) = Normal (- 7)
  ∧ BigInt (S754_zero true) = Normal 0
  ∧ BigInt (Number (2 ^ 70)) = Normal (2 ^ 70)
  ∧ BigInt (div (Number 3) (Number 2)) = Throw RangeError
  ∧ BigInt S754_nan = Throw RangeError
  ∧ BigInt (S754_infinity false) = Throw RangeError.
Proof. by vm_compute. Qed.

Example toFixed_examples :
  toFixed 9 (div (Number 3) (Number 2)) = str "1.500000000"
  ∧ toFixed 9 (Number 0) = str "0.000000000"
  ∧ toFixed 2 (div (Number 1005) (Number 1000)) = str "1.00"
  ∧ toFixed 0 (div (Number 5) (Number 2)) = str "3"
  ∧ toFixed 0 (div (Number (- 5)) (Number 2)) = str "-3"
  ∧ toFixed 2 (div (Number (- 1)) (Number 1000)) = str "-0.00"
  ∧ toFixed 9 (div (Number 1) (Number 0)) = str "Infinity"
  ∧ toFixed 9 (div (Number 0) (Number 0)) = str "NaN"
  ∧ toFixed 9 (Number (10 ^ 21)) = str "1e+21"
  ∧ toFixed 2 (Number (123456789 * 10 ^ 22)) = str "1.23456789e+30".
Proof. by vm_compute. Qed.
