(* ===== verification/Rounding.v ===== *)
(** * Rounding: what [Number] and [/] do to integers

    [formatSol] sends a balance through binary64 twice: [Number(balance)]
    rounds the bigint to 53 bits, and the division by [LAMPORTS_PER_SOL]
    rounds the quotient.  This file proves, on the definitions of
    [SpecFloat] that [Float64] instantiates, the facts about those
    roundings that the theorems on [formatSol] rely on:

    - [Number_exact], [BigInt_Number]: below [2^53] a bigint is a number as
      it is, and [BigInt] gives it back;
    - [Number_round]: a bigint of 54 to 64 bits becomes its 53 leading
      bits, rounded, times a power of two; the error and one unit of
      that power together are a [2^51]th of the bigint at most;
    - [div_normal]: the quotient of two numbers with mantissas of 53 bits
      is a mantissa [m] of 53 bits and an exponent, and [m] is within half
      a unit of the last place of the exact quotient;
    - [round_half_near]: rounding a quotient to the nearest integer, as
      [toFixed] does, stays as close to a value as the dividend is to
      its multiple.

    [finish] and [inexact] are names for two steps of [binary_round_aux]
    that the lemmas share; they model no code of the repository. *)

From S2P Require Import Prelude JsString Float64.

(** The last step of every operation: a mantissa of 53 bits, or [2^53]
    after a carry, becomes a number. *)
Definition finish (s : bool) (m e : Z) : number :=
  if m =? 2 ^ 53 then S754_finite s (2 ^ 52) (e + 1) else S754_finite s (Z.to_pos m) e.

(** Whether digits were lost before the position a location describes. *)
Definition inexact (l : location) : bool :=
  match l with
  | loc_Exact => false
  | loc_Inexact _ => true
  end.

(** The equation [fexp] satisfies for every exponent the lemmas meet. *)
Ltac fexp_eq := unfold fexp, emin, prec, emax; lia.

(** Evaluate the powers of constants in the goal and the hypotheses. *)
Ltac pow_consts :=
  repeat match goal with
  | |- context [?b ^ ?e] =>
      let v := eval vm_compute in (b ^ e) in
      lazymatch v with Z.pos _ => progress change (b ^ e) with v end
  | H : context [?b ^ ?e] |- _ =>
      let v := eval vm_compute in (b ^ e) in
      lazymatch v with Z.pos _ => progress change (b ^ e) with v in H end
  end.

(** Case analysis on an integer between two constants. *)
Ltac cases_between e :=
  repeat match goal with
  | H : ?a ≤ e ≤ ?b |- _ =>
      lazymatch eval vm_compute in (a <=? b) with
      | true =>
          let a1 := eval vm_compute in (a + 1) in
          destruct (decide (e = a)) as [->|?];
          [clear H|assert (a1 ≤ e ≤ b) by lia; clear H]
      | false => exfalso; lia
      end
  end.

Lemma pow2_split e j : 0 ≤ j → e ≤ 0 → 2 ^ (j - e) = 2 ^ j * 2 ^ (- e).
Proof. intros. rewrite <- Z.pow_add_r by lia. f_equal; lia. Qed.

(** ** Bit lengths *)

Lemma digits2_size p : digits2_pos p = Pos.size p.
Proof. induction p; simpl; congruence. Qed.

Lemma Zdigits2_unique m k :
  2 ^ (k - 1) ≤ m < 2 ^ k → 0 < k → Zdigits2 m = k.
Proof.
  intros [Hlo Hhi] Hk. assert (0 < m) by (pose proof (Z.pow_pos_nonneg 2 (k - 1)); lia).
  destruct m as [|p|p]; try lia. cbn [Zdigits2]. rewrite digits2_size.
  pose proof (Pos.size_gt p) as Hgt. pose proof (Pos.size_le p) as Hle.
  apply Pos2Z.pos_lt_pos in Hgt. apply Pos2Z.pos_le_pos in Hle.
  rewrite Pos2Z.inj_pow in Hgt, Hle. change (Z.pos p~0) with (2 * Z.pos p) in Hle.
  set (s := Z.pos (Pos.size p)) in *. assert (0 < s) by done.
  destruct (Z.lt_trichotomy s k) as [Hc|[Hc|Hc]]; [exfalso|done|exfalso].
  - assert (2 ^ s ≤ 2 ^ (k - 1)) by (apply Z.pow_le_mono_r; lia). lia.
  - assert (2 ^ (k + 1) ≤ 2 ^ s) by (apply Z.pow_le_mono_r; lia).
    rewrite Z.pow_add_r in * by lia. lia.
Qed.

Lemma digits2_bounds p :
  0 < Z.pos (digits2_pos p)
  ∧ 2 ^ (Z.pos (digits2_pos p) - 1) ≤ Z.pos p < 2 ^ Z.pos (digits2_pos p).
Proof.
  rewrite digits2_size.
  pose proof (Pos.size_gt p) as Hgt. pose proof (Pos.size_le p) as Hle.
  apply Pos2Z.pos_lt_pos in Hgt. apply Pos2Z.pos_le_pos in Hle.
  rewrite Pos2Z.inj_pow in Hgt, Hle. change (Z.pos p~0) with (2 * Z.pos p) in Hle.
  set (s := Z.pos (Pos.size p)) in *. assert (0 < s) by done. clearbody s.
  replace s with (s - 1 + 1) in Hle at 1 by lia. rewrite Z.pow_add_r in Hle by lia.
  lia.
Qed.

Lemma iter_xO p k : Z.pos (Pos.iter xO p k) = Z.pos p * 2 ^ Z.pos k.
Proof.
  induction k as [|k IH] using Pos.peano_ind.
  - cbn. lia.
  - rewrite Pos.iter_succ, Pos2Z.inj_xO, IH, Pos2Z.inj_succ, Z.pow_succ_r by lia. ring.
Qed.

(** A mantissa of 53 bits with an exponent in range is a number as it is. *)
Lemma binary_round_aux_exact s m e :
  2 ^ 52 ≤ Z.pos m < 2 ^ 53 → -1074 ≤ e ≤ 971 →
  binary_round_aux prec emax s (Z.pos m) e loc_Exact = S754_finite s m e.
Proof.
  intros Hm He. unfold binary_round_aux, shr_fexp.
  rewrite (Zdigits2_unique (Z.pos m) 53) by done.
  unfold fexp, emin, prec, emax.
  replace (Z.max (53 + e - 53) (3 - 1024 - 53) - e) with 0 by lia.
  cbn [shr shr_record_of_loc shr_m loc_of_shr_record round_nearest_even].
  rewrite (Zdigits2_unique (Z.pos m) 53) by done.
  replace (Z.max (53 + e - 53) (3 - 1024 - 53) - e) with 0 by lia.
  cbn [shr shr_record_of_loc shr_m].
  destruct (e <=? 1024 - 53) eqn:E; [done|]. apply Z.leb_gt in E. lia.
Qed.

(** [Number(L)] is exact below [2^53]. *)
Lemma Number_exact L :
  0 < L < 2 ^ 53 →
  ∃ m e, Number L = S754_finite false m e
       ∧ 2 ^ 52 ≤ Z.pos m < 2 ^ 53 ∧ -52 ≤ e ≤ 0 ∧ Z.pos m = L * 2 ^ (- e).
Proof.
  intros HL. destruct L as [|p|p]; try lia.
  destruct (digits2_bounds p) as [Hd0 Hp].
  remember (Z.pos (digits2_pos p)) as d eqn:Ed.
  assert (d ≤ 53) as Hd.
  { destruct (Z.le_gt_cases d 53) as [|Hc]; [done|exfalso].
    assert (2 ^ 53 ≤ 2 ^ (d - 1)) by (apply Z.pow_le_mono_r; lia). lia. }
  unfold Number, binary_normalize, binary_round, shl_align. rewrite <- Ed.
  assert (fexp prec emax (d + 0) = d - 53) as -> by fexp_eq.
  replace (d - 53 - 0) with (d - 53) by lia.
  destruct (d - 53) as [|k|k] eqn:Ek; try lia.
  - exists p, 0. rewrite binary_round_aux_exact by (replace d with 53 in * by lia; lia).
    split_and!; try done; try lia. replace d with 53 in * by lia. lia.
  - assert (Z.pos k = 53 - d) as Hk by lia.
    assert (2 ^ 52 ≤ Z.pos (Pos.iter xO p k) < 2 ^ 53) as Hm.
    { assert (2 ^ 52 = 2 ^ (d - 1) * 2 ^ (53 - d)) as E52
        by (rewrite <- Z.pow_add_r by lia; f_equal; lia).
      assert (2 ^ 53 = 2 ^ d * 2 ^ (53 - d)) as E53
        by (rewrite <- Z.pow_add_r by lia; f_equal; lia).
      pose proof (Z.pow_pos_nonneg 2 (53 - d)).
      rewrite iter_xO, Hk, E52, E53.
      split; [apply Z.mul_le_mono_nonneg_r|apply Z.mul_lt_mono_pos_r]; lia. }
    exists (Pos.iter xO p k), (Z.neg k).
    rewrite binary_round_aux_exact by (done || lia).
    split_and!; try done; try lia. by rewrite iter_xO.
Qed.

(** [BigInt(Number(L))] is [L] below [2^53]. *)
Lemma BigInt_Number L : 0 ≤ L < 2 ^ 53 → BigInt (Number L) = Normal L.
Proof.
  intros HL. destruct (decide (L = 0)) as [->|Hn]; [done|].
  destruct (Number_exact L) as (m & e & -> & Hm & He & Hv); [lia|].
  pose proof (Z.pow_pos_nonneg 2 (- e)).
  unfold BigInt. destruct (Z.leb_spec 0 e) as [E|E].
  - replace e with 0 in * by lia. cbn. f_equal. change (2 ^ (- 0)) with 1 in Hv. lia.
  - by rewrite Hv, Z.mod_mul, Z.div_mul by lia.
Qed.

(** ** The quotient before rounding *)

Lemma div_eucl_eq a b : Z.div_eucl a b = (a / b, a mod b).
Proof. unfold Z.div, Z.modulo. by destruct (Z.div_eucl a b). Qed.

(** The location of the exact quotient between [q] and [q + 1]. *)
Lemma new_location_spec D r :
  0 < D → 0 ≤ r < D →
  new_location D r = if r =? 0 then loc_Exact else loc_Inexact (2 * r ?= D).
Proof.
  intros HD Hr. unfold new_location, new_location_even, new_location_odd.
  destruct (Z.even D) eqn:Ev; destruct (r =? 0) eqn:E0; try done.
  f_equal. assert (Z.odd D = true) as Ho by (by rewrite <- Z.negb_even, Ev).
  apply Z.odd_spec in Ho as [k Hk].
  destruct (Z.compare_spec (2 * r + 1) D), (Z.compare_spec (2 * r) D); try done; lia.
Qed.

Lemma SFdiv_core mx ex my ey :
  2 ^ 52 ≤ Z.pos mx < 2 ^ 53 → 2 ^ 52 ≤ Z.pos my < 2 ^ 53 → -1074 ≤ ex - ey - 53 →
  SFdiv_core_binary prec emax (Z.pos mx) ex (Z.pos my) ey
  = (Z.pos mx * 2 ^ 53 / Z.pos my, ex - ey - 53,
     new_location (Z.pos my) ((Z.pos mx * 2 ^ 53) mod Z.pos my)).
Proof.
  intros Hx Hy He. unfold SFdiv_core_binary.
  rewrite !(Zdigits2_unique _ 53) by done.
  assert (Z.min (fexp prec emax (53 + ex - (53 + ey))) (ex - ey) = ex - ey - 53) as ->
    by fexp_eq.
  replace (ex - ey - (ex - ey - 53)) with 53 by lia.
  by rewrite Z.shiftl_mul_pow2, div_eucl_eq by lia.
Qed.

(** ** Rounding *)

Lemma loc_of_shr_record_of_loc m l :
  loc_of_shr_record (shr_record_of_loc m l) = l ∧ shr_m (shr_record_of_loc m l) = m.
Proof. by destruct l as [|[]]. Qed.

(** One shift to the right keeps the bit shifted out and remembers whether
    anything was lost before. *)
Lemma shr_1_spec q r s :
  0 < q →
  shr_1 (Build_shr_record q r s) = Build_shr_record (Z.div2 q) (Z.odd q) (r || s).
Proof. intros Hq. destruct q as [|[p|p|]|]; done. Qed.

Lemma shr_fexp_finish s m e :
  2 ^ 52 ≤ m ≤ 2 ^ 53 → -1074 ≤ e ≤ 970 →
  (let '(mrs, e') := shr_fexp prec emax m e loc_Exact in
   match shr_m mrs with
   | 0 => S754_zero s
   | Z.pos m => if e' <=? emax - prec then S754_finite s m e' else S754_infinity s
   | Z.neg _ => S754_nan
   end) = finish s m e.
Proof.
  intros Hm He. unfold finish, shr_fexp. destruct (m =? 2 ^ 53) eqn:E.
  - apply Z.eqb_eq in E. subst m. change (Zdigits2 (2 ^ 53)) with 54.
    replace (fexp prec emax (54 + e) - e) with 1 by fexp_eq.
    cbn. destruct (e + 1 <=? emax - prec) eqn:E'; [done|].
    apply Z.leb_gt in E'. unfold emax, prec in E'. lia.
  - apply Z.eqb_neq in E. rewrite (Zdigits2_unique m 53) by lia.
    replace (fexp prec emax (53 + e) - e) with 0 by fexp_eq.
    destruct m as [|p|p]; try lia. cbn.
    destruct (e <=? emax - prec) eqn:E'; [done|].
    apply Z.leb_gt in E'. unfold emax, prec in E'. lia.
Qed.

Lemma round_nearest_even_range q l :
  q ≤ round_nearest_even q l ≤ q + 1.
Proof. destruct l as [|[]]; cbn; try destruct (Z.even q); lia. Qed.

(** A quotient of 53 bits is rounded where it is. *)
Lemma binary_round_aux_53 s q e l :
  2 ^ 52 ≤ q < 2 ^ 53 → -1074 ≤ e ≤ 970 →
  binary_round_aux prec emax s q e l = finish s (round_nearest_even q l) e.
Proof.
  intros Hq He. unfold binary_round_aux. unfold shr_fexp at 1.
  rewrite (Zdigits2_unique q 53) by lia.
  replace (fexp prec emax (53 + e) - e) with 0 by fexp_eq.
  cbn [shr]. destruct (loc_of_shr_record_of_loc q l) as [-> ->].
  apply shr_fexp_finish; [|done]. pose proof (round_nearest_even_range q l). lia.
Qed.

(** A quotient of 54 bits loses its last bit first. *)
Lemma binary_round_aux_54 s q e l :
  2 ^ 53 ≤ q < 2 ^ 54 → -1074 ≤ e ≤ 969 →
  binary_round_aux prec emax s q e l
  = finish s (round_nearest_even (Z.div2 q)
                (loc_of_shr_record
                   (Build_shr_record (Z.div2 q) (Z.odd q)
                      (inexact l))))
           (e + 1).
Proof.
  intros Hq He. unfold binary_round_aux. unfold shr_fexp at 1.
  rewrite (Zdigits2_unique q 54) by lia.
  replace (fexp prec emax (54 + e) - e) with 1 by fexp_eq.
  cbn [shr iter_pos].
  assert (shr_1 (shr_record_of_loc q l)
          = Build_shr_record (Z.div2 q) (Z.odd q) (inexact l)) as ->.
  { destruct l as [|[]]; cbn [shr_record_of_loc]; rewrite shr_1_spec by lia; done. }
  cbn [shr_m]. apply shr_fexp_finish; [|lia].
  pose proof (round_nearest_even_range (Z.div2 q)
    (loc_of_shr_record (Build_shr_record (Z.div2 q) (Z.odd q)
       (inexact l)))).
  rewrite Z.div2_div in *.
  assert (2 ^ 52 ≤ q / 2 < 2 ^ 53); [|lia].
  split; [apply Z.div_le_lower_bound|apply Z.div_lt_upper_bound]; lia.
Qed.

(** ** The rounding error *)

Lemma round_53_error q r D :
  0 < D → 0 ≤ r < D →
  2 * Z.abs (round_nearest_even q (new_location D r) * D - (q * D + r)) ≤ D.
Proof.
  intros HD Hr. rewrite new_location_spec by done.
  destruct (Z.eqb_spec r 0); [cbn; lia|].
  destruct (Z.compare_spec (2 * r) D); cbn; try destruct (Z.even q); lia.
Qed.

Lemma round_54_error q r D :
  0 < D → 0 ≤ r < D →
  Z.abs (2 * round_nearest_even (Z.div2 q)
               (loc_of_shr_record
                  (Build_shr_record (Z.div2 q) (Z.odd q) (inexact (new_location D r))))
           * D - (q * D + r)) ≤ D.
Proof.
  intros HD Hr. rewrite new_location_spec by done.
  pose proof (Z.div2_odd q) as Hq. set (h := Z.div2 q) in *. clearbody h.
  revert Hq. destruct (Z.odd q), (Z.eqb_spec r 0); cbn; intros Hq;
    try destruct (Z.even h); lia.
Qed.

(** The result of [finish] as a mantissa of 53 bits and an exponent. *)
Lemma finish_normal s m1 e :
  2 ^ 52 ≤ m1 ≤ 2 ^ 53 →
  ∃ m k, finish s m1 e = S754_finite s m (e + k)
       ∧ 0 ≤ k ≤ 1 ∧ 2 ^ 52 ≤ Z.pos m < 2 ^ 53 ∧ Z.pos m * 2 ^ k = m1.
Proof.
  intros Hm. unfold finish. destruct (m1 =? 2 ^ 53) eqn:E.
  - apply Z.eqb_eq in E. exists (2 ^ 52)%positive, 1. by subst.
  - apply Z.eqb_neq in E. exists (Z.to_pos m1), 0.
    rewrite Z.add_0_r, Z2Pos.id by lia. split_and!; try done; lia.
Qed.

(** ** Integers of more than 53 bits *)

(** Shifting right by [p] bits divides the mantissa by [2^p]. *)
Lemma shr_1_m r : 0 ≤ shr_m r → shr_m (shr_1 r) = shr_m r / 2.
Proof. rewrite <- Z.div2_div. by destruct r as [[|[q|q|]|] b s]. Qed.

Lemma shr_m_iter p r :
  0 ≤ shr_m r → shr_m (iter_pos shr_1 p r) = shr_m r / 2 ^ Z.pos p.
Proof.
  revert r. induction p as [p IH|p IH|]; intros r Hr; cbn [iter_pos].
  - assert (0 ≤ shr_m (shr_1 r)) by (rewrite shr_1_m by done; apply Z.div_pos; lia).
    assert (0 ≤ shr_m (iter_pos shr_1 p (shr_1 r)))
      by (rewrite IH by done; apply Z.div_pos; lia).
    rewrite !IH, shr_1_m, !Z.div_div by lia. f_equal.
    replace (Z.pos p~1) with (1 + Z.pos p + Z.pos p) by lia.
    rewrite !Z.pow_add_r by lia. change (2 ^ 1) with 2. ring.
  - assert (0 ≤ shr_m (iter_pos shr_1 p r))
      by (rewrite IH by done; apply Z.div_pos; lia).
    rewrite !IH, !Z.div_div by lia. f_equal.
    replace (Z.pos p~0) with (Z.pos p + Z.pos p) by lia.
    by rewrite Z.pow_add_r by lia.
  - by rewrite shr_1_m, Z.pow_1_r.
Qed.

(** The number of bits of an integer between two powers of two. *)
Lemma digits2_range p a b :
  2 ^ a ≤ Z.pos p < 2 ^ b → a < Z.pos (digits2_pos p) ≤ b.
Proof.
  intros Hp. destruct (digits2_bounds p) as [Hd0 Hd].
  set (d := Z.pos (digits2_pos p)) in *. split.
  - destruct (Z.lt_ge_cases a d) as [|Hc]; [done|exfalso].
    assert (2 ^ d ≤ 2 ^ a) by (apply Z.pow_le_mono_r; lia). lia.
  - destruct (Z.le_gt_cases d b) as [|Hc]; [done|exfalso].
    assert (2 ^ b ≤ 2 ^ (d - 1)) by (apply Z.pow_le_mono_r; lia). lia.
Qed.

(** The [53] leading bits of an integer of [53 + k] bits. *)
Lemma leading_bits L d k :
  0 < k → d = 53 + k → 2 ^ (d - 1) ≤ L < 2 ^ d → 2 ^ 52 ≤ L / 2 ^ k < 2 ^ 53.
Proof.
  intros Hk -> HL. pose proof (Z.pow_pos_nonneg 2 k ltac:(done) ltac:(lia)).
  assert (2 ^ 52 * 2 ^ k = 2 ^ (53 + k - 1) ∧ 2 ^ 53 * 2 ^ k = 2 ^ (53 + k)) as [E52 E53]
    by (rewrite <- !Z.pow_add_r by lia; split; f_equal; lia).
  split; [apply Z.div_le_lower_bound|apply Z.div_lt_upper_bound]; lia.
Qed.

(** Rounding the quotient by [T] up or down is at most [T] away. *)
Lemma shifted_error L T q :
  0 < T → L / T ≤ q ≤ L / T + 1 → Z.abs (q * T - L) ≤ T.
Proof.
  intros HT Hq. pose proof (Z.div_mod L T ltac:(lia)) as Hdm.
  pose proof (Z.mod_pos_bound L T HT) as Hmod.
  assert (q = L / T ∨ q = L / T + 1) as [-> | ->] by lia; lia.
Qed.

(** The 53 leading bits of [L], rounded up or down to [m * 2^j]: the
    error and one unit [2^j * T] of the result together are at most
    [L / 2^51]. *)
Lemma rounded_relative L T m j :
  0 < T → 2 ^ 52 ≤ L / T < 2 ^ 53 → 0 ≤ j ≤ 1 → 2 ^ 52 ≤ m < 2 ^ 53 →
  L / T ≤ m * 2 ^ j ≤ L / T + 1 →
  (Z.abs (m * 2 ^ j * T - L) + 2 ^ j * T) * 2 ^ 51 ≤ L.
Proof.
  intros HT HQ Hj Hm Hq. pose proof (shifted_error L T (m * 2 ^ j) HT Hq) as Herr.
  pose proof (Z.div_mod L T ltac:(lia)) as Hdm.
  pose proof (Z.mod_pos_bound L T HT) as Hmod.
  assert (T * 2 ^ 52 ≤ T * (L / T)) by (apply Z.mul_le_mono_nonneg_l; lia).
  cases_between j; pow_consts.
  - lia.
  - assert (L / T = 9007199254740991) as E by lia. rewrite E in Hdm. lia.
Qed.

(** [Number(L)] for a bigint of 54 to 64 bits: the 53 leading bits,
    rounded, and the number of bits dropped as exponent.  The rounding
    error and one unit of the last place together are a [2^51]th of
    [L] at most. *)
Lemma Number_round L :
  2 ^ 53 ≤ L < 2 ^ 64 →
  ∃ m e, Number L = S754_finite false m e
       ∧ 2 ^ 52 ≤ Z.pos m < 2 ^ 53 ∧ 1 ≤ e ≤ 12
       ∧ (Z.abs (Z.pos m * 2 ^ e - L) + 2 ^ e) * 2 ^ 51 ≤ L.
Proof.
  intros HL. destruct L as [|p|p]; try lia.
  destruct (digits2_bounds p) as [_ Hp]. pose proof (digits2_range p 53 64 HL) as Hd.
  remember (Z.pos (digits2_pos p)) as d eqn:Ed.
  unfold Number, binary_normalize, binary_round, shl_align. rewrite <- Ed.
  assert (fexp prec emax (d + 0) = d - 53) as -> by fexp_eq.
  destruct (d - 53 - 0) as [|k|k] eqn:Ek; try lia.
  unfold binary_round_aux. unfold shr_fexp at 1. cbn [Zdigits2]. rewrite <- Ed.
  assert (fexp prec emax (d + 0) - 0 = Z.pos k) as -> by fexp_eq.
  cbn [shr]. set (r := iter_pos shr_1 k _). set (T := 2 ^ Z.pos k).
  assert (shr_m r = Z.pos p / T) as Hq
    by (unfold r; rewrite shr_m_iter; cbn; [done|lia]).
  pose proof (leading_bits (Z.pos p) d (Z.pos k) ltac:(done) ltac:(lia) Hp) as Hr.
  fold T in Hr.
  pose proof (round_nearest_even_range (shr_m r) (loc_of_shr_record r)) as Hrange.
  rewrite shr_fexp_finish by lia.
  destruct (finish_normal false (round_nearest_even (shr_m r) (loc_of_shr_record r))
              (0 + Z.pos k) ltac:(lia)) as (m & j & -> & Hj & Hm & Hv).
  exists m, (0 + Z.pos k + j). do 2 (split; [done|]). split; [lia|].
  replace (2 ^ (0 + Z.pos k + j)) with (2 ^ j * T)
    by (unfold T; rewrite !Z.pow_add_r by lia; change (2 ^ 0) with 1; ring).
  rewrite Z.mul_assoc. apply rounded_relative; [by apply Z.pow_pos_nonneg|done..|].
  rewrite Hv. lia.
Qed.

(** ** One division of two normal numbers *)

(** The quotient of two mantissas of 53 bits, the first shifted by 53,
    has 53 or 54 bits. *)
Lemma quotient_bits x y :
  2 ^ 52 ≤ x < 2 ^ 53 → 2 ^ 52 ≤ y < 2 ^ 53 →
  (x < y → 2 ^ 52 ≤ x * 2 ^ 53 / y < 2 ^ 53)
  ∧ (y ≤ x → 2 ^ 53 ≤ x * 2 ^ 53 / y < 2 ^ 54).
Proof.
  intros Hx Hy.
  split; intros; (split; [apply Z.div_le_lower_bound|apply Z.div_lt_upper_bound]); lia.
Qed.

(** The quotient is a normal number [m * 2^e] within half a unit of the
    exact quotient, in units of the last place of the unrounded
    mantissa. *)
Lemma div_normal sx mx ex sy my ey :
  2 ^ 52 ≤ Z.pos mx < 2 ^ 53 → 2 ^ 52 ≤ Z.pos my < 2 ^ 53 →
  -1074 ≤ ex - ey - 53 ≤ 968 →
  ∃ m k, div (S754_finite sx mx ex) (S754_finite sy my ey)
         = S754_finite (xorb sx sy) m (ex - ey - 53 + k)
       ∧ 0 ≤ k ≤ 2 ∧ 2 ^ 52 ≤ Z.pos m < 2 ^ 53
       ∧ 2 * Z.abs (Z.pos m * 2 ^ k * Z.pos my - Z.pos mx * 2 ^ 53)
         ≤ (if Z.pos mx <? Z.pos my then 1 else 2) * Z.pos my.
Proof.
  intros Hx Hy He. unfold div, SFdiv. rewrite SFdiv_core by lia.
  set (N := Z.pos mx * 2 ^ 53). set (D := Z.pos my).
  pose proof (Z.div_mod N D ltac:(done)) as HN.
  pose proof (Z.mod_pos_bound N D ltac:(done)) as Hr.
  set (q := N / D) in *. set (r := N mod D) in *.
  assert (N = q * D + r) as HN' by lia.
  destruct (quotient_bits (Z.pos mx) (Z.pos my) Hx Hy) as [Hlt Hge].
  fold N D q in Hlt, Hge. clearbody q r.
  destruct (Z.ltb_spec (Z.pos mx) D) as [E|E].
  - specialize (Hlt E) as Hq.
    rewrite binary_round_aux_53 by (done || lia).
    pose proof (round_nearest_even_range q (new_location D r)) as Hrange.
    pose proof (round_53_error q r D ltac:(done) Hr) as Herr.
    destruct (finish_normal (xorb sx sy) (round_nearest_even q (new_location D r))
                (ex - ey - 53) ltac:(split; lia)) as (m & k & -> & Hk & Hm & Hv).
    exists m, k. split_and!; try done; lia.
  - specialize (Hge E) as Hq.
    rewrite binary_round_aux_54 by (done || lia).
    set (l := loc_of_shr_record _).
    pose proof (round_nearest_even_range (Z.div2 q) l) as Hrange.
    pose proof (round_54_error q r D ltac:(done) Hr) as Herr. fold l in Herr.
    assert (2 ^ 52 ≤ Z.div2 q < 2 ^ 53) as Hq2.
    { rewrite Z.div2_div.
      split; [apply Z.div_le_lower_bound|apply Z.div_lt_upper_bound]; lia. }
    destruct (finish_normal (xorb sx sy) (round_nearest_even (Z.div2 q) l) (ex - ey - 53 + 1)
                ltac:(split; lia)) as (m & k & -> & Hk & Hm & Hv).
    exists m, (1 + k). replace (ex - ey - 53 + (1 + k)) with (ex - ey - 53 + 1 + k) by lia.
    split_and!; try done; try lia.
    rewrite Z.pow_add_r, HN' by lia. change (2 ^ 1) with 2.
    replace (Z.pos m * (2 * 2 ^ k)) with (2 * (Z.pos m * 2 ^ k)) by ring.
    rewrite Hv. lia.
Qed.

(** ** Rounding to an integer *)

(** Rounding [a / 2c] to the nearest integer stays as close to [V] as
    [a] is to [2cV]. *)
Lemma round_half_near a c V E :
  0 < c → 0 ≤ E → Z.abs (a - 2 * c * V) < (2 * E + 1) * c →
  Z.abs ((a + c) / (2 * c) - V) ≤ E.
Proof.
  intros Hc HE Ha.
  assert (V - E ≤ (a + c) / (2 * c)) by (apply Z.div_le_lower_bound; lia).
  assert ((a + c) / (2 * c) < V + E + 1) by (apply Z.div_lt_upper_bound; lia).
  lia.
Qed.
