(* ===== verification/Sol.v ===== *)
(** * Sol: [formatSol]

    [SignedInScreen.tsx], lines 128-132:

<<
    function formatSol(lamports: number) {
      const maxDecimalPlaces = 9;
      const roundedStr = (lamports / LAMPORTS_PER_SOL).toFixed(maxDecimalPlaces);
      return roundedStr.replace(/0+$/, "").replace(/\.$/, "");
    }
>>

    The function goes through binary64: the lamports are divided by
    [10^9] as a floating-point number and the quotient is printed with
    nine decimals.  This file states when that detour is harmless (below
    [2^23] SOL), and how far it can lead from the balance for the other
    amounts a 64-bit account can hold. *)

From S2P Require Import Prelude JsString Ether Float64 Rounding.

#[local] Open Scope js_scope.

(** ** The code *)

(** The constant of [@solana/web3.js]: [1000000000]. *)
Definition LAMPORTS_PER_SOL : number := S754_finite false 8388608000000000 (-23).

Definition formatSol (lamports : number) : jsstring :=
  let maxDecimalPlaces := 9%nat in
  let roundedStr := toFixed maxDecimalPlaces (div lamports LAMPORTS_PER_SOL) in
  replace_trailing_dot (replace_trailing_zeros roundedStr).

(** The largest balance below which [formatSol] is exact: [2^23] SOL. *)
Definition exact_below : Z := 8388608000000000.

(** ** Values *)

Lemma LAMPORTS_PER_SOL_value : LAMPORTS_PER_SOL = Number 1000000000.
Proof. reflexivity. Qed.

Lemma exact_below_value : exact_below = 2 ^ 23 * 10 ^ 9.
Proof. reflexivity. Qed.

Example formatSol_examples :
  formatSol (Number 1500000000) = str "1.5"
  ∧ formatSol (Number 1000000000) = str "1"
  ∧ formatSol (Number 0) = str "0"
  ∧ formatSol (Number 1) = str "0.000000001"
  ∧ formatSol (Number 10) = str "0.00000001"
  ∧ formatSol (Number 123456789123) = str "123.456789123"
  ∧ formatSol (Number 5000) = str "0.000005"
  ∧ formatSol (Number 100000000000) = str "100"
  ∧ formatSol (Number (exact_below - 1)) = str "8388607.999999999".
Proof. by vm_compute. Qed.

(** ** Where the detour through binary64 is harmless *)

(** The two [replace] calls turn the output of [toFixed] into the normal
    form of [formatUnits]: the integer part, and the fraction digits
    without trailing zeros after a point if any is left. *)
Lemma strip_fixed_digits f n :
  0 ≤ n →
  replace_trailing_dot (replace_trailing_zeros (fixed_digits (S f) n))
  = formatUnits n (S f).
Proof.
  intros Hn. rewrite formatUnits_nonneg by done.
  unfold fixed_digits, replace_trailing_dot, replace_trailing_zeros, fraction_part.
  rewrite (bigint_toString_nonneg n Hn).
  rewrite padStart_digits by (split; [done|by apply ndigits_upper]).
  rewrite slice_front_digits, slice_back_digits by lia.
  rewrite fixed_integer_part by done. cbn [app].
  rewrite rstrip_app_cons_ne by done.
  destruct (rstrip zero (digits (S f) n)) as [|c r] eqn:E.
  - by rewrite chop_snoc_eq, app_nil_r.
  - apply chop_fixed. rewrite last_app, last_cons, <- E.
    destruct (list.last (rstrip _ _)) as [x|] eqn:El.
    2:{ rewrite E in El. by apply last_None in El. }
    intros [= ->]. apply last_rstrip_elem in El. by apply digits_no_dot in El.
Qed.

(** The quotient [m * 2^(eL - 30 + k)] that [div_normal] gives for
    [L / 10^9] is less than half of [10^-9] away from it, so [toFixed]
    finds [L] again.  [mL] and [eL] are the mantissa and the exponent of
    [Number L]; the bound on [L] is what keeps the rounding error of the
    division, half a unit of the last place of the quotient, below half
    a lamport. *)
Lemma scaled_round_quotient L mL eL m k :
  0 < L < exact_below →
  -52 ≤ eL ≤ 0 → Z.pos mL = L * 2 ^ (- eL) →
  0 ≤ k ≤ 2 → 2 ^ 52 ≤ Z.pos m < 2 ^ 53 →
  2 * Z.abs (Z.pos m * 2 ^ k * 8388608000000000 - Z.pos mL * 2 ^ 53)
  ≤ (if Z.pos mL <? 8388608000000000 then 1 else 2) * 8388608000000000 →
  at_least_1e21 m (eL - 30 + k) = false
  ∧ scaled_round 9 m (eL - 30 + k) = L.
Proof.
  intros HL HeL Hv Hk Hm Herr. unfold exact_below in HL.
  unfold at_least_1e21, scaled_round.
  replace (0 <=? eL - 30 + k) with false by (symmetry; apply Z.leb_gt; lia).
  replace (- (eL - 30 + k)) with (30 - k - eL) by lia.
  replace (1 - (eL - 30 + k)) with (31 - k - eL) by lia.
  rewrite (pow2_split eL (30 - k)), (pow2_split eL (31 - k)) by lia.
  assert (1 ≤ 2 ^ (- eL)) as HP by (apply (Z.pow_le_mono_r 2 0); lia).
  set (P := 2 ^ (- eL)) in *.
  assert (8388608000000000 ≤ Z.pos mL → 2 ≤ P) as HP2.
  { intros. destruct (decide (P = 1)) as [E|]; [rewrite E in Hv|]; lia. }
  destruct (Z.ltb_spec (Z.pos mL) 8388608000000000) as [Hlt|Hge]; [|apply HP2 in Hge];
    (assert (k = 0 ∨ k = 1 ∨ k = 2) as Ek by lia);
    destruct Ek as [Ek|[Ek|Ek]]; subst k;
    pow_consts; (split; [apply Z.leb_gt; lia|]);
    match goal with
    | |- ?a / ?b = L => symmetry; apply (Z.div_unique a b L (a - b * L)); [left; lia|lia]
    end.
Qed.

(** Below [2^23] SOL, [formatSol] of a balance is [formatUnits] of it
    with nine decimals: the string the hook would show if it formatted
    the bigint itself, as [useEvmBalance] does. *)
Lemma formatSol_units L :
  0 ≤ L < exact_below → formatSol (Number L) = formatUnits L 9.
Proof.
  intros HL. destruct (decide (L = 0)) as [->|Hn]; [by vm_compute|].
  destruct (Number_exact L) as (mL & eL & -> & HmL & HeL & Hv);
    [unfold exact_below in HL; lia|].
  unfold formatSol, LAMPORTS_PER_SOL.
  destruct (div_normal false mL eL false 8388608000000000 (-23))
    as (m & k & -> & Hk & Hm & Herr); [lia..|].
  replace (eL - -23 - 53 + k) with (eL - 30 + k) by lia.
  destruct (scaled_round_quotient L mL eL m k) as [E1 E2]; [lia..|done|done|done|].
  unfold toFixed. rewrite E1, E2. cbn [app xorb]. apply strip_fixed_digits. lia.
Qed.

(** C16: below [2^23] SOL the string [formatSol] shows reads back as the
    balance: a decimal [m / 10^k] with at most nine fraction digits, no
    trailing zero, and [m / 10^k = lamports / 10^9] exactly. *)
Theorem formatSol_exact (lamports : Z) :
  0 ≤ lamports < exact_below →
  ∃ m k, read_decimal (formatSol (Number lamports)) = Some (m, k)
       ∧ (k ≤ 9)%nat ∧ m * 10 ^ Z.of_nat (9 - k) = lamports
       ∧ (k = 0%nat ∨ m mod 10 ≠ 0).
Proof. intros H. rewrite formatSol_units by done. apply read_formatUnits. Qed.

Lemma formatSol_exact_witness :
  ∃ m k, read_decimal (formatSol (Number 8388607999999999)) = Some (m, k)
       ∧ (k ≤ 9)%nat ∧ m * 10 ^ Z.of_nat (9 - k) = 8388607999999999
       ∧ (k = 0%nat ∨ m mod 10 ≠ 0).
Proof. apply (formatSol_exact 8388607999999999). by vm_compute. Defined.

(** ** Where the detour through binary64 shows *)

(** The integer [toFixed] prints for a quotient [m * 2^(e - 30 + k)] that
    is within half a unit of its last place of [mL * 2^e / 10^9]: at
    most [2^e] away from [mL * 2^e], and below [10^21], so that [toFixed]
    stays in decimal notation. *)
Lemma scaled_round_value mL e m k :
  0 ≤ e ≤ 12 → 0 ≤ k ≤ 2 → 2 ^ 52 ≤ Z.pos m < 2 ^ 53 →
  Z.abs (Z.pos m * 2 ^ k * 8388608000000000 - Z.pos mL * 2 ^ 53) ≤ 8388608000000000 →
  at_least_1e21 m (e - 30 + k) = false
  ∧ Z.abs (scaled_round 9 m (e - 30 + k) - Z.pos mL * 2 ^ e) ≤ 2 ^ e.
Proof.
  intros He Hk Hm Herr. unfold at_least_1e21, scaled_round.
  replace (0 <=? e - 30 + k) with false by (symmetry; apply Z.leb_gt; lia).
  replace (1 - (e - 30 + k)) with (1 + - (e - 30 + k)) by lia.
  rewrite Z.pow_add_r by lia. change (2 ^ 1) with 2.
  set (c := 2 ^ (- (e - 30 + k))).
  assert (0 < c) as Hc by (apply Z.pow_pos_nonneg; lia).
  assert (0 < 2 ^ e) as HE by (apply Z.pow_pos_nonneg; lia).
  assert (c * 2 ^ e = 2 ^ (30 - k)) as Hce
    by (unfold c; rewrite <- Z.pow_add_r by lia; f_equal; lia).
  split; [apply Z.leb_gt; pow_consts; lia|].
  apply round_half_near; [done|lia|].
  replace (2 * c * (Z.pos mL * 2 ^ e)) with (2 * (c * 2 ^ e) * Z.pos mL) by ring.
  rewrite Hce. assert (2 ^ (30 - k) < 2 * 2 ^ e * c + c) by (rewrite <- Hce; lia).
  cases_between k; pow_consts; lia.
Qed.

(** [formatSol] of a normal number [mL * 2^e] with an exponent up to
    [12], which covers every 64-bit integer from [2^52] on. *)
Lemma formatSol_finite mL e :
  2 ^ 52 ≤ Z.pos mL < 2 ^ 53 → 0 ≤ e ≤ 12 →
  ∃ n, formatSol (S754_finite false mL e) = formatUnits n 9
     ∧ Z.abs (n - Z.pos mL * 2 ^ e) ≤ 2 ^ e.
Proof.
  intros HmL He. unfold formatSol, LAMPORTS_PER_SOL.
  destruct (div_normal false mL e false 8388608000000000 (-23))
    as (m & k & -> & Hk & Hm & Herr); [lia..|].
  replace (e - -23 - 53 + k) with (e - 30 + k) by lia.
  destruct (scaled_round_value mL e m k) as [E1 E2]; [done..| |].
  { destruct (Z.pos mL <? 8388608000000000); lia. }
  exists (scaled_round 9 m (e - 30 + k)). split; [|done].
  unfold toFixed. rewrite E1. cbn [app xorb]. apply strip_fixed_digits.
  assert (1 * 2 ^ e ≤ Z.pos mL * 2 ^ e)
    by (apply Z.mul_le_mono_nonneg_r; [apply Z.pow_nonneg|]; lia).
  lia.
Qed.

(** From [2^52] on, [Number] of a bigint below [2^53] has exponent [0]. *)
Lemma Number_integer L :
  2 ^ 52 ≤ L < 2 ^ 53 → ∃ m, Number L = S754_finite false m 0 ∧ Z.pos m = L.
Proof.
  intros HL. destruct (Number_exact L) as (m & e & -> & Hm & He & Hv); [lia|].
  destruct (decide (e = 0)) as [->|Hne]; [exists m; split; [done|]; rewrite Hv; cbn; lia|].
  exfalso. assert (2 ^ 1 ≤ 2 ^ (- e)) by (apply Z.pow_le_mono_r; lia).
  assert (L * 2 ^ 1 ≤ L * 2 ^ (- e)) by (apply Z.mul_le_mono_nonneg_l; lia).
  lia.
Qed.

(** C17: from [2^23] SOL up to [2^53] lamports, the largest balance
    [Number] converts without rounding, [formatSol] shows a decimal with
    nine fraction digits at most that is the balance or one lamport next
    to it. *)
Theorem formatSol_off_by_one (lamports : Z) :
  exact_below ≤ lamports < 2 ^ 53 →
  ∃ n, formatSol (Number lamports) = formatUnits n 9 ∧ Z.abs (n - lamports) ≤ 1.
Proof.
  intros HL. unfold exact_below in HL.
  destruct (Number_integer lamports) as (m & -> & <-); [lia|].
  destruct (formatSol_finite m 0) as (n & E & Hn); [lia..|].
  exists n. split; [done|]. change (2 ^ 0) with 1 in Hn. lia.
Qed.

Lemma formatSol_off_by_one_witness :
  ∃ n, formatSol (Number 8388608000000001) = formatUnits n 9
     ∧ Z.abs (n - 8388608000000001) ≤ 1.
Proof. apply (formatSol_off_by_one 8388608000000001). by vm_compute. Defined.

(** C40: for the other balances a 64-bit account can hold, from [2^53]
    lamports on, [formatSol] still shows a decimal with nine fraction
    digits at most, never the exponential notation [toFixed] has from
    [10^21] on, and what it shows is the balance up to a relative error
    of [2^-51]: less than five lamports at [2^53], less than [8192]
    lamports, which is less than [10^-5] SOL, at [2^64]. *)
Theorem formatSol_u64 (lamports : Z) :
  2 ^ 53 ≤ lamports < 2 ^ 64 →
  ∃ n, formatSol (Number lamports) = formatUnits n 9
     ∧ Z.abs (n - lamports) * 2 ^ 51 ≤ lamports.
Proof.
  intros HL. destruct (Number_round lamports HL) as (m & e & -> & Hm & He & Hv).
  destruct (formatSol_finite m e) as (n & E & Hn); [lia..|].
  exists n. split; [done|]. pow_consts. lia.
Qed.

Lemma formatSol_u64_witness :
  ∃ n, formatSol (Number 18446744073709551615) = formatUnits n 9
     ∧ Z.abs (n - 18446744073709551615) * 2 ^ 51 ≤ 18446744073709551615.
Proof. apply (formatSol_u64 18446744073709551615). by vm_compute. Defined.

(** The bound of one lamport is reached at once: one lamport above [2^23]
    SOL the last digit is wrong.  At the largest 64-bit balance the last
    four digits are, [1150] lamports away. *)
Example formatSol_inexact_above :
  formatSol (Number (exact_below + 1)) = str "8388608.000000002"
  ∧ formatUnits (exact_below + 1) 9 = str "8388608.000000001"
  ∧ formatSol (Number (2 ^ 64 - 1)) = str "18446744073.709552765"
  ∧ formatUnits (2 ^ 64 - 1) 9 = str "18446744073.709551615".
Proof. by vm_compute. Qed.

(** Outside the range of a 64-bit balance the function has no such
    bound.  For [2 * 10^39] lamports [toFixed] answers in exponential
    notation, and the [/0+$/] meant for the fraction digits removes the
    last zero of the exponent. *)
Example formatSol_exponent :
  toFixed 9 (div (Number (2 * 10 ^ 39)) LAMPORTS_PER_SOL) = str "1.9999999999999998e+30"
  ∧ formatSol (Number (2 * 10 ^ 39)) = str "1.9999999999999998e+3".
Proof. by vm_compute. Qed.
