(* ===== verification/PublicKey.v ===== *)
(** * PublicKey: [new PublicKey(address)] of [@solana/web3.js]

    [useSolanaBalance] builds a [PublicKey] from the address string inside
    its [try] block; the constructor throws when the string is not the
    base58 encoding of 32 bytes.  The decoder is the one of the [bs58]
    package: each leading ['1'] is a zero byte, the rest is a number in
    base 58, written big-endian without leading zero bytes. *)

From S2P Require Import Prelude.

(** ** The decoder *)

Definition ALPHABET : jsstring :=
  str "123456789ABCDEFGHJKLMNPQRSTUVWXYZabcdefghijkmnopqrstuvwxyz".

Definition LEADER : ascii := "1"%char.

Definition PUBLIC_KEY_LENGTH : nat := 32.

(** The position of [c] in [l], counted from [i]. *)
Fixpoint index_from (c : ascii) (l : jsstring) (i : Z) : option Z :=
  match l with
  | [] => None
  | x :: l' => if decide (x = c) then Some i else index_from c l' (i + 1)
  end.

Definition BASE_MAP (c : ascii) : option Z := index_from c ALPHABET 0.

(** The number written by [s] in base 58, continuing [acc]. *)
Fixpoint base58_value (s : jsstring) (acc : Z) : option Z :=
  match s with
  | [] => Some acc
  | c :: s' => d ← BASE_MAP c; base58_value s' (58 * acc + d)
  end.

(** The number of leading [c] in [s]. *)
Fixpoint leading (c : ascii) (s : jsstring) : nat :=
  match s with
  | x :: s' => if decide (x = c) then S (leading c s') else 0
  | [] => 0
  end.

(** The [k] low bytes of [n], most significant first. *)
Fixpoint bytes_acc (k : nat) (n : Z) (acc : list Z) : list Z :=
  match k with
  | O => acc
  | S k' => bytes_acc k' (n / 256) (n mod 256 :: acc)
  end.

(** The length of the shortest byte string of [n]. *)
Definition byteLength (n : Z) : nat :=
  if n <=? 0 then 0 else S (Z.to_nat (Z.log2 n / 8)).

(** [bs58.decode(s)] *)
Definition decode (s : jsstring) : completion (list Z) :=
  let zeroes := leading LEADER s in
  match base58_value (drop zeroes s) 0 with
  | None => Throw NonBase58Character
  | Some v => Normal (replicate zeroes 0 ++ bytes_acc (byteLength v) v [])
  end.

(** [new PublicKey(address)] for a string. *)
Definition PublicKey (address : string) : completion (list Z) :=
  decoded ← decode (str address);
  if decide (length decoded = PUBLIC_KEY_LENGTH) then Normal decoded
  else Throw InvalidPublicKey.

(** ** Properties *)

Lemma bytes_acc_length k n acc : length (bytes_acc k n acc) = (k + length acc)%nat.
Proof.
  revert n acc. induction k as [|k IH]; intros n acc; simpl; [done|].
  rewrite IH. simpl. lia.
Qed.

Lemma bytes_acc_Forall k n acc :
  Forall (λ b, 0 ≤ b < 256) acc → Forall (λ b, 0 ≤ b < 256) (bytes_acc k n acc).
Proof.
  revert n acc. induction k as [|k IH]; intros n acc Hacc; simpl; [done|].
  apply IH. constructor; [|done]. apply Z.mod_pos_bound. lia.
Qed.

Lemma decode_length s bs :
  decode s = Normal bs →
  ∃ v, base58_value (drop (leading LEADER s) s) 0 = Some v
     ∧ length bs = (leading LEADER s + byteLength v)%nat.
Proof.
  unfold decode. destruct (base58_value _ 0) as [v|]; [|done].
  intros [= <-]. exists v. split; [done|].
  rewrite length_app, length_replicate, bytes_acc_length. simpl. lia.
Qed.

(** A key that was accepted is 32 bytes. *)
Lemma PublicKey_bytes address key :
  PublicKey address = Normal key →
  length key = 32%nat ∧ Forall (λ b, 0 ≤ b < 256) key.
Proof.
  unfold PublicKey. destruct (decode (str address)) as [bs|e] eqn:E; [|done].
  cbn. case_decide; [|done]. intros [= <-]. split; [done|].
  unfold decode in E. destruct (base58_value _ 0); [|done].
  injection E as <-. apply Forall_app. split.
  - apply Forall_replicate. lia.
  - by apply bytes_acc_Forall.
Qed.

(** The constructor throws exactly one of two errors. *)
Lemma PublicKey_throws address e :
  PublicKey address = Throw e → e = NonBase58Character ∨ e = InvalidPublicKey.
Proof.
  unfold PublicKey, decode. destruct (base58_value _ 0); cbn.
  - case_decide; [done|]. intros [= <-]. by right.
  - intros [= <-]. by left.
Qed.

(** The system program, the wrapped SOL mint, an EVM address, a key that is too short and
    the empty string. *)
Example PublicKey_examples :
  PublicKey "11111111111111111111111111111111" = Normal (replicate 32 0)
  ∧ (∃ key, PublicKey "So11111111111111111111111111111111111111112" = Normal key)
  ∧ PublicKey "0x1111111111111111111111111111111111111111" = Throw NonBase58Character
  ∧ PublicKey "abc" = Throw InvalidPublicKey
  ∧ PublicKey "" = Throw InvalidPublicKey.
Proof. split_and!; [by vm_compute|eexists; by vm_compute|by vm_compute..]. Qed.
