(* ===== verification/React.v ===== *)
(** * React: the slice of the runtime the polling hooks run on

    The state of one hook instance: its React cells ([useState],
    [useMemo], the cleanup returned by the last [useEffect] run, the props
    of the last render) and its share of the browser (the interval timers
    it created, the RPC promises it is awaiting, what it wrote to the
    console).  The operations are the runtime primitives the hook code
    calls: [setInterval], [clearInterval], the state setter, [useMemo]
    and the sending and settling of a request.  They are built-ins, so
    they are modelled from their documented behaviour. *)

From stdpp Require Import gmap.
From S2P Require Import Prelude.

(** ** Data *)

(** A component instance is rendered for the first time, lives, and is
    removed; it is never mounted twice. *)
Inductive phase : Type := Fresh | Mounted | Unmounted.

#[global] Instance phase_eq_dec : EqDecision phase.
Proof. solve_decision. Defined.

(** [setInterval(getBalance, period)]: the callback is the [getBalance]
    closure of some render, identified by the address it captured. *)
Record timer : Type := Timer {
  due : Z;
  period : Z;
  captured : option string;
}.

#[global] Instance timer_eq_dec : EqDecision timer.
Proof. solve_decision. Defined.

(** What the hook makes observable outside its state. *)
Inductive log_entry : Type :=
| Fetched (rid : nat) (addr : string) (now : Z)
| ConsoleError (e : js_error)
| UnhandledRejection (e : js_error).

#[global] Instance log_entry_eq_dec : EqDecision log_entry.
Proof. solve_decision. Defined.

Record hook : Type := Hook {
  phase_of : phase;
  address : option string;
  poll : bool;
  balance : option Z;
  memo : option (option Z * option jsstring);
  cleanup : option nat;
  timers : gmap nat timer;
  next_timer : nat;
  inflight : gmap nat string;
  next_request : nat;
  log : list log_entry;
}.

(** The instance before its first render. *)
Definition fresh : hook :=
  Hook Fresh None false None None None ∅ 0 ∅ 0 [].

(** ** Field updates *)

Definition set_phase (p : phase) (h : hook) : hook :=
  Hook p (address h) (poll h) (balance h) (memo h) (cleanup h)
       (timers h) (next_timer h) (inflight h) (next_request h) (log h).

Definition set_props (a : option string) (p : bool) (h : hook) : hook :=
  Hook (phase_of h) a p (balance h) (memo h) (cleanup h)
       (timers h) (next_timer h) (inflight h) (next_request h) (log h).

Definition set_balance (b : option Z) (h : hook) : hook :=
  Hook (phase_of h) (address h) (poll h) b (memo h) (cleanup h)
       (timers h) (next_timer h) (inflight h) (next_request h) (log h).

Definition set_memo (m : option (option Z * option jsstring)) (h : hook) : hook :=
  Hook (phase_of h) (address h) (poll h) (balance h) m (cleanup h)
       (timers h) (next_timer h) (inflight h) (next_request h) (log h).

Definition set_cleanup (c : option nat) (h : hook) : hook :=
  Hook (phase_of h) (address h) (poll h) (balance h) (memo h) c
       (timers h) (next_timer h) (inflight h) (next_request h) (log h).

Definition set_timers (t : gmap nat timer) (n : nat) (h : hook) : hook :=
  Hook (phase_of h) (address h) (poll h) (balance h) (memo h) (cleanup h)
       t n (inflight h) (next_request h) (log h).

Definition set_inflight (r : gmap nat string) (n : nat) (h : hook) : hook :=
  Hook (phase_of h) (address h) (poll h) (balance h) (memo h) (cleanup h)
       (timers h) (next_timer h) r n (log h).

Definition add_log (e : log_entry) (h : hook) : hook :=
  Hook (phase_of h) (address h) (poll h) (balance h) (memo h) (cleanup h)
       (timers h) (next_timer h) (inflight h) (next_request h) (log h ++ [e]).

(** ** Runtime primitives *)

(** The setter of [useState]: an update of a component that is not
    mounted is dropped. *)
Definition setBalance (b : Z) (h : hook) : hook :=
  if decide (phase_of h = Mounted) then set_balance (Some b) h else h.

(** [useMemo(f, [balance])] during a render: the cell is recomputed when
    its dependency differs from the one it was computed for. *)
Definition useMemo (f : option Z → option jsstring) (h : hook) : hook :=
  match memo h with
  | Some (dep, _) =>
      if decide (dep = balance h) then h
      else set_memo (Some (balance h, f (balance h))) h
  | None => set_memo (Some (balance h, f (balance h))) h
  end.

(** The value the last render computed for [formattedBalance]. *)
Definition memo_value (h : hook) : option jsstring :=
  match memo h with
  | Some (_, v) => v
  | None => None
  end.

(** [setInterval(cb, ms)] at time [now]: a new timer, first due [ms]
    later; returns its id. *)
Definition setInterval (cb : option string) (ms now : Z) (h : hook) : nat * hook :=
  (next_timer h,
   set_timers (<[next_timer h := Timer (now + ms) ms cb]> (timers h))
              (S (next_timer h)) h).

(** [clearInterval(id)] *)
Definition clearInterval (id : nat) (h : hook) : hook :=
  set_timers (delete id (timers h)) (next_timer h) h.

(** An interval that fired is due again one period later. *)
Definition reschedule (id : nat) (h : hook) : hook :=
  match timers h !! id with
  | Some t =>
      set_timers (<[id := Timer (due t + period t) (period t) (captured t)]> (timers h))
                 (next_timer h) h
  | None => h
  end.

(** Send a balance request for [addr]: a pending promise. *)
Definition request (addr : string) (now : Z) (h : hook) : hook :=
  add_log (Fetched (next_request h) addr now)
    (set_inflight (<[next_request h := addr]> (inflight h))
                  (S (next_request h)) h).

(** A promise that settled is no longer pending. *)
Definition settled (rid : nat) (h : hook) : hook :=
  set_inflight (delete rid (inflight h)) (next_request h) h.

(** [console.error(..., e)] *)
Definition console_error (e : js_error) (h : hook) : hook :=
  add_log (ConsoleError e) h.

(** A rejection no handler caught. *)
Definition unhandled_rejection (e : js_error) (h : hook) : hook :=
  add_log (UnhandledRejection e) h.

(** The requests sent so far, in order. *)
Definition fetches (h : hook) : list (nat * string * Z) :=
  omap (λ e, match e with Fetched r a t => Some (r, a, t) | _ => None end) (log h).

(** The rejections that escaped. *)
Definition rejected_in (l : list log_entry) : list js_error :=
  omap (λ e, match e with UnhandledRejection x => Some x | _ => None end) l.

Definition rejections (h : hook) : list js_error := rejected_in (log h).

(** The earliest time at which some timer is due, if there is a timer. *)
Definition timers_not_before (t : Z) (h : hook) : Prop :=
  map_Forall (λ _ tm, t ≤ due tm) (timers h).

#[global] Instance timers_not_before_dec t h : Decision (timers_not_before t h).
Proof. unfold timers_not_before. apply _. Defined.

(** ** Frame lemmas: what each primitive leaves alone *)

Lemma fresh_inflight rid : inflight fresh !! rid = None.
Proof. apply lookup_empty. Qed.

Lemma fresh_timers id : timers fresh !! id = None.
Proof. apply lookup_empty. Qed.

Lemma setBalance_mounted b h :
  phase_of h = Mounted → setBalance b h = set_balance (Some b) h.
Proof. intros. unfold setBalance. by rewrite decide_True. Qed.

Lemma setBalance_not_mounted b h :
  phase_of h ≠ Mounted → setBalance b h = h.
Proof. intros. unfold setBalance. by rewrite decide_False. Qed.

Lemma useMemo_memo f h : memo (useMemo f h) = Some (balance h, f (balance h)) ∨
  (∃ v, memo h = Some (balance h, v) ∧ useMemo f h = h).
Proof.
  unfold useMemo. destruct (memo h) as [[dep v]|] eqn:E; [|by left].
  case_decide; [right; subst; eauto|by left].
Qed.

(** Once the cell holds [f] of its dependency, a render keeps it so. *)
Lemma useMemo_correct f h :
  (∀ dep v, memo h = Some (dep, v) → v = f dep) →
  memo (useMemo f h) = Some (balance h, f (balance h)).
Proof.
  intros Hm. destruct (useMemo_memo f h) as [|(v & E & ->)]; [done|].
  by rewrite E, (Hm _ _ E).
Qed.

Lemma fetches_add_log e h :
  fetches (add_log e h)
  = fetches h ++ match e with Fetched r a t => [(r, a, t)] | _ => [] end.
Proof. unfold fetches. simpl. rewrite omap_app. by destruct e. Qed.

Lemma rejections_add_log e h :
  rejections (add_log e h)
  = rejections h ++ match e with UnhandledRejection x => [x] | _ => [] end.
Proof. unfold rejections, rejected_in. simpl. rewrite omap_app. by destruct e. Qed.

Lemma fetches_request a now h :
  fetches (request a now h) = fetches h ++ [(next_request h, a, now)].
Proof. unfold request. by rewrite fetches_add_log. Qed.

(** Rescheduling a timer touches the timer table only. *)
Lemma reschedule_frame id h :
  address (reschedule id h) = address h ∧ phase_of (reschedule id h) = phase_of h
  ∧ balance (reschedule id h) = balance h ∧ log (reschedule id h) = log h
  ∧ inflight (reschedule id h) = inflight h
  ∧ next_request (reschedule id h) = next_request h.
Proof. unfold reschedule. by destruct (timers h !! id). Qed.
