(* ===== verification/Poller.v ===== *)
(** * Poller: what the two hooks have in common

    [useEvmBalance] and [useSolanaBalance] differ only in their
    [getBalance] callback and in the function under [useMemo].  The class
    [PollerOps] is that difference: the part of [getBalance] before its
    [await], its continuation when the promise resolves, what happens
    when it rejects, and the formatter.  [PollerLaws] is what the rest of
    a hook may assume of them.  Over the interface this file defines the
    life cycle of a hook (mount, re-render, unmount, timer tick, manual
    refresh, settled promise) as handlers and as a labelled step relation,
    and proves its invariants once for both hooks. *)

From stdpp Require Import gmap.
From S2P Require Import Prelude React.

(** ** The interface *)

Class PollerOps : Type := {
  (** what the RPC promise resolves to *)
  response : Type;
  (** [getBalance()] called on the closure that captured address [a], up
      to its [await] *)
  start : option string → Z → hook → hook;
  (** the rest of [getBalance] once the promise has resolved *)
  fulfilled : response → hook → hook;
  (** the rest of [getBalance] once the promise has rejected *)
  rejected : js_error → hook → hook;
  (** the function under [useMemo] *)
  format : option Z → option jsstring;
  (** the body of the function passed to [useEffect] *)
  useEffect : Z → hook → hook;
  (** the function that body returns *)
  useEffect_cleanup : hook → hook;
}.

(** What [getBalance] never touches: the component's phase and props, the
    memo cell, the effect's cleanup and the timers. *)
Definition shell (h : hook) :=
  (phase_of h, address h, poll h, memo h, cleanup h, timers h, next_timer h).

(** The table of pending requests. *)
Definition requests (h : hook) := (inflight h, next_request h).

(** ** What the effect of a hook has to do *)

(** The second argument of [setInterval]. *)
Definition interval_ms : Z := 500.

(** What its cleanup does: [() => clearInterval(interval)]. *)
Definition run_cleanup (h : hook) : hook :=
  match cleanup h with
  | Some id => set_cleanup None (clearInterval id h)
  | None => h
  end.

(** What the effect of a polling hook does: nothing unless [poll];
    else one call of [getBalance] and an interval that repeats it. *)
Definition poll_effect `{ops : PollerOps} (now : Z) (h : hook) : hook :=
  if negb (poll h) then h
  else
    let getBalance := address h in
    let h := start getBalance now h in
    let '(interval, h) := setInterval getBalance interval_ms now h in
    set_cleanup (Some interval) h.

Class PollerLaws (ops : PollerOps) : Prop := {
  start_shell a now h : shell (start a now h) = shell h;
  fulfilled_shell r h : shell (fulfilled r h) = shell h;
  rejected_shell e h : shell (rejected e h) = shell h;
  (** with no address [getBalance] returns at once *)
  start_falsy a now h : truthy a = false → start a now h = h;
  (** [getBalance] sends at most one request *)
  start_requests a now h :
    requests (start a now h) = requests h
    ∨ ∃ addr, requests (start a now h)
              = (<[next_request h := addr]> (inflight h), S (next_request h));
  fulfilled_requests r h : requests (fulfilled r h) = requests h;
  rejected_requests e h : requests (rejected e h) = requests h;
  (** an unmounted component's state is never written *)
  start_unmounted a now h :
    phase_of h ≠ Mounted → balance (start a now h) = balance h;
  fulfilled_unmounted r h :
    phase_of h ≠ Mounted → balance (fulfilled r h) = balance h;
  rejected_unmounted e h :
    phase_of h ≠ Mounted → balance (rejected e h) = balance h;
  (** the effect is the polling effect *)
  useEffect_spec now h : useEffect now h = poll_effect now h;
  useEffect_cleanup_spec h : useEffect_cleanup h = run_cleanup h;
}.

(** ** The life cycle *)

Section machine.
Context `{ops : PollerOps}.

(** The dependencies [getBalance, poll] of the effect changed:
    [getBalance] is a new closure iff [address] is a new value. *)
Definition deps_changed (a : option string) (p : bool) (h : hook) : bool :=
  bool_decide (a ≠ address h ∨ p ≠ poll h).

(** The render React schedules after a state update: the hook body runs
    again with the same props, so only the memo cell can change. *)
Definition rerender (h : hook) : hook :=
  if decide (phase_of h = Mounted) then useMemo format h else h.

(** The first render and the effects that follow it. *)
Definition mount (a : option string) (p : bool) (now : Z) (h : hook) : hook :=
  rerender (useEffect now (useMemo format (set_props a p (set_phase Mounted h)))).

(** A later render with props [a], [p]. *)
Definition render (a : option string) (p : bool) (now : Z) (h : hook) : hook :=
  let changed := deps_changed a p h in
  let h := useMemo format (set_props a p h) in
  if changed then rerender (useEffect now (useEffect_cleanup h)) else h.

Definition unmount (h : hook) : hook :=
  set_phase Unmounted (useEffect_cleanup h).

(** The interval [id] fires: its callback runs and it is due again. *)
Definition tick (id : nat) (now : Z) (h : hook) : hook :=
  match timers h !! id with
  | Some t => rerender (start (captured t) now (reschedule id h))
  | None => h
  end.

(** The [getBalance] the hook returned is called, e.g. as [onSuccess]. *)
Definition refresh (now : Z) (h : hook) : hook :=
  rerender (start (address h) now h).

Definition resolve (rid : nat) (r : response) (h : hook) : hook :=
  match inflight h !! rid with
  | Some _ => rerender (fulfilled r (settled rid h))
  | None => h
  end.

Definition reject (rid : nat) (e : js_error) (h : hook) : hook :=
  match inflight h !! rid with
  | Some _ => rerender (rejected e (settled rid h))
  | None => h
  end.

(** What the hook returns to the component: [balance] and
    [formattedBalance]. *)
Definition returned (h : hook) : option Z * option jsstring :=
  (balance h, memo_value h).

(** ** Events and steps *)

Record config : Type := Config { clock : Z; hk : hook }.

Inductive event : Type :=
| Mount (a : option string) (p : bool)
| Render (a : option string) (p : bool)
| Unmount
| Tick (id : nat)
| Refresh
| Resolve (rid : nat) (r : response)
| Reject (rid : nat) (e : js_error)
| Elapse (d : Z).

Inductive step : config → event → config → Prop :=
| step_mount now h a p :
    phase_of h = Fresh →
    step (Config now h) (Mount a p) (Config now (mount a p now h))
| step_render now h a p :
    phase_of h = Mounted →
    step (Config now h) (Render a p) (Config now (render a p now h))
| step_unmount now h :
    phase_of h = Mounted →
    step (Config now h) Unmount (Config now (unmount h))
| step_tick now h id t :
    timers h !! id = Some t → due t = now →
    step (Config now h) (Tick id) (Config now (tick id now h))
| step_refresh now h :
    phase_of h = Mounted →
    step (Config now h) Refresh (Config now (refresh now h))
| step_resolve now h rid a r :
    inflight h !! rid = Some a →
    step (Config now h) (Resolve rid r) (Config now (resolve rid r h))
| step_reject now h rid a e :
    inflight h !! rid = Some a →
    step (Config now h) (Reject rid e) (Config now (reject rid e h))
| step_elapse now h d :
    0 < d → timers_not_before (now + d) h →
    step (Config now h) (Elapse d) (Config (now + d) h).

(** The same as a function: [None] when the event cannot happen. *)
Definition exec (ev : event) (c : config) : option config :=
  let now := clock c in
  let h := hk c in
  match ev with
  | Mount a p =>
      if decide (phase_of h = Fresh) then Some (Config now (mount a p now h)) else None
  | Render a p =>
      if decide (phase_of h = Mounted) then Some (Config now (render a p now h)) else None
  | Unmount =>
      if decide (phase_of h = Mounted) then Some (Config now (unmount h)) else None
  | Tick id =>
      match timers h !! id with
      | Some t => if decide (due t = now) then Some (Config now (tick id now h)) else None
      | None => None
      end
  | Refresh =>
      if decide (phase_of h = Mounted) then Some (Config now (refresh now h)) else None
  | Resolve rid r =>
      if inflight h !! rid is Some _ then Some (Config now (resolve rid r h)) else None
  | Reject rid e =>
      if inflight h !! rid is Some _ then Some (Config now (reject rid e h)) else None
  | Elapse d =>
      if decide (0 < d ∧ timers_not_before (now + d) h)
      then Some (Config (now + d) h) else None
  end.

(** A run: the events in order. *)
Fixpoint run (evs : list event) (c : config) : option config :=
  match evs with
  | [] => Some c
  | ev :: evs' => c' ← exec ev c; run evs' c'
  end.

Inductive steps : config → list event → config → Prop :=
| steps_nil c : steps c [] c
| steps_cons c ev c' evs c'' :
    step c ev c' → steps c' evs c'' → steps c (ev :: evs) c''.

(** A hook starts unmounted at some time. *)
Definition initial (now : Z) : config := Config now fresh.

Definition reachable (c : config) : Prop :=
  ∃ now evs, steps (initial now) evs c.

(** ** The invariant *)

(** The timer table holds exactly the interval the cleanup will clear;
    its callback is the current [getBalance]; it is due within one
    period. *)
Definition timers_ok (now : Z) (h : hook) : Prop :=
  match cleanup h with
  | Some id =>
      ∃ d, timers h = {[ id := Timer d interval_ms (address h) ]}
         ∧ now ≤ d ≤ now + interval_ms
  | None => timers h = ∅
  end.

(** There is an interval iff the hook is mounted and polling. *)
Definition cleanup_ok (h : hook) : Prop :=
  is_Some (cleanup h) ↔ phase_of h = Mounted ∧ poll h = true.

(** [formattedBalance] is the formatter applied to [balance]. *)
Definition memo_ok (h : hook) : Prop :=
  phase_of h ≠ Fresh → memo h = Some (balance h, format (balance h)).

(** The memo cell holds the formatter's value for its dependency. *)
Definition memo_sound (h : hook) : Prop :=
  ∀ dep v, memo h = Some (dep, v) → v = format dep.

(** Pending requests have ids below the next one. *)
Definition requests_ok (h : hook) : Prop :=
  ∀ rid a, inflight h !! rid = Some a → (rid < next_request h)%nat.

Record inv (c : config) : Prop := Inv {
  inv_timers : timers_ok (clock c) (hk c);
  inv_cleanup : cleanup_ok (hk c);
  inv_memo : memo_ok (hk c);
  inv_memo_sound : memo_sound (hk c);
  inv_requests : requests_ok (hk c);
  inv_fresh : phase_of (hk c) = Fresh → hk c = fresh;
}.

End machine.

Arguments event : clear implicits.
Arguments event ops : assert.

(** ** Frames *)

Lemma shell_inv h h' :
  shell h' = shell h →
  phase_of h' = phase_of h ∧ address h' = address h ∧ poll h' = poll h
  ∧ memo h' = memo h ∧ cleanup h' = cleanup h ∧ timers h' = timers h
  ∧ next_timer h' = next_timer h.
Proof. unfold shell. intros [= -> -> -> -> -> -> ->]. done. Qed.

Lemma requests_inv h h' :
  requests h' = requests h →
  inflight h' = inflight h ∧ next_request h' = next_request h.
Proof. unfold requests. intros [= -> ->]. done. Qed.

(** Turn every shell or request-table equation in the context into
    equations on fields. *)
Ltac frames :=
  repeat match goal with
  | H : shell _ = shell _ |- _ =>
      apply shell_inv in H; destruct H as (? & ? & ? & ? & ? & ? & ?)
  | H : requests _ = requests _ |- _ =>
      apply requests_inv in H; destruct H as (? & ?)
  end.

Lemma useMemo_set_memo f h : useMemo f h = set_memo (memo (useMemo f h)) h.
Proof.
  unfold useMemo. destruct (memo h) as [[dep v]|] eqn:E; [|done].
  case_decide; [|done]. destruct h; simpl in *. by subst.
Qed.

Lemma useMemo_shape f h :
  ∃ m, useMemo f h = set_memo m h
     ∧ ((∀ dep v, memo h = Some (dep, v) → v = f dep) →
        m = Some (balance h, f (balance h))).
Proof.
  exists (memo (useMemo f h)). split; [apply useMemo_set_memo|].
  apply useMemo_correct.
Qed.

(** ** Preservation of the invariant *)

Section invariant.
Context {ops : PollerOps} {laws : PollerLaws ops}.

Lemma rerender_shape h :
  memo_sound h →
  ∃ m, rerender h = set_memo m h
     ∧ (phase_of h = Mounted → m = Some (balance h, format (balance h)))
     ∧ (phase_of h ≠ Mounted → m = memo h).
Proof.
  intros Hs. unfold rerender. case_decide.
  - destruct (useMemo_shape format h) as (m & E & Hm). exists m.
    split; [done|]. split; [intros _; by apply Hm|done].
  - exists (memo h). by destruct h.
Qed.

Lemma memo_sound_set_memo h b :
  memo_sound (set_memo (Some (b, format b)) h).
Proof. intros dep v [= <- <-]. done. Qed.

(** The parts of the invariant read few fields. *)
Lemma timers_ok_fields now h h' :
  cleanup h' = cleanup h → timers h' = timers h → address h' = address h →
  timers_ok now h → timers_ok now h'.
Proof. unfold timers_ok. by intros -> -> ->. Qed.

Lemma cleanup_ok_fields h h' :
  cleanup h' = cleanup h → phase_of h' = phase_of h → poll h' = poll h →
  cleanup_ok h → cleanup_ok h'.
Proof. unfold cleanup_ok. by intros -> -> ->. Qed.

Lemma requests_ok_fields h h' :
  requests h' = requests h → requests_ok h → requests_ok h'.
Proof. intros [E1 E2]%requests_inv. unfold requests_ok. by rewrite E1, E2. Qed.

Lemma memo_sound_shell h h' :
  shell h' = shell h → memo_sound h → memo_sound h'.
Proof.
  intros (_ & _ & _ & Em & _ & _ & _)%shell_inv. unfold memo_sound.
  by rewrite Em.
Qed.

(** The render after a state update re-establishes [memo_ok]. *)
Lemma memo_ok_rerender h :
  memo_sound h → (phase_of h ≠ Mounted → memo_ok h) →
  memo_ok (rerender h) ∧ memo_sound (rerender h).
Proof.
  intros Hs Hm.
  destruct (rerender_shape h Hs) as (m & -> & Hm1 & Hm2).
  destruct (decide (phase_of h = Mounted)) as [E|E].
  - rewrite (Hm1 E). split; [done|apply memo_sound_set_memo].
  - rewrite (Hm2 E). by destruct h; split; [apply Hm|].
Qed.

Lemma rerender_frame h :
  memo_sound h →
  phase_of (rerender h) = phase_of h ∧ address (rerender h) = address h
  ∧ poll (rerender h) = poll h ∧ cleanup (rerender h) = cleanup h
  ∧ timers (rerender h) = timers h ∧ next_timer (rerender h) = next_timer h
  ∧ balance (rerender h) = balance h ∧ requests (rerender h) = requests h
  ∧ log (rerender h) = log h.
Proof. intros Hs. by destruct (rerender_shape h Hs) as (m & -> & _). Qed.

(** An operation of the interface followed by the render it may cause
    preserves the invariant. *)
Lemma inv_op (f : hook → hook) now h :
  shell (f h) = shell h →
  requests_ok (f h) →
  (phase_of h ≠ Mounted → balance (f h) = balance h) →
  phase_of h ≠ Fresh →
  inv (Config now h) → inv (Config now (rerender (f h))).
Proof.
  intros Hsh Hrq Hb Hph [Ht Hc Hm Hms Hr Hf]; simpl in *.
  pose proof (memo_sound_shell _ _ Hsh Hms) as Hms'.
  destruct (rerender_frame (f h) Hms') as (E1 & E2 & E3 & E4 & E5 & E6 & E7 & E8 & _).
  destruct (memo_ok_rerender (f h) Hms') as [? ?].
  { intros Hp _. pose proof Hsh as Hsh'. frames.
    rewrite Hb by congruence. rewrite <- Hm by done. done. }
  pose proof (requests_ok_fields _ _ E8 Hrq) as Hrq'.
  pose proof Hsh as Hsh'. frames.
  split; simpl; [| |done|done|done|].
  - eapply timers_ok_fields; [..|exact Ht]; congruence.
  - eapply cleanup_ok_fields; [..|exact Hc]; congruence.
  - congruence.
Qed.

(** *** The pieces of an effect run *)

(** The table holds the interval of the cleanup and nothing else. *)
Definition timers_owned (h : hook) : Prop :=
  match cleanup h with
  | Some id => ∃ t, timers h = {[ id := t ]}
  | None => timers h = ∅
  end.

Lemma timers_ok_owned now h : timers_ok now h → timers_owned h.
Proof.
  unfold timers_ok, timers_owned. destruct (cleanup h); [|done].
  intros (d & -> & _). eauto.
Qed.

Lemma run_cleanup_eq h :
  timers_owned h →
  run_cleanup h = set_cleanup None (set_timers ∅ (next_timer h) h).
Proof.
  unfold timers_owned, run_cleanup, clearInterval.
  destruct h as [? ? ? ? ? [id|] ? ? ? ? ?]; simpl.
  - intros (t & ->). by rewrite delete_singleton_eq.
  - by intros ->.
Qed.

Lemma memo_sound_useMemo h : memo_sound h → memo_sound (useMemo format h).
Proof.
  intros Hs. destruct (useMemo_memo format h) as [E|(v & _ & ->)]; [|done].
  intros dep v. rewrite E. by intros [= <- <-].
Qed.

Lemma requests_ok_start a now h : requests_ok h → requests_ok (start a now h).
Proof.
  intros Hr. destruct (start_requests a now h) as [E|[addr E]].
  - by eapply requests_ok_fields.
  - unfold requests in E. injection E as E1 E2.
    intros rid b. rewrite E1, E2. intros [[-> _]|[_ Hb]]%lookup_insert_Some.
    + lia.
    + apply Hr in Hb. lia.
Qed.

Lemma requests_ok_settled rid h : requests_ok h → requests_ok (settled rid h).
Proof.
  intros Hr rid' b. simpl. intros [_ Hb]%lookup_delete_Some. by apply Hr in Hb.
Qed.

(** The effect run on a hook with no interval, followed by the render
    its [getBalance] call may cause. *)
Lemma inv_effect now h :
  phase_of h = Mounted → cleanup h = None → timers h = ∅ →
  memo_sound h → requests_ok h →
  inv (Config now (rerender (poll_effect now h))).
Proof.
  intros Hph Hc Ht Hms Hrq.
  set (h1 := start (address h) now h).
  pose proof (start_shell (address h) now h) as Hsh. fold h1 in Hsh.
  pose proof (requests_ok_start (address h) now h Hrq) as Hrq1. fold h1 in Hrq1.
  pose proof (memo_sound_shell _ _ Hsh Hms) as Hms1.
  destruct (shell_inv _ _ Hsh) as (Ep & Ea & Epo & Em & Ecl & Eti & Ent).
  assert (∃ h2, poll_effect now h = h2 ∧ phase_of h2 = Mounted ∧ poll h2 = poll h
            ∧ memo_sound h2 ∧ requests_ok h2 ∧ timers_ok now h2 ∧ cleanup_ok h2)
    as (h2 & -> & Hp2 & Hpo2 & Hms2 & Hrq2 & Ht2 & Hc2).
  { unfold poll_effect. destruct (poll h) eqn:Hpoll; simpl.
    - fold h1. eexists; split; [done|]. simpl. split_and!; try done; try congruence.
      + unfold timers_ok; simpl. exists (now + interval_ms).
        rewrite Eti, Ht, Ea, insert_empty. unfold interval_ms. split; [done|lia].
      + unfold cleanup_ok; simpl. split; [intros _; split; congruence|by eauto].
    - exists h. split_and!; try done.
      + unfold timers_ok. by rewrite Hc.
      + unfold cleanup_ok. rewrite Hc, Hpoll. split; [by intros [? ?]|by intros [_ ?]]. }
  destruct (rerender_frame h2 Hms2) as (E1 & E2 & E3 & E4 & E5 & E6 & E7 & E8 & _).
  destruct (memo_ok_rerender h2 Hms2) as [? ?]; [done|].
  split; simpl; [| |done|done| |congruence].
  - eapply timers_ok_fields; [..|exact Ht2]; done.
  - eapply cleanup_ok_fields; [..|exact Hc2]; done.
  - by eapply requests_ok_fields.
Qed.

(** *** One lemma per event *)

Lemma inv_initial now : inv (initial now).
Proof.
  split; simpl; [done| |by intros []|done| |done].
  - split; [by intros [? ?]|by intros [? _]].
  - intros rid a. by rewrite fresh_inflight.
Qed.

Lemma inv_mount now h a p :
  phase_of h = Fresh → inv (Config now h) → inv (Config now (mount a p now h)).
Proof.
  intros Hph [_ _ _ _ _ Hf]. simpl in Hf. rewrite (Hf Hph). unfold mount. rewrite ?useEffect_spec.
  apply inv_effect; try done.
  intros dep v. unfold useMemo. simpl. by intros [= <- <-].
Qed.

(** A render with the same props changes nothing. *)
Lemma render_same now h :
  memo_ok h → phase_of h ≠ Fresh → render (address h) (poll h) now h = h.
Proof.
  intros Hm Hph. unfold render, deps_changed. rewrite ?useEffect_spec, ?useEffect_cleanup_spec.
  rewrite bool_decide_eq_false_2 by (intros [?|?]; congruence).
  replace (set_props (address h) (poll h) h) with h by by destruct h.
  unfold useMemo. rewrite (Hm Hph). by rewrite decide_True.
Qed.

Lemma inv_render now h a p :
  phase_of h = Mounted → inv (Config now h) → inv (Config now (render a p now h)).
Proof.
  intros Hph Hi. pose proof Hi as [Ht Hc Hm Hms Hrq _]. simpl in *.
  destruct (decide (a = address h ∧ p = poll h)) as [[-> ->]|Hne].
  { rewrite render_same; [done..|congruence]. }
  unfold render, deps_changed. rewrite ?useEffect_spec, ?useEffect_cleanup_spec.
  rewrite bool_decide_eq_true_2
    by (destruct (decide (a = address h)); [right; intros ?; by apply Hne|by left]).
  assert (memo_sound (useMemo format (set_props a p h))) as Hms0
    by by apply memo_sound_useMemo.
  destruct (useMemo_shape format (set_props a p h)) as (m & E0 & _).
  rewrite E0 in *. rewrite run_cleanup_eq.
  - by apply inv_effect.
  - apply timers_ok_owned in Ht. by destruct h.
Qed.

Lemma inv_unmount now h :
  phase_of h = Mounted → inv (Config now h) → inv (Config now (unmount h)).
Proof.
  intros Hph [Ht Hc Hm Hms Hrq _]. simpl in *. unfold unmount. rewrite ?useEffect_cleanup_spec.
  rewrite (run_cleanup_eq h) by by eapply timers_ok_owned.
  split; simpl; try done.
  - unfold cleanup_ok. simpl. split; [by intros [? ?]|by intros [? _]].
  - intros _. apply Hm. congruence.
Qed.

Lemma inv_tick now h id t :
  timers h !! id = Some t → due t = now →
  inv (Config now h) → inv (Config now (tick id now h)).
Proof.
  intros Hid Hdue Hi. pose proof Hi as [Ht Hc Hm Hms Hrq Hf]. simpl in *.
  unfold tick. rewrite Hid.
  assert (phase_of h = Mounted ∧ cleanup h = Some id
          ∧ timers h = {[ id := t ]}
          ∧ t = Timer now interval_ms (address h)) as (Hph & Hcl & Hti & Et).
  { unfold timers_ok in Ht. destruct (cleanup h) as [id'|] eqn:Ecl.
    - destruct Ht as (d & Hd & _). rewrite Hd in Hid.
      apply lookup_singleton_Some in Hid as [-> <-].
      destruct Hc as [Hc _]. destruct Hc as [? _]; [by eauto|].
      simpl in Hdue. by subst.
    - rewrite Ht in Hid. by rewrite lookup_empty in Hid. }
  apply (inv_op (start (captured t) now)).
  - apply start_shell.
  - apply requests_ok_start. unfold reschedule. rewrite Hid. exact Hrq.
  - apply start_unmounted.
  - unfold reschedule. rewrite Hid. simpl. congruence.
  - unfold reschedule. rewrite Hid. split; simpl; try done.
    + unfold timers_ok. simpl. rewrite Hcl, Hti, Et. simpl.
      exists (now + interval_ms). rewrite insert_singleton_eq.
      unfold interval_ms. split; [done|lia].
    + congruence.
Qed.

Lemma inv_elapse now h d :
  0 < d → timers_not_before (now + d) h →
  inv (Config now h) → inv (Config (now + d) h).
Proof.
  intros Hd Hnb [Ht Hc Hm Hms Hrq Hf]. simpl in *. split; simpl; try done.
  unfold timers_ok in *. destruct (cleanup h) as [id|]; [|done].
  destruct Ht as (t & Hti & ?). exists t. split; [done|].
  specialize (Hnb id (Timer t interval_ms (address h))).
  rewrite Hti, lookup_singleton_eq in Hnb. specialize (Hnb eq_refl). simpl in Hnb. lia.
Qed.

Lemma inv_settle (f : hook → hook) now h rid a :
  inflight h !! rid = Some a →
  (∀ h', shell (f h') = shell h') →
  (∀ h', requests (f h') = requests h') →
  (∀ h', phase_of h' ≠ Mounted → balance (f h') = balance h') →
  inv (Config now h) → inv (Config now (rerender (f (settled rid h)))).
Proof.
  intros Hrid Hsh Hrq Hb Hi. pose proof Hi as [? ? ? ? Hr Hf]. simpl in *.
  assert (phase_of h ≠ Fresh) as Hph
    by (intros E; by rewrite (Hf E), fresh_inflight in Hrid).
  apply (inv_op f now (settled rid h)).
  - apply Hsh.
  - eapply requests_ok_fields; [apply Hrq|]. by apply requests_ok_settled.
  - apply Hb.
  - exact Hph.
  - split; simpl; try done. by apply requests_ok_settled.
Qed.

(** Every step preserves the invariant. *)
Lemma inv_step c ev c' : inv c → step c ev c' → inv c'.
Proof.
  intros Hi Hs. destruct Hs.
  - by apply inv_mount.
  - by apply inv_render.
  - by apply inv_unmount.
  - by eapply inv_tick.
  - apply (inv_op (start (address h) now)).
    + apply start_shell.
    + apply requests_ok_start, Hi.
    + apply start_unmounted.
    + congruence.
    + done.
  - unfold resolve. rewrite H.
    eapply (inv_settle (fulfilled r)); eauto using fulfilled_shell,
      fulfilled_requests, fulfilled_unmounted.
  - unfold reject. rewrite H.
    eapply (inv_settle (rejected e)); eauto using rejected_shell,
      rejected_requests, rejected_unmounted.
  - by apply inv_elapse.
Qed.

Lemma inv_steps c evs c' : inv c → steps c evs c' → inv c'.
Proof. intros Hi Hs. induction Hs; eauto using inv_step. Qed.

Lemma inv_reachable c : reachable c → inv c.
Proof. intros (now & evs & Hs). eapply inv_steps; [apply inv_initial|done]. Qed.

End invariant.

(** ** Consequences *)

Section theory.
Context {ops : PollerOps} {laws : PollerLaws ops}.

(** *** The step relation and its function *)

Lemma step_exec c ev c' : step c ev c' ↔ exec ev c = Some c'.
Proof.
  split.
  - intros []; unfold exec; simpl;
      repeat match goal with
      | H : _ = _ |- _ => rewrite H
      end; try rewrite decide_True by done; done.
  - destruct c as [now h], ev; unfold exec; simpl; intros Hx;
      repeat case_match; simplify_eq; try (by econstructor).
    match goal with H : _ ∧ _ |- _ => destruct H end. by constructor.
Qed.

Lemma step_deterministic c ev c1 c2 : step c ev c1 → step c ev c2 → c1 = c2.
Proof. rewrite !step_exec. congruence. Qed.

Lemma steps_run c evs c' : steps c evs c' ↔ run evs c = Some c'.
Proof.
  split.
  - induction 1 as [|c ev c1 evs c2 Hs _ IH]; [done|].
    simpl. apply step_exec in Hs. by rewrite Hs.
  - revert c. induction evs as [|ev evs IH]; simpl; intros c.
    + intros [= ->]. constructor.
    + destruct (exec ev c) as [c1|] eqn:E; [|done]. simpl.
      intros Hr. econstructor; [by apply step_exec|by apply IH].
Qed.

Lemma reachable_run now evs c : run evs (initial now) = Some c → reachable c.
Proof. intros Hr. exists now, evs. by apply steps_run. Qed.

Lemma steps_app c evs1 c' evs2 c'' :
  steps c evs1 c' → steps c' evs2 c'' → steps c (evs1 ++ evs2) c''.
Proof. induction 1; simpl; eauto using steps. Qed.

Lemma reachable_step c ev c' : reachable c → step c ev c' → reachable c'.
Proof.
  intros (now & evs & Hs) Hst. exists now, (evs ++ [ev]).
  eapply steps_app; [done|]. eauto using steps.
Qed.

(** *** What the invariant says *)

(** A hook that is not mounted, or does not poll, has no timer. *)
Lemma inv_no_timer c :
  inv c → phase_of (hk c) ≠ Mounted ∨ poll (hk c) = false → timers (hk c) = ∅.
Proof.
  intros [Ht Hc _ _ _ _] Hn. unfold timers_ok, cleanup_ok in *.
  destruct (cleanup (hk c)); [|done].
  destruct Hc as [Hc _]. destruct Hc as [? ?]; [by eauto|]. destruct Hn; congruence.
Qed.

(** A mounted polling hook has exactly one timer, of period 500, whose
    callback is the current [getBalance], due within the next 500 ms. *)
Lemma inv_one_timer c :
  inv c → phase_of (hk c) = Mounted → poll (hk c) = true →
  ∃ id d, cleanup (hk c) = Some id
        ∧ timers (hk c) = {[ id := Timer d 500 (address (hk c)) ]}
        ∧ clock c ≤ d ≤ clock c + 500.
Proof.
  intros [Ht Hc _ _ _ _] Hp Hpo. unfold timers_ok, cleanup_ok in *.
  destruct Hc as [_ Hc]. destruct Hc as [id Hid]; [done|].
  rewrite Hid in Ht. destruct Ht as (d & ? & ?). by exists id, d.
Qed.

(** Every timer of the table is the interval of the effect. *)
Lemma inv_timer c id t :
  inv c → timers (hk c) !! id = Some t →
  cleanup (hk c) = Some id ∧ timers (hk c) = {[ id := t ]}
  ∧ period t = interval_ms ∧ captured t = address (hk c)
  ∧ clock c ≤ due t ≤ clock c + interval_ms.
Proof.
  intros [Ht _ _ _ _ _] Hid. unfold timers_ok in Ht.
  destruct (cleanup (hk c)); [|by rewrite Ht, lookup_empty in Hid].
  destruct Ht as (d & Hd & ?). rewrite Hd in Hid |- *.
  by apply lookup_singleton_Some in Hid as [-> <-].
Qed.

(** What the hook returns as [formattedBalance] is the formatter applied
    to what it returns as [balance]. *)
Lemma inv_formatted c :
  inv c → phase_of (hk c) ≠ Fresh →
  memo_value (hk c) = format (balance (hk c)).
Proof. intros [_ _ Hm _ _ _] Hp. unfold memo_value. by rewrite (Hm Hp). Qed.

(** After every step the hook returns a balance and its formatting. *)
Lemma returned_step c ev c' :
  inv c → step c ev c' → phase_of (hk c') ≠ Fresh →
  returned (hk c') = (balance (hk c'), format (balance (hk c'))).
Proof.
  intros Hi Hs Hp. unfold returned. f_equal.
  apply inv_formatted; [by eapply inv_step|done].
Qed.

(** *** Frames of the handlers *)

Lemma rerender_set_memo h : rerender h = set_memo (memo (rerender h)) h.
Proof.
  unfold rerender. case_decide; [apply useMemo_set_memo|by destruct h].
Qed.

Lemma effect_phase now h : phase_of (poll_effect now h) = phase_of h.
Proof.
  unfold poll_effect. destruct (poll h); cbn [negb]; [|done]. cbn.
  by destruct (shell_inv _ _ (start_shell (address h) now h)) as (->&_).
Qed.

Lemma mount_phase a p now h : phase_of (mount a p now h) = Mounted.
Proof.
  unfold mount. rewrite ?useEffect_spec. by rewrite rerender_set_memo, useMemo_set_memo; cbn;
    rewrite effect_phase.
Qed.

(** A manual refresh does not touch the timers. *)
Lemma refresh_timers now h :
  timers (refresh now h) = timers h ∧ cleanup (refresh now h) = cleanup h.
Proof.
  unfold refresh. rewrite rerender_set_memo. simpl.
  by destruct (shell_inv _ _ (start_shell (address h) now h)) as (_&_&_&_&->&->&_).
Qed.

(** A tick moves the timer one period ahead. *)
Lemma tick_timers id now h t :
  timers h !! id = Some t →
  timers (tick id now h)
  = <[id := Timer (due t + period t) (period t) (captured t)]> (timers h).
Proof.
  intros Hid. unfold tick. rewrite Hid, rerender_set_memo. simpl.
  destruct (shell_inv _ _ (start_shell (captured t) now (reschedule id h)))
    as (_&_&_&_&_&->&_).
  unfold reschedule. by rewrite Hid.
Qed.

(** A settled promise leaves the table; its handler runs, then the
    render it may have caused. *)
Lemma resolve_eq rid a r h :
  inflight h !! rid = Some a →
  resolve rid r h
  = set_memo (memo (resolve rid r h)) (fulfilled r (settled rid h)).
Proof. intros Hid. unfold resolve. rewrite Hid. apply rerender_set_memo. Qed.

Lemma reject_eq rid a e h :
  inflight h !! rid = Some a →
  reject rid e h
  = set_memo (memo (reject rid e h)) (rejected e (settled rid h)).
Proof. intros Hid. unfold reject. rewrite Hid. apply rerender_set_memo. Qed.

Lemma tick_eq id t now h :
  timers h !! id = Some t →
  tick id now h
  = set_memo (memo (tick id now h)) (start (captured t) now (reschedule id h)).
Proof. intros Hid. unfold tick. rewrite Hid. apply rerender_set_memo. Qed.

Lemma refresh_eq now h :
  refresh now h = set_memo (memo (refresh now h)) (start (address h) now h).
Proof. apply rerender_set_memo. Qed.

(** Once unmounted, a hook stays unmounted, keeps its balance and has no
    timer, whatever happens. *)
Lemma unmounted_step now h ev c' :
  inv (Config now h) → phase_of h = Unmounted → step (Config now h) ev c' →
  phase_of (hk c') = Unmounted ∧ balance (hk c') = balance h
  ∧ timers (hk c') = ∅.
Proof.
  intros Hi Hp Hs. pose proof (inv_step _ _ _ Hi Hs) as Hi'.
  assert (phase_of (hk c') = Unmounted ∧ balance (hk c') = balance h) as [E1 E2].
  { assert (timers h = ∅) as Hn
      by (apply (inv_no_timer _ Hi); left; simpl; congruence).
    inversion Hs; subst; simpl; try congruence.
    - rewrite Hn in *. by rewrite lookup_empty in *.
    - unfold resolve. rewrite H3, rerender_set_memo. simpl.
      destruct (shell_inv _ _ (fulfilled_shell r (settled rid h))) as (->&_).
      split; [done|]. by rewrite fulfilled_unmounted by (simpl; congruence).
    - unfold reject. rewrite H3, rerender_set_memo. simpl.
      destruct (shell_inv _ _ (rejected_shell e (settled rid h))) as (->&_).
      split; [done|]. by rewrite rejected_unmounted by (simpl; congruence).
    - done. }
  split_and!; [done..|]. apply (inv_no_timer _ Hi'). left. congruence.
Qed.

(** *** Phase and props *)

(** What only the component changes. *)
Definition props (h : hook) := (phase_of h, address h, poll h).

Lemma props_shell h h' : shell h' = shell h → props h' = props h.
Proof. intros (E1 & E2 & E3 & _)%shell_inv. unfold props. by rewrite E1, E2, E3. Qed.

Lemma props_rerender h : props (rerender h) = props h.
Proof. by rewrite rerender_set_memo. Qed.

Lemma props_useMemo f h : props (useMemo f h) = props h.
Proof. by rewrite useMemo_set_memo. Qed.

Lemma props_run_cleanup h : props (run_cleanup h) = props h.
Proof. unfold run_cleanup. by destruct (cleanup h). Qed.

Lemma props_effect now h : props (poll_effect now h) = props h.
Proof.
  unfold poll_effect. destruct (poll h); cbn [negb]; [|done].
  by rewrite <- (props_shell _ _ (start_shell (address h) now h)).
Qed.

Lemma props_mount a p now h : props (mount a p now h) = (Mounted, a, p).
Proof. unfold mount. rewrite ?useEffect_spec. by rewrite props_rerender, props_effect, props_useMemo. Qed.

Lemma props_render a p now h : props (render a p now h) = (phase_of h, a, p).
Proof.
  unfold render. rewrite ?useEffect_spec, ?useEffect_cleanup_spec. destruct (deps_changed a p h).
  - by rewrite props_rerender, props_effect, props_run_cleanup, props_useMemo.
  - by rewrite props_useMemo.
Qed.

Lemma props_unmount h : props (unmount h) = (Unmounted, address h, poll h).
Proof.
  unfold unmount. rewrite ?useEffect_cleanup_spec. pose proof (props_run_cleanup h) as E. unfold props in *.
  injection E as _ E2 E3. cbn. by rewrite E2, E3.
Qed.

Lemma props_set_memo m h : props (set_memo m h) = props h.
Proof. done. Qed.

Lemma props_reschedule id h : props (reschedule id h) = props h.
Proof. unfold reschedule. by destruct (timers h !! id). Qed.

(** The events that are not renders leave phase and props alone. *)
Lemma props_step c ev c' :
  step c ev c' →
  match ev with
  | Mount _ _ | Render _ _ | Unmount => True
  | _ => props (hk c') = props (hk c)
  end.
Proof.
  intros []; cbn [hk]; try done.
  - by rewrite (tick_eq id t), props_set_memo, (props_shell _ _ (start_shell _ _ _)),
      props_reschedule.
  - by rewrite refresh_eq, props_set_memo, (props_shell _ _ (start_shell _ _ _)).
  - by rewrite (resolve_eq rid a), props_set_memo,
      (props_shell _ _ (fulfilled_shell _ _)).
  - by rewrite (reject_eq rid a), props_set_memo,
      (props_shell _ _ (rejected_shell _ _)).
Qed.

(** Only [Elapse] moves the clock. *)
Lemma clock_step c ev c' :
  step c ev c' → clock c' = if ev is Elapse d then clock c + d else clock c.
Proof. by intros []. Qed.

(** *** A hook without an address *)

(** The events in which the component passes no usable address. *)
Definition quiet (ev : event ops) : Prop :=
  match ev with
  | Mount a _ | Render a _ => truthy a = false
  | _ => True
  end.

(** Nothing was asked and nothing is known. *)
Definition idle (h : hook) : Prop :=
  truthy (address h) = false ∧ balance h = None ∧ log h = [] ∧ inflight h = ∅.

(** The fields [idle] reads. *)
Definition core (h : hook) := (balance h, log h, inflight h).

Lemma rerender_core h : core (rerender h) = core h ∧ address (rerender h) = address h.
Proof. by rewrite rerender_set_memo. Qed.

Lemma useMemo_core f h : core (useMemo f h) = core h ∧ address (useMemo f h) = address h.
Proof. by rewrite useMemo_set_memo. Qed.

Lemma run_cleanup_core h :
  core (run_cleanup h) = core h ∧ address (run_cleanup h) = address h.
Proof. unfold run_cleanup. by destruct (cleanup h). Qed.

Lemma effect_core now h :
  truthy (address h) = false →
  core (poll_effect now h) = core h ∧ address (poll_effect now h) = address h.
Proof.
  intros Ha. unfold poll_effect. destruct (poll h); simpl; [|done].
  by rewrite (start_falsy _ now h Ha).
Qed.

(** A hook that does not poll never calls [getBalance] by itself. *)
Lemma effect_no_poll now h : poll h = false → poll_effect now h = h.
Proof. intros E. unfold poll_effect. by rewrite E. Qed.

Lemma mount_no_poll a now h : core (mount a false now h) = core h.
Proof.
  unfold mount. rewrite ?useEffect_spec. destruct (rerender_core (poll_effect now (useMemo format
    (set_props a false (set_phase Mounted h))))) as [-> _].
  rewrite effect_no_poll by (by rewrite useMemo_set_memo).
  by destruct (useMemo_core format (set_props a false (set_phase Mounted h))) as [-> _].
Qed.

Lemma render_no_poll a now h : core (render a false now h) = core h.
Proof.
  unfold render. rewrite ?useEffect_spec, ?useEffect_cleanup_spec.
  destruct (useMemo_core format (set_props a false h)) as [E _].
  destruct (deps_changed a false h); [|done].
  destruct (rerender_core (poll_effect now (run_cleanup (useMemo format
    (set_props a false h))))) as [-> _].
  rewrite effect_no_poll.
  - by destruct (run_cleanup_core (useMemo format (set_props a false h))) as [-> _].
  - pose proof (props_run_cleanup (useMemo format (set_props a false h))) as Hp.
    rewrite props_useMemo in Hp. by injection Hp.
Qed.

Lemma unmount_core h : core (unmount h) = core h.
Proof. unfold unmount. rewrite ?useEffect_cleanup_spec. by destruct (run_cleanup_core h) as [<- _]. Qed.

Lemma idle_core h h' :
  core h' = core h → address h' = address h → idle h → idle h'.
Proof. unfold core, idle. intros [= -> -> ->] ->. done. Qed.

Lemma idle_step c ev c' :
  inv c → idle (hk c) → quiet ev → step c ev c' → idle (hk c').
Proof.
  intros Hi Hidle Hq Hs. pose proof Hidle as (Ha & Hb & Hl & Hin).
  destruct Hs; simpl in *.
  - unfold mount. rewrite ?useEffect_spec. set (h0 := useMemo _ _).
    assert (core h0 = core h ∧ address h0 = a) as [E1 E2]
      by (unfold h0; by rewrite useMemo_set_memo).
    destruct (rerender_core (poll_effect now h0)) as [E3 E4].
    destruct (effect_core now h0) as [E5 E6]; [by rewrite E2|].
    unfold idle, core in *. simplify_eq. rewrite E4, E6, E2. split_and!; congruence.
  - unfold render. rewrite ?useEffect_spec, ?useEffect_cleanup_spec. set (h0 := useMemo _ _).
    assert (core h0 = core h ∧ address h0 = a) as [E1 E2]
      by (unfold h0; by rewrite useMemo_set_memo).
    assert (idle h0) as Hidle0.
    { unfold idle, core in *. simplify_eq. rewrite E2. split_and!; congruence. }
    destruct (deps_changed a p h); [|done].
    destruct (rerender_core (poll_effect now (run_cleanup h0))) as [E3 E4].
    destruct (run_cleanup_core h0) as [E7 E8].
    destruct (effect_core now (run_cleanup h0)) as [E5 E6]; [by rewrite E8, E2|].
    eapply idle_core; [..|exact Hidle0]; congruence.
  - unfold unmount. rewrite useEffect_cleanup_spec.
    destruct (run_cleanup_core h) as [E7 E8].
    eapply (idle_core h); [..|done]; done.
  - unfold tick. rewrite H.
    destruct (inv_timer _ id t Hi H) as (_ & _ & _ & Ec & _). simpl in Ec.
    rewrite Ec, start_falsy by done.
    destruct (rerender_core (reschedule id h)) as [E3 E4].
    eapply (idle_core h); [..|done]; [rewrite E3|rewrite E4];
      unfold reschedule; by rewrite H.
  - unfold refresh. rewrite start_falsy by done.
    destruct (rerender_core h) as [E3 E4]. by eapply (idle_core h).
  - by rewrite Hin, lookup_empty in H.
  - by rewrite Hin, lookup_empty in H.
  - done.
Qed.

(** With no address since the mount, no request was ever sent and the
    balance is still undefined. *)
Lemma idle_steps now evs c :
  steps (initial now) evs c → Forall quiet evs → idle (hk c).
Proof.
  assert (∀ c0 l c1, steps c0 l c1 → inv c0 → idle (hk c0) →
            Forall quiet l → idle (hk c1)) as Hgen.
  { intros c0 l c1 Hs. induction Hs as [|c0 ev c1 l c2 Hs _ IH]; [done|].
    intros Hi Hidle [Hq Hqs]%Forall_cons.
    apply IH; [by eapply inv_step|by eapply idle_step|done]. }
  intros Hs. apply (Hgen _ _ _ Hs); [apply inv_initial|done].
Qed.

(** *** Events that do not render *)

(** The events the environment fires between two renders: timers, time,
    answers, and calls of the [getBalance] the hook returned. *)
Definition external (ev : event ops) : Prop :=
  match ev with
  | Mount _ _ | Render _ _ | Unmount => False
  | _ => True
  end.

(** Of these only a tick touches the timers. *)
Lemma timers_step c ev c' :
  step c ev c' →
  match ev with
  | Refresh | Resolve _ _ | Reject _ _ | Elapse _ => timers (hk c') = timers (hk c)
  | _ => True
  end.
Proof.
  intros []; cbn [hk]; try done.
  - apply refresh_timers.
  - rewrite (resolve_eq rid a) by done. cbn [timers set_memo].
    by destruct (shell_inv _ _ (fulfilled_shell r (settled rid h))) as (_&_&_&_&_&->&_).
  - rewrite (reject_eq rid a) by done. cbn [timers set_memo].
    by destruct (shell_inv _ _ (rejected_shell e (settled rid h))) as (_&_&_&_&_&->&_).
Qed.

(** Time cannot pass a timer that is due. *)
Lemma clock_before_due c id t :
  inv c → timers (hk c) !! id = Some t → clock c ≤ due t.
Proof. intros Hi Hid. by destruct (inv_timer c id t Hi Hid) as (_&_&_&_&?&_). Qed.

(** *** What a hook writes to the log *)

(** The events in which the component passes an address of kind [A]. *)
Definition passes (A : option string → Prop) (ev : event ops) : Prop :=
  match ev with
  | Mount a _ | Render a _ => A a
  | _ => True
  end.

Lemma address_step A c ev c' :
  passes A ev → step c ev c' → A (address (hk c)) → A (address (hk c')).
Proof.
  intros Hev Hs HA. pose proof (props_step _ _ _ Hs) as Hp.
  assert (∀ (h : hook) x, props h = x → address h = x.1.2) as Haddr by (by intros h x <-).
  destruct Hs; cbn [hk passes] in *;
    first [by rewrite (Haddr _ _ Hp)
          |by rewrite (Haddr _ _ (props_mount _ _ _ _))
          |by rewrite (Haddr _ _ (props_render _ _ _ _))
          |by rewrite (Haddr _ _ (props_unmount _))].
Qed.

(** The handlers append to the log only through the three operations of
    the interface, and call [getBalance] only on the address of the hook
    or of a timer: a property of the log that these calls preserve is
    preserved by every step. *)
Lemma log_step_at (A : option string → Prop) (P : list log_entry → Prop) c ev c' :
  (∀ a now h, A a → P (log h) → P (log (start a now h))) →
  (∀ r h, P (log h) → P (log (fulfilled r h))) →
  (∀ e h, P (log h) → P (log (rejected e h))) →
  A (address (hk c)) → map_Forall (λ _ t, A (captured t)) (timers (hk c)) →
  passes A ev → step c ev c' → P (log (hk c)) → P (log (hk c')).
Proof.
  intros Hs Hf Hr HA Ht Hev Hst HP. destruct Hst; cbn [hk passes] in *.
  - unfold mount. rewrite ?useEffect_spec. rewrite rerender_set_memo. cbn [log set_memo].
    unfold poll_effect. destruct (poll _); cbn [negb]; [|by rewrite useMemo_set_memo].
    cbn [log set_cleanup setInterval set_timers].
    apply Hs; by rewrite useMemo_set_memo.
  - unfold render. rewrite ?useEffect_spec, ?useEffect_cleanup_spec.
    destruct (deps_changed a p h); [|by rewrite useMemo_set_memo].
    rewrite rerender_set_memo. cbn [log set_memo].
    assert (P (log (run_cleanup (useMemo format (set_props a p h))))
            ∧ address (run_cleanup (useMemo format (set_props a p h))) = a) as [HP' Ea].
    { unfold run_cleanup. rewrite useMemo_set_memo. by destruct (cleanup _). }
    unfold poll_effect. destruct (poll _); cbn [negb]; [|done].
    cbn [log set_cleanup setInterval set_timers]. apply Hs; [by rewrite Ea|done].
  - unfold unmount. rewrite ?useEffect_cleanup_spec. unfold run_cleanup. by destruct (cleanup h).
  - rewrite (tick_eq id t) by done. cbn [log set_memo]. apply Hs; [by apply (Ht id)|].
    by destruct (reschedule_frame id h) as (_ & _ & _ & -> & _).
  - rewrite refresh_eq. cbn [log set_memo]. by apply Hs.
  - rewrite (resolve_eq rid a) by done. cbn [log set_memo]. by apply Hf.
  - rewrite (reject_eq rid a) by done. cbn [log set_memo]. by apply Hr.
  - done.
Qed.

Lemma log_step (P : list log_entry → Prop) c ev c' :
  (∀ a now h, P (log h) → P (log (start a now h))) →
  (∀ r h, P (log h) → P (log (fulfilled r h))) →
  (∀ e h, P (log h) → P (log (rejected e h))) →
  step c ev c' → P (log (hk c)) → P (log (hk c')).
Proof.
  intros Hs Hf Hr. apply (log_step_at (λ _, True)); [|done..| |by destruct ev].
  - intros a now h _. apply Hs.
  - by intros id t _.
Qed.

Lemma log_steps (P : list log_entry → Prop) c evs c' :
  (∀ a now h, P (log h) → P (log (start a now h))) →
  (∀ r h, P (log h) → P (log (fulfilled r h))) →
  (∀ e h, P (log h) → P (log (rejected e h))) →
  steps c evs c' → P (log (hk c)) → P (log (hk c')).
Proof.
  intros Hs Hf Hr Hst. induction Hst as [|c ev c1 evs c2 H1 _ IH]; [done|].
  intros HP. apply IH. by apply (log_step P c ev c1).
Qed.

(** Along a run in which every address passed is of kind [A], so is
    every address [getBalance] is called on. *)
Lemma log_steps_at (A : option string → Prop) (P : list log_entry → Prop) c evs c' :
  (∀ a now h, A a → P (log h) → P (log (start a now h))) →
  (∀ r h, P (log h) → P (log (fulfilled r h))) →
  (∀ e h, P (log h) → P (log (rejected e h))) →
  steps c evs c' → inv c → A (address (hk c)) → Forall (passes A) evs →
  P (log (hk c)) → P (log (hk c')).
Proof.
  intros Hs Hf Hr Hst. induction Hst as [|c ev c1 evs c2 H1 _ IH]; [done|].
  intros Hi HA [Hev Hevs]%Forall_cons HP.
  apply IH; [by eapply inv_step|by eapply address_step|done|].
  apply (log_step_at A P c ev c1); try done.
  intros id t Hid. by destruct (inv_timer _ id t Hi Hid) as (_ & _ & _ & -> & _).
Qed.

End theory.
