(* ===== verification/EvmBalance.v ===== *)
(** * EvmBalance: the hook [useEvmBalance]

    [SignedInScreen.tsx], lines 60-88:

<<
    const [balance, setBalance] = useState<bigint | undefined>(undefined);
    const formattedBalance = useMemo(() => {
      if (balance === undefined) return undefined;
      return formatEther(balance);
    }, [balance]);
    const getBalance = useCallback(async () => {
      if (!address) return;
      const balance = await client.getBalance({ address });
      setBalance(balance);
    }, [address, client]);
    useEffect(() => {
      if (!poll) { return; }
      getBalance();
      const interval = setInterval(getBalance, 500);
      return () => clearInterval(interval);
    }, [getBalance, poll]);
    return { balance, formattedBalance, getBalance };
>>

    Each piece is a definition of the module [useEvmBalance]; together
    they are an instance of the interface of [Poller], whose life cycle
    and invariant then apply to the hook. *)

From stdpp Require Import gmap.
From S2P Require Import Prelude JsString Ether React Poller.

Module useEvmBalance.

(** ** The hook's code *)

(** The function under [useMemo] (lines 67-70). *)
Definition formattedBalance (balance : option Z) : option jsstring :=
  match balance with
  | None => None
  | Some b => Some (formatEther b)
  end.

(** [getBalance] up to its [await] (lines 72-74): return when the address
    is missing, else send the request. *)
Definition getBalance (address : option string) (now : Z) (h : hook) : hook :=
  if negb (truthy address) then h
  else
    match address with
    | Some a => request a now h
    | None => h
    end.

(** The rest of [getBalance] when the promise resolves (line 75). *)
Definition getBalance_resolved (balance : Z) (h : hook) : hook :=
  setBalance balance h.

(** There is no [catch]: a rejection of [client.getBalance] rejects the
    promise [getBalance] returned, which no caller handles. *)
Definition getBalance_rejected (e : js_error) (h : hook) : hook :=
  unhandled_rejection e h.

(** The body of the effect (lines 78-85). *)
Definition effect (now : Z) (h : hook) : hook :=
  if negb (poll h) then h
  else
    let callback := address h in
    let h := getBalance callback now h in
    let '(interval, h) := setInterval callback 500 now h in
    set_cleanup (Some interval) h.

(** The function the effect returns (line 84). *)
Definition effect_cleanup (h : hook) : hook :=
  match cleanup h with
  | Some interval => set_cleanup None (clearInterval interval h)
  | None => h
  end.

(** The hook as an instance of the interface. *)
#[export] Instance ops : PollerOps := {|
  response := Z;
  start := getBalance;
  fulfilled := getBalance_resolved;
  rejected := getBalance_rejected;
  format := formattedBalance;
  useEffect := effect;
  useEffect_cleanup := effect_cleanup;
|}.

(** What the hook returns (line 87): [balance] and [formattedBalance];
    the third component, [getBalance], is the event [Refresh]. *)
Definition useEvmBalance (h : hook) : option Z * option jsstring :=
  (balance h, memo_value h).

(** ** The hook satisfies the interface *)

Lemma useEvmBalance_returned h : useEvmBalance h = returned h.
Proof. reflexivity. Qed.

Lemma getBalance_falsy a now h : truthy a = false → getBalance a now h = h.
Proof. intros E. unfold getBalance. by rewrite E. Qed.

Lemma getBalance_truthy a now h :
  truthy (Some a) = true → getBalance (Some a) now h = request a now h.
Proof. intros E. unfold getBalance. by rewrite E. Qed.

(** [getBalance] either does nothing or sends one request. *)
Lemma getBalance_cases a now h :
  getBalance a now h = h ∨ ∃ s, a = Some s ∧ getBalance a now h = request s now h.
Proof.
  unfold getBalance. destruct (truthy a); simpl; [|by left].
  destruct a; [right; eauto|by left].
Qed.

#[export] Instance laws : PollerLaws ops.
Proof.
  split; simpl.
  - intros a now h. by destruct (getBalance_cases a now h) as [->|(s & _ & ->)].
  - intros r h. unfold getBalance_resolved, setBalance. by case_decide.
  - done.
  - apply getBalance_falsy.
  - intros a now h. destruct (getBalance_cases a now h) as [->|(s & _ & ->)];
      [by left|right; by exists s].
  - intros r h. unfold getBalance_resolved, setBalance. by case_decide.
  - done.
  - intros a now h _. by destruct (getBalance_cases a now h) as [->|(s & _ & ->)].
  - intros r h Hp. unfold getBalance_resolved. by rewrite setBalance_not_mounted.
  - done.
  - done.
  - done.
Qed.

(** ** The formatted balance *)

(** C1: for every balance the hook holds, [formattedBalance] is a decimal
    string that reads back as [m / 10^k] with at most 18 fraction digits
    and [m / 10^k = balance / 10^18] exactly. *)
Theorem formattedBalance_exact (wei : Z) :
  ∃ s m k, formattedBalance (Some wei) = Some s
         ∧ read_decimal s = Some (m, k)
         ∧ (k ≤ 18)%nat ∧ m * 10 ^ Z.of_nat (18 - k) = wei.
Proof.
  destruct (read_formatUnits wei 18) as (m & k & Hr & Hk & Hm & _).
  exists (formatEther wei), m, k. by repeat split.
Qed.

(** C38: the formatted balance is canonical: it has no fraction part or
    its last fraction digit is not zero. *)
Theorem formattedBalance_canonical (wei : Z) :
  ∃ s m k, formattedBalance (Some wei) = Some s
         ∧ read_decimal s = Some (m, k)
         ∧ (k = 0%nat ∨ m mod 10 ≠ 0).
Proof.
  destruct (read_formatUnits wei 18) as (m & k & Hr & _ & _ & Hl).
  exists (formatEther wei), m, k. by repeat split.
Qed.

(** Values from the library's documentation and the boundary cases. *)
Example formattedBalance_examples :
  formattedBalance (Some 1500000000000000000) = Some (str "1.5")
  ∧ formattedBalance (Some 1000000000000000000) = Some (str "1")
  ∧ formattedBalance (Some 0) = Some (str "0")
  ∧ formattedBalance (Some 1) = Some (str "0.000000000000000001")
  ∧ formattedBalance (Some 123456789012345678901) = Some (str "123.456789012345678901")
  ∧ formattedBalance (Some (-1500000000000000000)) = Some (str "-1.5")
  ∧ formattedBalance None = None.
Proof. by vm_compute. Qed.

(** ** Runs used as witnesses *)

Definition alice : string := "0x1111111111111111111111111111111111111111".
Definition bob : string := "0x2222222222222222222222222222222222222222".

(** The configuration after the events [evs], from time 0. *)
Definition after (evs : list (event ops)) : config :=
  default (initial 0) (run evs (initial 0)).

(** Mount with polling, one period, a tick, the first answer, unmount. *)
Definition session : list (event ops) :=
  [Mount (Some alice) true; Elapse 500; Tick 0; Resolve 0 7; Unmount].

(** Mounted and polling, with two requests pending. *)
Definition polling : list (event ops) :=
  [Mount (Some alice) true; Elapse 500; Tick 0].

(** Mounted with no address. *)
Definition signed_out : list (event ops) :=
  [Mount None true; Elapse 500; Tick 0; Refresh].

Lemma after_reachable evs c : run evs (initial 0) = Some c → reachable (after evs).
Proof. intros E. unfold after. rewrite E. by eapply reachable_run. Qed.

(** ** Timers *)

(** C4: no orphaned timer: in every reachable state of the hook, if it
    is not mounted or does not poll, no interval timer exists. *)
Theorem evm_no_orphan_timer (c : config) :
  reachable (ops := ops) c →
  phase_of (hk c) ≠ Mounted ∨ poll (hk c) = false →
  timers (hk c) = ∅.
Proof. intros Hr. apply inv_no_timer. by apply inv_reachable. Qed.

Lemma evm_no_orphan_timer_witness : timers (hk (after session)) = ∅.
Proof.
  apply evm_no_orphan_timer.
  - eapply after_reachable. by vm_compute.
  - left. by vm_compute.
Defined.

(** C3: a mounted polling hook has exactly one interval timer; its
    period is 500, its callback is the [getBalance] of the current
    address, and it is due within the next 500 ms. *)
Theorem evm_one_timer (c : config) :
  reachable (ops := ops) c → phase_of (hk c) = Mounted → poll (hk c) = true →
  ∃ id d, cleanup (hk c) = Some id
        ∧ timers (hk c) = {[ id := Timer d 500 (address (hk c)) ]}
        ∧ clock c ≤ d ≤ clock c + 500.
Proof. intros Hr. apply inv_one_timer. by apply inv_reachable. Qed.

Lemma evm_one_timer_witness :
  ∃ id d, cleanup (hk (after polling)) = Some id
        ∧ timers (hk (after polling))
          = {[ id := Timer d 500 (address (hk (after polling))) ]}
        ∧ clock (after polling) ≤ d ≤ clock (after polling) + 500.
Proof.
  apply evm_one_timer.
  - eapply after_reachable. by vm_compute.
  - by vm_compute.
  - by vm_compute.
Defined.

(** C24: the timer fires every 500 ms: a tick leaves the interval in the
    table, due exactly 500 ms after the tick. *)
Theorem evm_tick_period (c c' : config) (id : nat) :
  reachable (ops := ops) c → step (ops := ops) c (Tick id) c' →
  timers (hk c') = {[ id := Timer (clock c + 500) 500 (address (hk c)) ]}
  ∧ clock c' = clock c.
Proof.
  intros Hr Hs. pose proof (inv_reachable _ Hr) as Hi.
  inversion Hs as [| | |now h id' t Hid Hdue| | | |]; subst. simpl.
  split; [|done]. rewrite (tick_timers _ _ _ _ Hid).
  destruct Hi as [Ht _ _ _ _ _]. simpl in Ht. unfold timers_ok in Ht.
  destruct (cleanup h); [|by rewrite Ht, lookup_empty in Hid].
  destruct Ht as (d & Hd & _). rewrite Hd in Hid |- *.
  apply lookup_singleton_Some in Hid as [-> <-]. simpl.
  by rewrite insert_singleton_eq.
Qed.

Lemma evm_tick_period_witness :
  timers (hk (after polling))
  = {[ 0%nat := Timer (clock (after [Mount (Some alice) true; Elapse 500]) + 500)
                      500 (address (hk (after [Mount (Some alice) true; Elapse 500]))) ]}
  ∧ clock (after polling) = clock (after [Mount (Some alice) true; Elapse 500]).
Proof.
  apply evm_tick_period.
  - eapply after_reachable. by vm_compute.
  - apply step_exec. by vm_compute.
Defined.

(** ** Requests *)

(** C22: mounting with polling and an address sends the first request at
    once, at the time of the mount, and schedules the next one 500 ms
    later. *)
Theorem evm_mount_fetches_at_once (a : string) (now : Z) :
  truthy (Some a) = true →
  ∃ c, exec (ops := ops) (Mount (Some a) true) (initial now) = Some c
     ∧ fetches (hk c) = [(0%nat, a, now)]
     ∧ inflight (hk c) = {[ 0%nat := a ]}
     ∧ timers (hk c) = {[ 0%nat := Timer (now + 500) 500 (Some a) ]}.
Proof.
  intros Ha. eexists. split; [reflexivity|].
  unfold mount. rewrite rerender_set_memo. simpl.
  unfold effect, useMemo. simpl.
  rewrite (getBalance_truthy a now _ Ha). simpl.
  by rewrite !insert_empty.
Qed.

Lemma evm_mount_fetches_at_once_witness :
  ∃ c, exec (ops := ops) (Mount (Some alice) true) (initial 0) = Some c
     ∧ fetches (hk c) = [(0%nat, alice, 0)]
     ∧ inflight (hk c) = {[ 0%nat := alice ]}
     ∧ timers (hk c) = {[ 0%nat := Timer (0 + 500) 500 (Some alice) ]}.
Proof. apply evm_mount_fetches_at_once. by vm_compute. Defined.

(** C25: as long as the component passes no address, no request is sent
    and the balance stays undefined, whatever timers fire and whoever
    calls [getBalance]. *)
Theorem evm_no_address_no_fetch (now : Z) (evs : list (event ops)) (c : config) :
  steps (ops := ops) (initial now) evs c → Forall quiet evs →
  balance (hk c) = None ∧ fetches (hk c) = [] ∧ inflight (hk c) = ∅.
Proof.
  intros Hs Hq. destruct (idle_steps now evs c Hs Hq) as (_ & Hb & Hl & Hi).
  unfold fetches. by rewrite Hl.
Qed.

Lemma evm_no_address_no_fetch_witness :
  balance (hk (after signed_out)) = None
  ∧ fetches (hk (after signed_out)) = []
  ∧ inflight (hk (after signed_out)) = ∅.
Proof.
  apply (evm_no_address_no_fetch 0 signed_out).
  - apply steps_run. by vm_compute.
  - by repeat constructor.
Defined.

(** The state right after a mount without an address. *)
Lemma mount_no_address now :
  mount None true now fresh
  = Hook Mounted None true None (Some (None, None)) (Some 0%nat)
         {[ 0%nat := Timer (now + 500) 500 None ]} 1 ∅ 0 [].
Proof. reflexivity. Qed.

(** C26: with no address and [poll = true] the interval timer is created
    all the same and keeps firing; only the request is skipped. *)
Theorem evm_null_address_timer_runs (now : Z) :
  ∃ c c', exec (ops := ops) (Mount None true) (initial now) = Some c
        ∧ timers (hk c) = {[ 0%nat := Timer (now + 500) 500 None ]}
        ∧ run [Elapse 500; Tick 0] c = Some c'
        ∧ timers (hk c') = {[ 0%nat := Timer (now + 500 + 500) 500 None ]}
        ∧ fetches (hk c') = [].
Proof.
  exists (Config now (mount None true now fresh)).
  exists (Config (now + 500) (tick 0 (now + 500) (mount None true now fresh))).
  split; [reflexivity|]. cbn [hk]. rewrite mount_no_address.
  split_and!; [done| |done..].
  apply steps_run.
  eapply steps_cons;
    [apply step_elapse; [lia|by apply map_Forall_singleton]|].
  eapply steps_cons; [|apply steps_nil].
  eapply step_tick; [apply lookup_singleton_eq|done].
Qed.

(** A call of [getBalance] with an address leaves everything but the
    request table and the log as it was. *)
Lemma getBalance_request a now h :
  address h = Some a → truthy (Some a) = true →
  start (address h) now h = request a now h.
Proof. intros -> Ha. by apply getBalance_truthy. Qed.

(** A tick with an address sends one request, at the time of the tick. *)
Lemma tick_request (c c' : config) (id : nat) (a : string) :
  inv (ops := ops) c → address (hk c) = Some a → truthy (Some a) = true →
  step (ops := ops) c (Tick id) c' →
  fetches (hk c') = fetches (hk c) ++ [(next_request (hk c), a, clock c)]
  ∧ inflight (hk c') = <[next_request (hk c) := a]> (inflight (hk c)).
Proof.
  intros Hr Ha Ht Hs.
  inversion Hs as [| | |now h id' t Hid Hdue| | | |]; subst.
  destruct (inv_timer _ id t Hr Hid) as (_ & _ & _ & Hc & _).
  destruct (reschedule_frame id h) as (Ea & _ & _ & El & Ei & En).
  cbn [hk clock] in *. rewrite (tick_eq id t), Hc, Ha by done.
  cbn [start ops]. rewrite (getBalance_truthy a _ _ Ht).
  unfold fetches in *. cbn [set_memo request add_log set_inflight log inflight].
  by rewrite omap_app, El, Ei, En.
Qed.

(** C23: each tick of the interval sends one request for the current
    address, at the time of the tick. *)
Theorem evm_tick_fetches (c c' : config) (id : nat) (a : string) :
  reachable (ops := ops) c → address (hk c) = Some a → truthy (Some a) = true →
  step (ops := ops) c (Tick id) c' →
  fetches (hk c') = fetches (hk c) ++ [(next_request (hk c), a, clock c)]
  ∧ inflight (hk c') = <[next_request (hk c) := a]> (inflight (hk c)).
Proof. intros Hr%inv_reachable. by apply tick_request. Qed.

Lemma evm_tick_fetches_witness :
  fetches (hk (after polling))
  = fetches (hk (after [Mount (Some alice) true; Elapse 500])) ++ [(1%nat, alice, 500)]
  ∧ inflight (hk (after polling))
    = <[1%nat := alice]> (inflight (hk (after [Mount (Some alice) true; Elapse 500]))).
Proof.
  apply (evm_tick_fetches (after [Mount (Some alice) true; Elapse 500])
           (after polling) 0 alice).
  - eapply after_reachable. by vm_compute.
  - by vm_compute.
  - by vm_compute.
  - apply step_exec. by vm_compute.
Defined.

(** The requests sent so far are never taken back. *)
Lemma fetches_steps (c c' : config) (evs : list (event ops)) :
  steps c evs c' → ∃ l, fetches (hk c') = fetches (hk c) ++ l.
Proof.
  intros Hs. unfold fetches.
  apply (log_steps (λ lg, ∃ l, omap _ lg = omap _ (log (hk c)) ++ l) _ _ _)
    with (4 := Hs); [..|by exists []; rewrite app_nil_r].
  - intros a now h [l Hl]. cbn [start ops].
    destruct (getBalance_cases a now h) as [->|(s & _ & ->)]; [by exists l|].
    pose proof (fetches_request s now h) as E. unfold fetches in E.
    rewrite E, Hl, <- app_assoc. eauto.
  - intros r h [l Hl]. exists l. cbn [fulfilled ops].
    unfold getBalance_resolved, setBalance. by case_decide.
  - intros e h [l Hl]. cbn [rejected ops].
    unfold getBalance_rejected, unhandled_rejection. cbn [log add_log].
    rewrite omap_app, Hl. cbn. rewrite app_nil_r. eauto.
Qed.

(** Between two renders, either the clock has not passed the time [d]
    at which the interval is due, or the tick at [d] sent a request. *)
Lemma poll_progress (c c' : config) (evs : list (event ops)) (a : string) :
  steps c evs c' → inv (ops := ops) c →
  address (hk c) = Some a → truthy (Some a) = true → Forall external evs →
  ∀ id d, timers (hk c) = {[ id := Timer d 500 (Some a) ]} →
    clock c' ≤ d
    ∨ ∃ l rid, fetches (hk c') = fetches (hk c) ++ l ∧ (rid, a, d) ∈ l.
Proof.
  induction 1 as [c|c ev c1 evs c2 Hs Hss IH]; intros Hi Ha Ht Hev id d Htm.
  { left. apply (clock_before_due c id (Timer d 500 (Some a)) Hi).
    rewrite Htm. apply lookup_singleton_eq. }
  apply Forall_cons in Hev as [He Hev].
  pose proof (inv_step _ _ _ Hi Hs) as Hi1.
  pose proof (props_step _ _ _ Hs) as Hpr. pose proof (timers_step _ _ _ Hs) as Etm.
  destruct (fetches_steps c1 c2 evs Hss) as [l2 E2].
  destruct ev as [| | |id0| | | |]; try done; unfold props in Hpr;
    try (injection Hpr as _ Ea _; rewrite Ha in Ea; rewrite Htm in Etm;
         destruct (fetches_steps c c1 [_] (steps_cons _ _ _ _ _ Hs (steps_nil _))) as [l1 E1];
         destruct (IH Hi1 Ea Ht Hev id d Etm) as [?|(l3 & rid3 & El & Hin)];
           [by left|right];
         exists (l1 ++ l3), rid3; rewrite El, E1, <- app_assoc; split; [done|set_solver]).
  right. destruct (tick_request c c1 id0 a Hi Ha Ht Hs) as [E1 _].
  inversion Hs as [| | |now h id' t Hid Hdue| | | |]; subst. cbn [hk clock] in *.
  rewrite Htm in Hid. apply lookup_singleton_Some in Hid as [_ <-]. cbn [due] in *.
  exists ([(next_request h, a, d)] ++ l2), (next_request h).
  rewrite E2, E1, <- app_assoc. split; [done|set_solver].
Qed.

(** C5: the hook polls at least every 500 ms: from every reachable
    state of a mounted, polling hook with an address, if the component is
    not rendered again and more than 500 ms pass, a request for the
    address was sent in the meantime, no later than 500 ms after the
    start. *)
Theorem evm_polls_every_500ms (c c' : config) (evs : list (event ops)) (a : string) :
  reachable (ops := ops) c → phase_of (hk c) = Mounted → poll (hk c) = true →
  address (hk c) = Some a → truthy (Some a) = true →
  Forall external evs → steps (ops := ops) c evs c' → clock c + 500 < clock c' →
  ∃ l rid t, fetches (hk c') = fetches (hk c) ++ l
           ∧ (rid, a, t) ∈ l ∧ clock c ≤ t ≤ clock c + 500.
Proof.
  intros Hi%inv_reachable Hp Hpo Ha Ht Hev Hs Hc.
  destruct (inv_one_timer c Hi Hp Hpo) as (id & d & _ & Htm & Hd). rewrite Ha in Htm.
  destruct (poll_progress c c' evs a Hs Hi Ha Ht Hev id d Htm)
    as [?|(l & rid & El & Hin)]; [lia|].
  by exists l, rid, d.
Qed.

Lemma evm_polls_every_500ms_witness :
  ∃ l rid t,
    fetches (hk (after (polling ++ [@Resolve ops 0 7; Elapse 500; Tick 0; Elapse 1])))
    = fetches (hk (after polling)) ++ l
    ∧ (rid, alice, t) ∈ l
    ∧ clock (after polling) ≤ t ≤ clock (after polling) + 500.
Proof.
  apply (evm_polls_every_500ms (after polling) _
           [@Resolve ops 0 7; Elapse 500; Tick 0; Elapse 1] alice).
  - eapply after_reachable. by vm_compute.
  - by vm_compute.
  - by vm_compute.
  - by vm_compute.
  - by vm_compute.
  - by repeat constructor.
  - apply steps_run. by vm_compute.
  - by vm_compute.
Defined.

(** C27: calling the [getBalance] the hook returned sends one request
    for the current address at once and leaves the interval alone. *)
Theorem evm_refresh (c : config) (a : string) :
  phase_of (hk c) = Mounted → address (hk c) = Some a → truthy (Some a) = true →
  ∃ c', exec (ops := ops) Refresh c = Some c'
      ∧ fetches (hk c') = fetches (hk c) ++ [(next_request (hk c), a, clock c)]
      ∧ timers (hk c') = timers (hk c)
      ∧ balance (hk c') = balance (hk c).
Proof.
  intros Hp Ha Ht. eexists. unfold exec. rewrite decide_True by done.
  split; [done|]. cbn [hk]. rewrite refresh_eq, (getBalance_request a) by done.
  split_and!; [|done..]. apply fetches_request.
Qed.

Lemma evm_refresh_witness :
  ∃ c', exec Refresh (after polling) = Some c'
      ∧ fetches (hk c')
        = fetches (hk (after polling))
          ++ [(next_request (hk (after polling)), alice, clock (after polling))]
      ∧ timers (hk c') = timers (hk (after polling))
      ∧ balance (hk c') = balance (hk (after polling)).
Proof. apply evm_refresh; by vm_compute. Defined.

(** ** Settled promises *)

(** The state after the promise [rid] resolved to [v] on a mounted
    hook. *)
Lemma resolve_mounted now h rid a v :
  inv (Config now h) → phase_of h = Mounted → inflight h !! rid = Some a →
  useEvmBalance (resolve rid v h) = (Some v, Some (formatEther v))
  ∧ inflight (resolve rid v h) = delete rid (inflight h)
  ∧ address (resolve rid v h) = address h.
Proof.
  intros Hi Hp Hid.
  assert (inv (Config now (resolve rid v h))) as Hi'
    by (eapply inv_step; [done|by econstructor]).
  assert (balance (resolve rid v h) = Some v ∧ phase_of (resolve rid v h) = Mounted
          ∧ inflight (resolve rid v h) = delete rid (inflight h)
          ∧ address (resolve rid v h) = address h) as (Eb & Ep & Ei & Ea).
  { rewrite (resolve_eq rid a) by done. cbn [fulfilled ops].
    unfold getBalance_resolved. by rewrite setBalance_mounted. }
  split_and!; [|done..]. unfold useEvmBalance.
  pose proof (inv_formatted _ Hi') as Hf. cbn [hk] in Hf.
  rewrite Hf by congruence. by rewrite Eb.
Qed.

(** C21: when the RPC promise resolves on a mounted hook, the hook
    returns the value as [balance] and [formatEther] of it as
    [formattedBalance], whatever it held before. *)
Theorem evm_resolve_sets_balance (c c' : config) (rid : nat) (v : Z) :
  reachable (ops := ops) c → phase_of (hk c) = Mounted → step (ops := ops) c (Resolve rid v) c' →
  useEvmBalance (hk c') = (Some v, Some (formatEther v))
  ∧ inflight (hk c') = delete rid (inflight (hk c)).
Proof.
  intros Hr%inv_reachable Hp Hs.
  inversion Hs as [| | | | |now h rid' a r Hid| |]; subst.
  by destruct (resolve_mounted now h rid a v Hr Hp Hid) as (? & ? & _).
Qed.

Lemma evm_resolve_sets_balance_witness :
  useEvmBalance (hk (after (polling ++ [Resolve 0 7])))
  = (Some 7, Some (formatEther 7))
  ∧ inflight (hk (after (polling ++ [Resolve 0 7])))
    = delete 0%nat (inflight (hk (after polling))).
Proof.
  apply evm_resolve_sets_balance.
  - eapply after_reachable. by vm_compute.
  - by vm_compute.
  - apply step_exec. by vm_compute.
Defined.

(** C8: a rejection of the RPC promise is handled nowhere: it surfaces
    as an unhandled rejection, and the hook keeps the balance it had. *)
Theorem evm_reject_unhandled (c c' : config) (rid : nat) (e : js_error) :
  step (ops := ops) c (Reject rid e) c' →
  balance (hk c') = balance (hk c)
  ∧ rejections (hk c') = rejections (hk c) ++ [e]
  ∧ inflight (hk c') = delete rid (inflight (hk c)).
Proof.
  intros Hs. inversion Hs as [| | | | | |now h rid' a e' Hid|]; subst.
  cbn [hk]. rewrite (reject_eq rid a) by done. cbn [rejected ops].
  split_and!; [done| |done].
  apply (rejections_add_log (UnhandledRejection e) (settled rid h)).
Qed.

Lemma evm_reject_unhandled_witness :
  balance (hk (after (polling ++ [Reject 0 RpcError]))) = balance (hk (after polling))
  ∧ rejections (hk (after (polling ++ [Reject 0 RpcError])))
    = rejections (hk (after polling)) ++ [RpcError]
  ∧ inflight (hk (after (polling ++ [Reject 0 RpcError])))
    = delete 0%nat (inflight (hk (after polling))).
Proof. apply evm_reject_unhandled. apply step_exec. by vm_compute. Defined.

(** C9: the balance is not tied to the address it was fetched for: when
    the address changed while a request was pending, the answer for the
    old address becomes the balance returned for the new one. *)
Theorem evm_stale_response (c : config) (rid : nat) (a : string) (v : Z) :
  reachable (ops := ops) c → phase_of (hk c) = Mounted →
  inflight (hk c) !! rid = Some a → address (hk c) ≠ Some a →
  ∃ c', step (ops := ops) c (Resolve rid v) c'
      ∧ address (hk c') = address (hk c)
      ∧ useEvmBalance (hk c') = (Some v, Some (formatEther v)).
Proof.
  intros Hr%inv_reachable Hp Hid Hne. destruct c as [now h]. cbn [hk] in *.
  exists (Config now (@resolve ops rid v h)).
  destruct (resolve_mounted now h rid a v Hr Hp Hid) as (? & _ & ?).
  split; [by econstructor|done].
Qed.

Lemma evm_stale_response_witness :
  ∃ c', step (after [Mount (Some alice) true; Render (Some bob) true]) (Resolve 0 5) c'
      ∧ address (hk c') = Some bob
      ∧ useEvmBalance (hk c') = (Some 5, Some (formatEther 5)).
Proof.
  apply (evm_stale_response (after [Mount (Some alice) true; Render (Some bob) true])
           0 alice 5).
  - eapply after_reachable. by vm_compute.
  - by vm_compute.
  - by vm_compute.
  - by vm_compute.
Defined.

(** ** What the hook returns *)

(** C28: in every reachable state after the first render, the
    [formattedBalance] the hook returns is [formatEther] of the [balance]
    it returns, and undefined iff the balance is. *)
Theorem evm_formatted_consistent (c : config) :
  reachable (ops := ops) c → phase_of (hk c) ≠ Fresh →
  snd (useEvmBalance (hk c)) = formattedBalance (fst (useEvmBalance (hk c))).
Proof. intros Hr%inv_reachable Hp. exact (inv_formatted c Hr Hp). Qed.

Lemma evm_formatted_consistent_witness :
  snd (useEvmBalance (hk (after session)))
  = formattedBalance (fst (useEvmBalance (hk (after session)))).
Proof.
  apply evm_formatted_consistent.
  - eapply after_reachable. by vm_compute.
  - by vm_compute.
Defined.

(** C29: after the unmount nothing the hook started can change what it
    holds: it stays unmounted with the same balance and without timer,
    also when a pending request settles. *)
Theorem evm_unmounted_frozen (c c' : config) (ev : event ops) :
  reachable (ops := ops) c → phase_of (hk c) = Unmounted → step c ev c' →
  phase_of (hk c') = Unmounted ∧ balance (hk c') = balance (hk c)
  ∧ timers (hk c') = ∅.
Proof.
  intros Hr%inv_reachable Hp Hs. destruct c as [now h].
  by apply (unmounted_step now h ev c').
Qed.

Lemma evm_unmounted_frozen_witness :
  phase_of (hk (after (session ++ [Resolve 1 9]))) = Unmounted
  ∧ balance (hk (after (session ++ [Resolve 1 9]))) = balance (hk (after session))
  ∧ timers (hk (after (session ++ [Resolve 1 9]))) = ∅.
Proof.
  apply (evm_unmounted_frozen (after session) _ (@Resolve ops 1 9)).
  - eapply after_reachable. by vm_compute.
  - by vm_compute.
  - apply step_exec. by vm_compute.
Defined.

End useEvmBalance.
