(* ===== verification/SolanaBalance.v ===== *)
(** * SolanaBalance: the hook [useSolanaBalance]

    [SignedInScreen.tsx], lines 90-120:

<<
    const [balance, setBalance] = useState<bigint | undefined>(undefined);
    const formattedBalance = useMemo(() => {
      if (balance === undefined) return undefined;
      return formatSol(Number(balance));
    }, [balance]);
    const getBalance = useCallback(async () => {
      if (!address) return;
      try {
        const lamports = await connection.getBalance(new PublicKey(address));
        setBalance(BigInt(lamports));
      } catch (error) {
        console.error("Error fetching Solana balance:", error);
        setBalance(BigInt(0));
      }
    }, [address, connection]);
    useEffect(() => { ... same as useEvmBalance ... }, [getBalance, poll]);
    return { balance, formattedBalance, getBalance };
>>

    The hook differs from [useEvmBalance] in its [try]/[catch]: three
    things can throw inside the [try] (the [PublicKey] constructor before
    the request is sent, the request itself, [BigInt] of the answer), and
    all three end in the same handler. *)

From stdpp Require Import gmap.
From S2P Require Import Prelude JsString Ether Float64 Rounding Sol PublicKey React Poller.

Module useSolanaBalance.

(** ** The hook's code *)

(** The function under [useMemo] (lines 93-97). *)
Definition formattedBalance (balance : option Z) : option jsstring :=
  match balance with
  | None => None
  | Some b => Some (formatSol (Number b))
  end.

(** The [catch] block (lines 104-107). *)
Definition getBalance_catch (error : js_error) (h : hook) : hook :=
  setBalance 0 (console_error error h).

(** [getBalance] up to its [await] (lines 99-102): return when the
    address is missing; build the key, which may throw into the [catch];
    send the request. *)
Definition getBalance (address : option string) (now : Z) (h : hook) : hook :=
  if negb (truthy address) then h
  else
    match address with
    | Some a =>
        try_catch (_ ← PublicKey a; mret (request a now h))
                  (λ error, getBalance_catch error h)
    | None => h
    end.

(** The rest of the [try] block when the promise resolves (line 103). *)
Definition getBalance_resolved (lamports : number) (h : hook) : hook :=
  try_catch (b ← BigInt lamports; mret (setBalance b h))
            (λ error, getBalance_catch error h).

(** A rejected promise throws at the [await], inside the [try]. *)
Definition getBalance_rejected (error : js_error) (h : hook) : hook :=
  getBalance_catch error h.

(** The body of the effect (lines 110-117). *)
Definition effect (now : Z) (h : hook) : hook :=
  if negb (poll h) then h
  else
    let callback := address h in
    let h := getBalance callback now h in
    let '(interval, h) := setInterval callback 500 now h in
    set_cleanup (Some interval) h.

(** The function the effect returns (line 116). *)
Definition effect_cleanup (h : hook) : hook :=
  match cleanup h with
  | Some interval => set_cleanup None (clearInterval interval h)
  | None => h
  end.

(** The hook as an instance of the interface. *)
#[export] Instance ops : PollerOps := {|
  response := number;
  start := getBalance;
  fulfilled := getBalance_resolved;
  rejected := getBalance_rejected;
  format := formattedBalance;
  useEffect := effect;
  useEffect_cleanup := effect_cleanup;
|}.

(** What the hook returns (line 119). *)
Definition useSolanaBalance (h : hook) : option Z * option jsstring :=
  (balance h, memo_value h).

(** The default of the parameter [poll] (line 90). *)
Definition poll_default : bool := false.

(** ** Runs used as witnesses *)

Definition wallet : string := "So11111111111111111111111111111111111111112".
Definition malformed : string := "0x1111111111111111111111111111111111111111".

(** The configuration after the events [evs], from time 0. *)
Definition after (evs : list (event ops)) : config :=
  default (initial 0) (run evs (initial 0)).

(** Mounted and polling; the first answer was 7 lamports and the second
    request is pending. *)
Definition known : list (event ops) :=
  [Mount (Some wallet) true; Resolve 0 (Number 7); Elapse 500; Tick 0].

(** ** The hook satisfies the interface *)

Lemma useSolanaBalance_returned h : useSolanaBalance h = returned h.
Proof. reflexivity. Qed.

(** The [catch] block writes the balance and the console only. *)
Lemma getBalance_catch_eq e h :
  getBalance_catch e h
  = add_log (ConsoleError e)
      (if decide (phase_of h = Mounted) then set_balance (Some 0) h else h).
Proof.
  unfold getBalance_catch, setBalance, console_error. cbn [phase_of add_log].
  by case_decide.
Qed.

(** [getBalance] does nothing, or sends one request, or runs the [catch]
    block. *)
Lemma sol_getBalance_cases a now h :
  getBalance a now h = h
  ∨ (∃ s key, a = Some s ∧ PublicKey s = Normal key
            ∧ getBalance a now h = request s now h)
  ∨ (∃ s e, a = Some s ∧ PublicKey s = Throw e
          ∧ getBalance a now h = getBalance_catch e h).
Proof.
  unfold getBalance. destruct (truthy a); cbn [negb]; [|by left].
  destruct a as [s|]; [|by left]. right.
  destruct (PublicKey s) as [key|e] eqn:E; cbn; [left|right]; eauto.
Qed.

Lemma getBalance_resolved_cases lamports h :
  (∃ b, BigInt lamports = Normal b ∧ getBalance_resolved lamports h = setBalance b h)
  ∨ (∃ e, BigInt lamports = Throw e
        ∧ getBalance_resolved lamports h = getBalance_catch e h).
Proof.
  unfold getBalance_resolved.
  destruct (BigInt lamports) as [b|e]; cbn; [left|right]; eauto.
Qed.

Lemma sol_getBalance_falsy a now h : truthy a = false → getBalance a now h = h.
Proof. intros E. unfold getBalance. by rewrite E. Qed.

Lemma sol_getBalance_valid a key now h :
  truthy (Some a) = true → PublicKey a = Normal key →
  getBalance (Some a) now h = request a now h.
Proof. intros Ht E. unfold getBalance. by rewrite Ht, E. Qed.

Lemma sol_getBalance_invalid a e now h :
  truthy (Some a) = true → PublicKey a = Throw e →
  getBalance (Some a) now h = getBalance_catch e h.
Proof. intros Ht E. unfold getBalance. by rewrite Ht, E. Qed.

(** Solve a law of the interface for one shape of the state. *)
Ltac law :=
  rewrite ?getBalance_catch_eq; unfold setBalance;
  repeat case_decide; done.

#[export] Instance laws : PollerLaws ops.
Proof.
  split; cbn [start fulfilled rejected useEffect useEffect_cleanup ops].
  - intros a now h.
    destruct (sol_getBalance_cases a now h) as [->|[(?&?&_&_&->)|(?&?&_&_&->)]]; law.
  - intros r h. destruct (getBalance_resolved_cases r h) as [(?&_&->)|(?&_&->)]; law.
  - intros e h. unfold getBalance_rejected. law.
  - apply sol_getBalance_falsy.
  - intros a now h.
    destruct (sol_getBalance_cases a now h) as [->|[(s&?&_&_&->)|(?&?&_&_&->)]];
      [by left|right; by exists s|left; law].
  - intros r h. destruct (getBalance_resolved_cases r h) as [(?&_&->)|(?&_&->)]; law.
  - intros e h. unfold getBalance_rejected. law.
  - intros a now h Hp.
    destruct (sol_getBalance_cases a now h) as [->|[(?&?&_&_&->)|(?&?&_&_&->)]]; law.
  - intros r h Hp.
    destruct (getBalance_resolved_cases r h) as [(?&_&->)|(?&_&->)]; law.
  - intros e h Hp. unfold getBalance_rejected. law.
  - done.
  - done.
Qed.

Lemma sol_after_reachable evs c : run evs (initial 0) = Some c → reachable (after evs).
Proof. intros E. unfold after. rewrite E. by eapply reachable_run. Qed.

(** ** The error policy *)

(** None of the three parts of [getBalance] lets a rejection escape. *)
Lemma rejections_catch e h : rejections (getBalance_catch e h) = rejections h.
Proof.
  rewrite getBalance_catch_eq, rejections_add_log, app_nil_r. by case_decide.
Qed.

Lemma rejections_getBalance a now h : rejections (getBalance a now h) = rejections h.
Proof.
  destruct (sol_getBalance_cases a now h) as [->|[(s&?&_&_&->)|(?&?&_&_&->)]];
    [done| |apply rejections_catch].
  unfold request. by rewrite rejections_add_log, app_nil_r.
Qed.

Lemma rejections_resolved r h : rejections (getBalance_resolved r h) = rejections h.
Proof.
  destruct (getBalance_resolved_cases r h) as [(?&_&->)|(?&_&->)];
    [|apply rejections_catch].
  unfold setBalance. by case_decide.
Qed.

(** C6: no exception ever escapes the Solana hook: along every run the
    list of unhandled rejections stays empty. *)
Theorem sol_no_unhandled_rejection (c : config) :
  reachable (ops := ops) c → rejections (hk c) = [].
Proof.
  intros (now & evs & Hs).
  apply (log_steps (λ l, rejected_in l = []) _ _ _) with (4 := Hs); [..|done].
  - intros a t h Hl. fold (rejections h) in Hl. by rewrite <- (rejections_getBalance a t h) in Hl.
  - intros r h Hl. fold (rejections h) in Hl. by rewrite <- (rejections_resolved r h) in Hl.
  - intros e h Hl. fold (rejections h) in Hl. by rewrite <- (rejections_catch e h) in Hl.
Qed.

Lemma sol_no_unhandled_rejection_witness :
  rejections (hk (after (known ++ [Reject 1 RpcError]))) = [].
Proof.
  apply sol_no_unhandled_rejection. eapply sol_after_reachable. by vm_compute.
Defined.

(** The state after the [catch] block ran on a mounted hook. *)
Lemma catch_mounted e h :
  phase_of h = Mounted →
  balance (getBalance_catch e h) = Some 0
  ∧ log (getBalance_catch e h) = log h ++ [ConsoleError e]
  ∧ phase_of (getBalance_catch e h) = Mounted
  ∧ inflight (getBalance_catch e h) = inflight h.
Proof. intros Hp. rewrite getBalance_catch_eq, decide_True by done. done. Qed.

Lemma formattedBalance_zero : formattedBalance (Some 0) = Some (str "0").
Proof. reflexivity. Qed.

(** C7: when the RPC promise rejects, the Solana hook shows a balance
    of zero, whatever it showed before; the error goes to the console
    and no rejection escapes. *)
Theorem sol_reject_zero (c c' : config) (rid : nat) (e : js_error) :
  reachable (ops := ops) c → phase_of (hk c) = Mounted → step (ops := ops) c (Reject rid e) c' →
  useSolanaBalance (hk c') = (Some 0, Some (str "0"))
  ∧ log (hk c') = log (hk c) ++ [ConsoleError e]
  ∧ rejections (hk c') = rejections (hk c).
Proof.
  intros Hr%inv_reachable Hp Hs.
  pose proof (returned_step _ _ _ Hr Hs) as Hret.
  inversion Hs as [| | | | | |now h rid' a e' Hid|]; subst. cbn [hk] in *.
  destruct (catch_mounted e (settled rid h) Hp) as (Eb & El & Ep & _).
  assert (reject rid e h
          = set_memo (memo (reject rid e h)) (getBalance_catch e (settled rid h))) as E
    by by rewrite (reject_eq rid a) at 1.
  rewrite useSolanaBalance_returned, Hret by (rewrite E; cbn; congruence).
  rewrite E. unfold rejections. cbn [balance log set_memo].
  rewrite Eb, El. unfold rejected_in. by rewrite omap_app, app_nil_r.
Qed.

Lemma sol_reject_zero_witness :
  useSolanaBalance (hk (after (known ++ [Reject 1 RpcError]))) = (Some 0, Some (str "0"))
  ∧ log (hk (after (known ++ [Reject 1 RpcError])))
    = log (hk (after known)) ++ [ConsoleError RpcError]
  ∧ rejections (hk (after (known ++ [Reject 1 RpcError]))) = rejections (hk (after known)).
Proof.
  apply (sol_reject_zero (after known) _ 1 RpcError).
  - eapply sol_after_reachable. by vm_compute.
  - by vm_compute.
  - apply step_exec. by vm_compute.
Defined.

(** C18: an address that is not a valid public key is caught at the
    mount: the constructor throws into the [catch] block, so the hook
    shows zero, logs the error and sends nothing, and the interval is
    created all the same. *)
Theorem sol_invalid_address (a : string) (e : js_error) (now : Z) :
  truthy (Some a) = true → PublicKey a = Throw e →
  ∃ c, exec (ops := ops) (Mount (Some a) true) (initial now) = Some c
     ∧ useSolanaBalance (hk c) = (Some 0, Some (str "0"))
     ∧ log (hk c) = [ConsoleError e]
     ∧ inflight (hk c) = ∅
     ∧ timers (hk c) = {[ 0%nat := Timer (now + 500) 500 (Some a) ]}.
Proof.
  intros Ht He. exists (Config now (mount (Some a) true now fresh)).
  split; [reflexivity|]. cbn [hk].
  assert (inv (Config now (mount (Some a) true now fresh))) as Hi
    by (apply inv_mount; [done|apply inv_initial]).
  apply inv_formatted in Hi; [|cbn [hk]; by rewrite mount_phase].
  unfold useSolanaBalance. cbn [hk] in Hi. rewrite Hi. clear Hi.
  unfold mount. rewrite rerender_set_memo. cbn [balance log inflight timers set_memo].
  cbn [useEffect ops]. unfold effect, useMemo. cbn [memo poll address set_props set_phase fresh negb
    set_memo start ops].
  rewrite (sol_getBalance_invalid a e now _ Ht He), getBalance_catch_eq.
  by rewrite decide_True by done.
Qed.

Lemma sol_invalid_address_witness :
  ∃ c, exec (ops := ops) (Mount (Some malformed) true) (initial 0) = Some c
     ∧ useSolanaBalance (hk c) = (Some 0, Some (str "0"))
     ∧ log (hk c) = [ConsoleError NonBase58Character]
     ∧ inflight (hk c) = ∅
     ∧ timers (hk c) = {[ 0%nat := Timer (0 + 500) 500 (Some malformed) ]}.
Proof. apply sol_invalid_address; by vm_compute. Defined.

(** The addresses [getBalance] sends a request for: a non-empty string
    that the constructor of [PublicKey] accepts. *)
Definition usable (a : option string) : bool :=
  truthy a && match a with
              | Some s => if PublicKey s is Normal _ then true else false
              | None => false
              end.

Lemma fetches_catch e h : fetches (getBalance_catch e h) = fetches h.
Proof. rewrite getBalance_catch_eq, fetches_add_log, app_nil_r. by case_decide. Qed.

Lemma fetches_unusable a now h :
  usable a = false → fetches (getBalance a now h) = fetches h.
Proof.
  intros Hu.
  destruct (sol_getBalance_cases a now h) as [->|[(s&?&->&Hk&_)|(?&?&_&_&->)]];
    [done| |apply fetches_catch].
  unfold usable in Hu. rewrite Hk, andb_true_r in Hu.
  by rewrite (sol_getBalance_falsy _ _ _ Hu).
Qed.

Lemma fetches_resolved r h : fetches (getBalance_resolved r h) = fetches h.
Proof.
  destruct (getBalance_resolved_cases r h) as [(?&_&->)|(?&_&->)];
    [|apply fetches_catch].
  unfold setBalance. by case_decide.
Qed.

(** C39: an address that is not a valid public key never reaches the
    network: along every run in which each address the component passes
    is missing, empty or refused by the constructor, no request is sent,
    whatever timers fire and whoever calls [getBalance]. *)
Theorem sol_unusable_never_fetches (now : Z) (evs : list (event ops)) (c : config) :
  steps (ops := ops) (initial now) evs c →
  Forall (passes (λ a, usable a = false)) evs →
  fetches (hk c) = [].
Proof.
  intros Hs Hev.
  apply (log_steps_at (λ a, usable a = false)
           (λ l, omap (λ e, if e is Fetched r a t then Some (r, a, t) else None) l = []) _ _ _)
    with (4 := Hs); [..|apply inv_initial|done|done|done].
  - intros a t h Ha Hl. fold (fetches h) in Hl. by rewrite <- (fetches_unusable a t h Ha) in Hl.
  - intros r h Hl. fold (fetches h) in Hl. by rewrite <- (fetches_resolved r h) in Hl.
  - intros e h Hl. fold (fetches h) in Hl. by rewrite <- (fetches_catch e h) in Hl.
Qed.

Lemma sol_unusable_never_fetches_witness :
  fetches (hk (after [Mount (Some malformed) true; Elapse 500; Tick 0; Refresh;
                      Render (Some EmptyString) true; Elapse 500; Tick 1]))
  = [].
Proof.
  apply (sol_unusable_never_fetches 0
           [Mount (Some malformed) true; Elapse 500; Tick 0; Refresh;
            Render (Some EmptyString) true; Elapse 500; Tick 1]).
  - apply (steps_run (ops := ops)). by vm_compute.
  - by repeat constructor.
Defined.

(** ** Answers *)

(** What the hook returns after an answer that is an integer. *)
Lemma resolved_returns (c c' : config) (rid : nat) (lamports : number) (b : Z) :
  inv (ops := ops) c → phase_of (hk c) = Mounted → BigInt lamports = Normal b →
  step (ops := ops) c (Resolve rid lamports) c' →
  useSolanaBalance (hk c') = (Some b, Some (formatSol (Number b))).
Proof.
  intros Hr Hp Hb Hs.
  pose proof (returned_step _ _ _ Hr Hs) as Hret.
  inversion Hs as [| | | | |now h rid' a r Hid| |]; subst. cbn [hk] in *.
  assert (balance (resolve rid lamports h) = Some b
          ∧ phase_of (resolve rid lamports h) = Mounted) as [Eb Ep].
  { rewrite (resolve_eq rid a) by done. cbn [fulfilled ops balance phase_of set_memo].
    unfold getBalance_resolved. rewrite Hb. cbn.
    by rewrite setBalance_mounted. }
  by rewrite useSolanaBalance_returned, Hret, Eb by congruence.
Qed.

(** C19: when the promise resolves to an integer number of lamports, the
    hook returns it as [balance] and [formatSol] of its conversion back
    to a number as [formattedBalance]. *)
Theorem sol_resolve_sets_balance (c c' : config) (rid : nat) (lamports : number) (b : Z) :
  reachable (ops := ops) c → phase_of (hk c) = Mounted → BigInt lamports = Normal b →
  step (ops := ops) c (Resolve rid lamports) c' →
  useSolanaBalance (hk c') = (Some b, Some (formatSol (Number b))).
Proof. intros Hr%inv_reachable. by apply resolved_returns. Qed.

Lemma sol_resolve_sets_balance_witness :
  useSolanaBalance (hk (after (known ++ [Resolve 1 (Number 1500000000)])))
  = (Some 1500000000, Some (formatSol (Number 1500000000))).
Proof.
  apply (sol_resolve_sets_balance (after known) _ 1 (Number 1500000000)).
  - eapply sol_after_reachable. by vm_compute.
  - by vm_compute.
  - by vm_compute.
  - apply step_exec. by vm_compute.
Defined.

(** C2: from the answer of the RPC node to the screen nothing is lost
    below [2^23] SOL: when the promise resolves to the number [lamports],
    a non-negative integer below [exact_below], the hook returns that
    integer as [balance], and as [formattedBalance] the string that
    [formatUnits] gives for it with nine decimals, the exact decimal
    expansion of [lamports / 10^9]. *)
Theorem sol_display_exact (c c' : config) (rid : nat) (lamports : Z) :
  reachable (ops := ops) c → phase_of (hk c) = Mounted →
  0 ≤ lamports < exact_below →
  step (ops := ops) c (Resolve rid (Number lamports)) c' →
  useSolanaBalance (hk c') = (Some lamports, Some (formatUnits lamports 9)).
Proof.
  intros Hr%inv_reachable Hp HL Hs.
  rewrite (resolved_returns c c' rid (Number lamports) lamports), formatSol_units;
    try done.
  apply BigInt_Number. unfold exact_below in HL. lia.
Qed.

Lemma sol_display_exact_witness :
  useSolanaBalance (hk (after (known ++ [Resolve 1 (Number 8388607999999999)])))
  = (Some 8388607999999999, Some (formatUnits 8388607999999999 9)).
Proof.
  apply (sol_display_exact (after known) _ 1 8388607999999999).
  - eapply sol_after_reachable. by vm_compute.
  - by vm_compute.
  - by vm_compute.
  - apply step_exec. by vm_compute.
Defined.

(** C20: when the promise resolves to a number that is not an integer,
    [BigInt] throws inside the [try]: the hook shows zero and logs a
    RangeError. *)
Theorem sol_resolve_not_integer (c c' : config) (rid : nat) (lamports : number)
    (e : js_error) :
  reachable (ops := ops) c → phase_of (hk c) = Mounted → BigInt lamports = Throw e →
  step (ops := ops) c (Resolve rid lamports) c' →
  useSolanaBalance (hk c') = (Some 0, Some (str "0"))
  ∧ log (hk c') = log (hk c) ++ [ConsoleError e].
Proof.
  intros Hr%inv_reachable Hp Hb Hs.
  pose proof (returned_step _ _ _ Hr Hs) as Hret.
  inversion Hs as [| | | | |now h rid' a r Hid| |]; subst. cbn [hk] in *.
  destruct (catch_mounted e (settled rid h) Hp) as (Eb & El & Ep & _).
  assert (resolve rid lamports h
          = set_memo (memo (resolve rid lamports h))
              (getBalance_catch e (settled rid h))) as E.
  { rewrite (resolve_eq rid a) at 1 by done. cbn [fulfilled ops].
    unfold getBalance_resolved. by rewrite Hb. }
  rewrite useSolanaBalance_returned, Hret by (rewrite E; cbn; congruence).
  rewrite E. cbn [balance log set_memo]. by rewrite Eb, El.
Qed.

Lemma sol_resolve_not_integer_witness :
  useSolanaBalance (hk (after (known ++ [Resolve 1 (div (Number 3) (Number 2))])))
  = (Some 0, Some (str "0"))
  ∧ log (hk (after (known ++ [Resolve 1 (div (Number 3) (Number 2))])))
    = log (hk (after known)) ++ [ConsoleError RangeError].
Proof.
  apply (sol_resolve_not_integer (after known) _ 1 (div (Number 3) (Number 2))).
  - eapply sol_after_reachable. by vm_compute.
  - by vm_compute.
  - by vm_compute.
  - apply step_exec. by vm_compute.
Defined.

End useSolanaBalance.
