(* ===== verification/Contract.v ===== *)
(** * Contract: what a balance section promises, and that the hooks keep it

    The design describes each network section of the screen as a state
    machine: [no-address], then [address-present, balance-unknown], then
    [address-present, balance-known], re-entered on every successful
    fetch; a failed fetch leaves the state alone for the EVM hook and
    shows zero for the Solana hook.  This file writes that machine down
    ([section_state], [spec_next]), and a second one with the memory the
    code really has ([observable], [next]: whether the component is
    mounted, whether it has an address, the balance it holds), and proves

    - that every run of a hook is a run of the second machine
      ([refines_run]), whatever its timers, its pending requests and the
      clock do: the abstraction [observe] forgets them;
    - that the second machine, seen through [view], is the machine of
      the design as long as the hook is mounted and holds no balance
      while it has no address ([section_machine]);
    - that the hook never forgets a balance ([balance_never_forgotten]),
      which is why the last condition fails after a sign-out: the
      balance of the previous address comes back with the next address
      ([stale_reentry]).

    The theorems are proved once, for every implementation of the
    interface [Outcome]; [evm_outcome] and [sol_outcome] are the two
    hooks. *)

From stdpp Require Import gmap.
From S2P Require Import Prelude JsString Ether Float64 Sol PublicKey React Poller.
From S2P Require Import EvmBalance SolanaBalance.

(** ** The specification *)

(** The states of a network section. *)
Inductive section_state : Type :=
| no_address
| balance_unknown
| balance_known (b : Z).

#[global] Instance section_state_eq_dec : EqDecision section_state.
Proof. solve_decision. Defined.

(** The two error policies. *)
Inductive policy : Type := Propagate | Zero.

(** What can happen to a section: its component is rendered for the
    first time or again, with or without an address; it is removed; a
    fetch succeeds or fails; or something happens that no state depends
    on (a request is sent, time passes). *)
Inductive action : Type :=
| appears (present : bool)
| address_is (present : bool)
| disappears
| answer (b : Z)
| failure
| silent.

(** The machine of the design. *)
Definition spec_next (p : policy) (a : action) (v : section_state) : section_state :=
  match a with
  | appears true | address_is true => if v is no_address then balance_unknown else v
  | appears false | address_is false => no_address
  | answer b => if v is no_address then no_address else balance_known b
  | failure =>
      match p with
      | Zero => if v is no_address then no_address else balance_known 0
      | Propagate => v
      end
  | disappears | silent => v
  end.

Definition spec_replay (p : policy) (acts : list action) (v : section_state) :
    section_state :=
  foldl (λ v a, spec_next p a v) v acts.

(** The machine with the memory of the code: the balance is kept when
    the address goes, and a component that is not mounted ignores the
    answers. *)
Record observable : Type := Observable {
  alive : bool;
  present : bool;
  shown : option Z;
}.

#[global] Instance observable_eq_dec : EqDecision observable.
Proof. solve_decision. Defined.

Definition next (p : policy) (a : action) (s : observable) : observable :=
  match a with
  | appears pr => Observable true pr (shown s)
  | address_is pr => Observable (alive s) pr (shown s)
  | disappears => Observable false (present s) (shown s)
  | answer b => if alive s then Observable true (present s) (Some b) else s
  | failure =>
      match p with
      | Zero => if alive s then Observable true (present s) (Some 0) else s
      | Propagate => s
      end
  | silent => s
  end.

Definition replay (p : policy) (acts : list action) (s : observable) : observable :=
  foldl (λ s a, next p a s) s acts.

(** The state of the design that a state of the code shows. *)
Definition view (s : observable) : section_state :=
  if present s then
    match shown s with
    | Some b => balance_known b
    | None => balance_unknown
    end
  else no_address.

(** No balance is held while there is no address. *)
Definition tidy (s : observable) : Prop := present s = false → shown s = None.

(** ** The abstraction *)

Definition observe (h : hook) : observable :=
  Observable (bool_decide (phase_of h = Mounted)) (truthy (address h)) (balance h).

(** What the three parts of [getBalance] do, as actions: the interface
    between a hook and the theorems of this file. *)
Class Outcome (ops : PollerOps) : Type := {
  on_error : policy;
  start_action : option string → action;
  fulfilled_action : response → action;
  start_observe a now h :
    observe (start a now h) = next on_error (start_action a) (observe h);
  fulfilled_observe r h :
    observe (fulfilled r h) = next on_error (fulfilled_action r) (observe h);
  rejected_observe e h :
    observe (rejected e h) = next on_error failure (observe h);
  start_action_falsy a : truthy a = false → start_action a = silent;
}.

(** [useSolanaBalance]: building the key can fail before anything is
    sent, and [BigInt] can fail on the answer. *)
Definition sol_start_action (a : option string) : action :=
  if truthy a then
    match a with
    | Some s => if PublicKey s is Throw _ then failure else silent
    | None => silent
    end
  else silent.

Definition sol_fulfilled_action (r : number) : action :=
  match BigInt r with
  | Normal b => answer b
  | Throw _ => failure
  end.

Section refinement.
Context {ops : PollerOps} {laws : PollerLaws ops} {out : Outcome ops}.

(** The actions of an event, seen from the state it happens in: a render
    whose effect runs also calls [getBalance]. *)
Definition actions (c : config) (ev : event ops) : list action :=
  let h := hk c in
  match ev with
  | Mount a p => appears (truthy a) :: (if p then [start_action a] else [])
  | Render a p =>
      address_is (truthy a)
      :: (if deps_changed a p h && p then [start_action a] else [])
  | Unmount => [disappears]
  | Tick id => if timers h !! id is Some t then [start_action (captured t)] else []
  | Refresh => [start_action (address h)]
  | Resolve _ r => [fulfilled_action r]
  | Reject _ _ => [failure]
  | Elapse _ => []
  end.

(** The actions of a run. *)
Fixpoint run_actions (evs : list (event ops)) (c : config) : list action :=
  match evs with
  | [] => []
  | ev :: evs' =>
      actions c ev ++ (if exec ev c is Some c' then run_actions evs' c' else [])
  end.

(** ** The two machines *)

Lemma next_shown p a s : is_Some (shown s) → is_Some (shown (next p a s)).
Proof. destruct a, p, s as [[] ? ?]; cbn; eauto. Qed.

Lemma replay_shown p acts s :
  is_Some (shown s) → is_Some (shown (replay p acts s)).
Proof.
  revert s. induction acts as [|a acts IH]; intros s Hs; [done|].
  apply IH. by apply next_shown.
Qed.

Lemma replay_app p acts1 acts2 s :
  replay p (acts1 ++ acts2) s = replay p acts2 (replay p acts1 s).
Proof. apply foldl_app. Qed.

(** One action of a tidy state is the action of the design; an answer
    counts only while the component is mounted. *)
Lemma view_next p a s :
  tidy s → (if a is (answer _ | failure) then alive s = true else True) →
  view (next p a s) = spec_next p a (view s).
Proof.
  unfold tidy. destruct s as [al [] [b|]], a as [[]|[]| | | |], p; cbn;
    intros Ht Ha; subst; try done; by specialize (Ht eq_refl).
Qed.

(** A render followed by the call of [getBalance] in its effect. *)
Lemma view_next_pair p pr a0 a s :
  tidy s → a0 = appears pr ∨ (a0 = address_is pr ∧ alive s = true) →
  (pr = false → a = silent) →
  view (next p a (next p a0 s)) = spec_next p a (spec_next p a0 (view s)).
Proof.
  intros Ht Ha0 Hs. rewrite <- (view_next p a0 s) by (by destruct Ha0 as [->|[-> _]]).
  destruct pr; [|by rewrite Hs].
  apply view_next; destruct Ha0 as [->|[-> Ha]]; cbn; try done; by destruct a.
Qed.

(** ** Frames of [observe] *)

Lemma observe_eq h h' :
  props h' = props h → balance h' = balance h → observe h' = observe h.
Proof. unfold props, observe. intros [= -> -> _] ->. done. Qed.

Lemma observe_rerender h : observe (rerender h) = observe h.
Proof. by rewrite rerender_set_memo. Qed.

Lemma observe_useMemo f h : observe (useMemo f h) = observe h.
Proof. by rewrite useMemo_set_memo. Qed.

Lemma observe_run_cleanup h : observe (run_cleanup h) = observe h.
Proof. unfold run_cleanup. by destruct (cleanup h). Qed.

Lemma observe_reschedule id h : observe (reschedule id h) = observe h.
Proof. unfold reschedule. by destruct (timers h !! id). Qed.

(** The effect is one call of [getBalance], if the hook polls. *)
Lemma observe_effect now h :
  observe (poll_effect now h)
  = if poll h then next on_error (start_action (address h)) (observe h) else observe h.
Proof.
  unfold poll_effect. destruct (poll h); cbn [negb]; [|done].
  by rewrite <- (start_observe _ now).
Qed.

(** ** Simulation *)

(** One step of the hook is the actions of its event. *)
Lemma refines_step c ev c' :
  step c ev c' → observe (hk c') = replay on_error (actions c ev) (observe (hk c)).
Proof.
  intros []; cbn [hk actions replay foldl].
  - unfold mount. rewrite useEffect_spec, observe_rerender, observe_effect.
    rewrite useMemo_set_memo. cbn. by destruct p.
  - unfold render. rewrite ?useEffect_spec, ?useEffect_cleanup_spec.
    destruct (deps_changed a p h); cbn [andb].
    + rewrite observe_rerender, observe_effect.
      pose proof (props_run_cleanup (useMemo format (set_props a p h))) as Hp.
      rewrite props_useMemo in Hp. injection Hp as _ -> ->.
      rewrite observe_run_cleanup, observe_useMemo. cbn. by destruct p.
    + rewrite observe_useMemo. unfold observe. cbn. by rewrite bool_decide_eq_true_2.
  - unfold unmount. rewrite useEffect_cleanup_spec.
    pose proof (observe_run_cleanup h) as E. unfold observe in *. cbn.
    injection E as _ -> ->. done.
  - rewrite (tick_eq id t) by done. rewrite H. cbn.
    by rewrite (observe_eq (start (captured t) now (reschedule id h))), start_observe,
      observe_reschedule.
  - rewrite refresh_eq. by rewrite (observe_eq (start (address h) now h)), start_observe.
  - rewrite (resolve_eq rid a) by done.
    by rewrite (observe_eq (fulfilled r (settled rid h))), fulfilled_observe.
  - rewrite (reject_eq rid a) by done.
    by rewrite (observe_eq (rejected e (settled rid h))), rejected_observe.
  - done.
Qed.

(** What an event does to a mounted hook, as seen by the design. *)
Lemma view_actions c ev :
  (if ev is (Mount _ _ | Elapse _) then True else phase_of (hk c) = Mounted) →
  tidy (observe (hk c)) →
  view (replay on_error (actions c ev) (observe (hk c)))
  = spec_replay on_error (actions c ev) (view (observe (hk c))).
Proof.
  intros Hp Ht.
  assert (if ev is (Mount _ _ | Elapse _) then True else alive (observe (hk c)) = true)
    as Ha by (destruct ev; try done; by apply bool_decide_eq_true_2).
  destruct ev as [a p|a p| |id| | | |]; cbn [actions replay spec_replay foldl];
    try done; try (apply view_next; by try done).
  - destruct p; [|by apply view_next].
    apply (view_next_pair _ (truthy a)); [done|by left|apply start_action_falsy].
  - destruct (deps_changed a p (hk c) && p); [|by apply view_next].
    apply (view_next_pair _ (truthy a)); [done|by right|apply start_action_falsy].
  - destruct (timers (hk c) !! id); [|done]. apply view_next; [done|].
    by destruct (start_action _).
  - apply view_next; [done|]. by destruct (start_action _).
  - apply view_next; [done|]. by destruct (fulfilled_action _).
Qed.

(** C10: every run of a hook is a run of the abstract machine: what the
    component can observe of the hook after the events [evs] (mounted or
    not, address or not, the balance held) is the replay of the actions
    of [evs] from what it observed before.  Timers, pending requests,
    the console and the clock have no influence on it. *)
Theorem refines_run (c c' : config) (evs : list (event ops)) :
  steps c evs c' →
  observe (hk c') = replay on_error (run_actions evs c) (observe (hk c)).
Proof.
  induction 1 as [|c ev c1 evs c2 Hs _ IH]; [done|].
  cbn [run_actions]. rewrite (proj1 (step_exec _ _ _) Hs), replay_app, IH.
  by rewrite (refines_step _ _ _ Hs).
Qed.

(** C11: in a reachable state in which the hook is not unmounted and
    holds no balance without an address, every step is a step of the
    design's state machine: the section is in the state the design's
    transitions give for the actions of the event. *)
Theorem section_machine (c c' : config) (ev : event ops) :
  reachable c → phase_of (hk c) ≠ Unmounted → tidy (observe (hk c)) →
  step c ev c' →
  view (observe (hk c'))
  = spec_replay on_error (actions c ev) (view (observe (hk c))).
Proof.
  intros Hr%inv_reachable Hp Ht Hs. rewrite (refines_step _ _ _ Hs).
  apply view_actions; [|done].
  assert (phase_of (hk c) = Mounted ∨ hk c = fresh) as [Hm|Hf].
  { destruct (phase_of (hk c)) eqn:E; [right; by apply inv_fresh|by left|done]. }
  - by destruct ev.
  - destruct Hs; cbn [hk] in *; subst; try done; by rewrite lookup_empty in *.
Qed.

(** C12: a hook never forgets a balance: once [balance] is defined it
    stays defined, through failures, address changes, a sign-out and the
    unmount, and the section never returns to [balance_unknown]: the
    loading state never comes back. *)
Theorem balance_never_forgotten (c c' : config) (evs : list (event ops)) :
  steps c evs c' → is_Some (balance (hk c)) →
  is_Some (balance (hk c')) ∧ view (observe (hk c')) ≠ balance_unknown.
Proof.
  intros Hs Hb. assert (is_Some (balance (hk c'))) as [b Hb'].
  { induction Hs as [|c ev c1 evs c2 Hs _ IH]; [done|]. apply IH.
    change (is_Some (shown (observe (hk c1)))). rewrite (refines_step _ _ _ Hs).
    by apply replay_shown. }
  split; [by eexists|]. unfold view, observe. cbn. rewrite Hb'. by destruct (truthy _).
Qed.
End refinement.

(** ** The two hooks *)

Lemma observe_setBalance b h :
  observe (setBalance b h) = next Zero (answer b) (observe h).
Proof.
  unfold setBalance, observe.
  case_decide; [by rewrite !bool_decide_eq_true_2|by rewrite bool_decide_eq_false_2].
Qed.

Lemma observe_catch e h :
  observe (useSolanaBalance.getBalance_catch e h) = next Zero failure (observe h).
Proof.
  rewrite useSolanaBalance.getBalance_catch_eq. unfold observe. cbn.
  case_decide; [by rewrite !bool_decide_eq_true_2|by rewrite bool_decide_eq_false_2].
Qed.

(** [useEvmBalance]: sending never fails at once, every answer is a
    balance, and a failure changes nothing. *)
#[export, refine] Instance evm_outcome : Outcome useEvmBalance.ops := {|
  on_error := Propagate;
  start_action _ := silent;
  fulfilled_action := answer : @response useEvmBalance.ops → action;
|}.
Proof.
  - intros a now h. cbn.
    by destruct (useEvmBalance.getBalance_cases a now h) as [->|(s & _ & ->)].
  - intros r h. apply observe_setBalance.
  - done.
  - done.
Defined.

(** [useSolanaBalance]: whatever throws inside the [try] shows zero. *)
#[export, refine] Instance sol_outcome : Outcome useSolanaBalance.ops := {|
  on_error := Zero;
  start_action := sol_start_action;
  fulfilled_action := sol_fulfilled_action : @response useSolanaBalance.ops → action;
|}.
Proof.
  - intros a now h. cbn. unfold useSolanaBalance.getBalance, sol_start_action.
    destruct (truthy a); [|done]. destruct a as [s|]; [|done].
    destruct (PublicKey s); cbn; [done|apply observe_catch].
  - intros r h. cbn. unfold useSolanaBalance.getBalance_resolved, sol_fulfilled_action.
    destruct (BigInt r); cbn; [apply observe_setBalance|apply observe_catch].
  - intros e h. apply observe_catch.
  - intros a Ha. unfold sol_start_action. by rewrite Ha.
Defined.

(** ** Witnesses *)

Lemma refines_run_witness :
  observe (hk (useSolanaBalance.after
                 (useSolanaBalance.known ++ [Reject 1 RpcError; Unmount])))
  = replay Zero
      (run_actions (useSolanaBalance.known ++ [Reject 1 RpcError; Unmount]) (initial 0))
      (observe (hk (initial 0))).
Proof.
  assert (steps (initial 0) (useSolanaBalance.known ++ [Reject 1 RpcError; Unmount])
            (useSolanaBalance.after
               (useSolanaBalance.known ++ [Reject 1 RpcError; Unmount]))) as Hs
    by (apply (steps_run (ops := useSolanaBalance.ops)); by vm_compute).
  pose proof (refines_run (laws := useSolanaBalance.laws) _ _ _ Hs) as H. exact H.
Defined.

Lemma section_machine_witness :
  view (observe (hk (useSolanaBalance.after
                       (useSolanaBalance.known ++ [Reject 1 RpcError]))))
  = spec_replay Zero
      (actions (useSolanaBalance.after useSolanaBalance.known)
         (@Reject useSolanaBalance.ops 1 RpcError))
      (view (observe (hk (useSolanaBalance.after useSolanaBalance.known)))).
Proof.
  assert (reachable (useSolanaBalance.after useSolanaBalance.known)) as Hr
    by (eapply useSolanaBalance.sol_after_reachable; by vm_compute).
  assert (step (useSolanaBalance.after useSolanaBalance.known) (Reject 1 RpcError)
            (useSolanaBalance.after (useSolanaBalance.known ++ [Reject 1 RpcError])))
    as Hs by (apply (step_exec (ops := useSolanaBalance.ops)); by vm_compute).
  assert (tidy (observe (hk (useSolanaBalance.after useSolanaBalance.known)))) as Ht
    by (by vm_compute).
  assert (phase_of (hk (useSolanaBalance.after useSolanaBalance.known)) ≠ Unmounted)
    as Hp by (by vm_compute).
  pose proof (section_machine (laws := useSolanaBalance.laws) _ _ _ Hr Hp Ht Hs) as H.
  exact H.
Defined.

Lemma balance_never_forgotten_witness :
  is_Some (balance (hk (useSolanaBalance.after
    (useSolanaBalance.known ++ [Reject 1 RpcError; Render None true; Unmount]))))
  ∧ view (observe (hk (useSolanaBalance.after
      (useSolanaBalance.known ++ [Reject 1 RpcError; Render None true; Unmount]))))
    ≠ balance_unknown.
Proof.
  assert (steps (useSolanaBalance.after useSolanaBalance.known)
            [@Reject useSolanaBalance.ops 1 RpcError; Render None true; Unmount]
            (useSolanaBalance.after
               (useSolanaBalance.known ++ [Reject 1 RpcError; Render None true; Unmount])))
    as Hs by (apply (steps_run (ops := useSolanaBalance.ops)); by vm_compute).
  assert (is_Some (balance (hk (useSolanaBalance.after useSolanaBalance.known)))) as Hb
    by (vm_compute; eauto).
  pose proof (balance_never_forgotten (laws := useSolanaBalance.laws) _ _ _ Hs Hb) as H.
  exact H.
Defined.

(** ** Examples *)

(** A session of the Solana hook as the design sees it: the address
    arrives, the first answer is 7 lamports, the second request fails. *)
Example sol_session_actions :
  run_actions (useSolanaBalance.known ++ [Reject 1 RpcError]) (initial 0)
  = [appears true; silent; answer 7; silent; failure]
  ∧ view (observe (hk (useSolanaBalance.after
                         (useSolanaBalance.known ++ [Reject 1 RpcError]))))
    = balance_known 0.
Proof. by vm_compute. Qed.

(** Where the hooks leave the design: after a sign-out the balance is
    still held, and the next address starts at [balance_known] with the
    balance of the previous one instead of [balance_unknown]. *)
Example stale_reentry :
  let evs := [Mount (Some useEvmBalance.alice) true;
              @Resolve useEvmBalance.ops 0 7; Render None true] in
  let c := useEvmBalance.after evs in
  ¬ tidy (observe (hk c))
  ∧ view (observe (hk c)) = no_address
  ∧ view (observe (hk (useEvmBalance.after
                         (evs ++ [Render (Some useEvmBalance.bob) true]))))
    = balance_known 7
  ∧ spec_replay Propagate
      (actions c (@Render useEvmBalance.ops (Some useEvmBalance.bob) true))
      (view (observe (hk c)))
    = balance_unknown.
Proof. split; [intros H; by specialize (H eq_refl)|by vm_compute]. Qed.
