(* ===== verification/Jsx.v ===== *)
(** * Jsx: what a component renders

    A component is a function from its props to a tree of elements.  The
    tree keeps what the JSX of the two source files writes: host
    elements with their attributes, text, the components of other
    modules (which are not expanded) with their props, and [Suspense]
    with its fallback.  [H] is the type of the callbacks passed as props.
    The file also holds the part of [process.env] the components read. *)

From S2P Require Import Prelude.

(** ** The environment *)

Record process_env : Type := ProcessEnv {
  NEXT_PUBLIC_CDP_CREATE_ETHEREUM_ACCOUNT_TYPE : option string;
  NEXT_PUBLIC_CDP_CREATE_SOLANA_ACCOUNT : option string;
}.

(** ** Trees *)

Section jsx.
Context {H : Type}.

(** The value of an attribute or prop. *)
Inductive value : Type :=
| Str (s : string)
| Undefined
| Handler (h : H).

#[local] Set Warnings "-register-all".
Inductive node : Type :=
| text (s : string)
| element (tag : string) (attrs : list (string * value)) (children : list node)
| component (name : string) (props : list (string * value))
| Suspense (fallback : node) (children : list node).

(** [{cond && (...)}]: nothing is rendered for a falsy condition. *)
Definition when (cond : bool) (children : list node) : list node :=
  if cond then children else [].

(** [{s}] for a string or undefined. *)
Definition optional (s : option string) : value :=
  match s with
  | Some s => Str s
  | None => Undefined
  end.

(** ** Queries *)

(** The props of every use of the component [name] in a tree, in
    document order; a fallback is not part of the document. *)
Fixpoint uses (name : string) (n : node) : list (list (string * value)) :=
  match n with
  | text _ => []
  | element _ _ children => flat_map (uses name) children
  | component name' props => if decide (name' = name) then [props] else []
  | Suspense _ children => flat_map (uses name) children
  end.

(** The callbacks a tree hands to its components. *)
Definition handlers_of (props : list (string * value)) : list H :=
  omap (λ p, match p.2 with Handler h => Some h | _ => None end) props.

Fixpoint handlers (n : node) : list H :=
  match n with
  | text _ => []
  | element _ attrs children => handlers_of attrs ++ flat_map handlers children
  | component _ props => handlers_of props
  | Suspense _ children => flat_map handlers children
  end.

(** The text of a tree, in document order. *)
Fixpoint texts (n : node) : list string :=
  match n with
  | text s => [s]
  | element _ _ children => flat_map texts children
  | component _ _ => []
  | Suspense _ children => flat_map texts children
  end.

(** The host elements with tag [tag]: their attributes. *)
Fixpoint elements (tag : string) (n : node) : list (list (string * value)) :=
  match n with
  | text _ => []
  | element tag' attrs children =>
      (if decide (tag' = tag) then [attrs] else []) ++ flat_map (elements tag) children
  | component _ _ => []
  | Suspense _ children => flat_map (elements tag) children
  end.

(** The value of prop [name], if it was passed. *)
Fixpoint prop (name : string) (props : list (string * value)) : option value :=
  match props with
  | [] => None
  | (k, v) :: props' => if decide (k = name) then Some v else prop name props'
  end.

(** The children of every host element whose [className] is [cls], in
    document order. *)
Definition has_class (cls : string) (attrs : list (string * value)) : bool :=
  match prop "className" attrs with
  | Some (Str c) => bool_decide (c = cls)
  | _ => false
  end.

Fixpoint blocks (cls : string) (n : node) : list (list node) :=
  match n with
  | text _ => []
  | element _ attrs children =>
      (if has_class cls attrs then [children] else []) ++ flat_map (blocks cls) children
  | component _ _ => []
  | Suspense _ children => flat_map (blocks cls) children
  end.

Lemma when_true l : when true l = l.
Proof. done. Qed.

Lemma when_false l : when false l = [].
Proof. done. Qed.

Lemma flat_map_when {B} (f : node → list B) b l :
  flat_map f (when b l) = if b then flat_map f l else [].
Proof. by destruct b. Qed.

(** The callbacks among the props, one prop at a time. *)
Lemma handlers_of_nil : handlers_of [] = [].
Proof. done. Qed.

Lemma handlers_of_Str k x l : handlers_of ((k, Str x) :: l) = handlers_of l.
Proof. done. Qed.

Lemma handlers_of_optional k x l : handlers_of ((k, optional x) :: l) = handlers_of l.
Proof. by destruct x. Qed.

Lemma handlers_of_Handler k h l : handlers_of ((k, Handler h) :: l) = h :: handlers_of l.
Proof. done. Qed.

End jsx.

Create Rewrite HintDb jsx.
#[export] Hint Rewrite @handlers_of_nil @handlers_of_Str @handlers_of_optional
  @handlers_of_Handler : jsx.

Arguments value : clear implicits.
Arguments node : clear implicits.

#[global] Instance value_eq_dec `{EqDecision H} : EqDecision (value H).
Proof. solve_decision. Defined.
