(* ===== verification/UserBalance.v ===== *)
(** * UserBalance: the balance card

    The component [UserBalance] (the second source file, lines 17-44)
    shows a loading skeleton while the balance is undefined, the balance
    with the icon and the name of a chain once it is known, and a link to
    a faucet when both a faucet URL and a faucet name are given. *)

From S2P Require Import Prelude Jsx.

Module UserBalance.

(** ** The component *)

(** The props (lines 4-8); a prop that is not passed is undefined. *)
Record Props : Type := {
  balance : option string;
  faucetUrl : option string;
  faucetName : option string;
}.

Section component.
Context {H : Type}.

Definition UserBalance (env : process_env) (props : Props) : list (node H) :=
  let isSolana := truthy (NEXT_PUBLIC_CDP_CREATE_SOLANA_ACCOUNT env) in
  [ element "h2" [("className", Str "card-title")] [text "Available balance"];
    element "p" [("className", Str "user-balance flex-col-container flex-grow")]
      (when (bool_decide (balance props = None))
         [component "LoadingSkeleton"
            [("as", Str "span"); ("className", Str "loading--balance")]]
       ++ when (bool_decide (balance props ≠ None))
         [element "span" [("className", Str "flex-row-container")]
            [ element "img"
                [("src", Str (if isSolana then "/sol.svg" else "/eth.svg"));
                 ("alt", Str ""); ("className", Str "balance-icon")] [];
              element "span" [] [text (default "" (balance props))];
              element "span" [("className", Str "sr-only")]
                [text (if isSolana then "Solana" else "Ethereum")] ]]) ]
  ++ when (truthy (faucetUrl props) && truthy (faucetName props))
       [element "p" []
          [ text "Get testnet "; text (if isSolana then "SOL" else "ETH");
            text " from"; text " ";
            element "a"
              [("href", optional (faucetUrl props)); ("target", Str "_blank");
               ("rel", Str "noopener noreferrer")]
              [text (default "" (faucetName props))] ]].

(** The chain whose icon and name the card shows. *)
Definition shown_chain (env : process_env) : string :=
  if truthy (NEXT_PUBLIC_CDP_CREATE_SOLANA_ACCOUNT env) then "Solana" else "Ethereum".

(** ** Properties *)

(** C35: the card shows the loading skeleton exactly while the balance is
    undefined. *)
Theorem skeleton_iff (env : process_env) (props : Props) :
  flat_map (uses "LoadingSkeleton") (UserBalance env props) ≠ []
  ↔ balance props = None.
Proof.
  unfold UserBalance.
  destruct (balance props), (truthy (faucetUrl props) && truthy (faucetName props));
    cbn; split; done.
Qed.

(** C36: a known balance is shown as it is, without skeleton, followed by
    the name of the chain the environment selects. *)
Theorem balance_shown (env : process_env) (props : Props) (b : string) :
  balance props = Some b →
  flat_map (uses "LoadingSkeleton") (UserBalance env props) = []
  ∧ ∃ rest, flat_map texts (UserBalance env props)
            = "Available balance"%string :: b :: shown_chain env :: rest.
Proof.
  intros E. unfold UserBalance, shown_chain. rewrite E. cbn.
  split; [by destruct (truthy (faucetUrl props) && truthy (faucetName props))|].
  eauto.
Qed.

(** C37: the faucet link is shown iff both faucet props are non-empty
    strings, and then it points to the URL. *)
Theorem faucet_iff (env : process_env) (props : Props) :
  flat_map (elements "a") (UserBalance env props)
  = if truthy (faucetUrl props) && truthy (faucetName props)
    then [[("href", optional (faucetUrl props)); ("target", Str "_blank");
           ("rel", Str "noopener noreferrer")]]
    else [].
Proof.
  unfold UserBalance.
  destruct (balance props), (truthy (faucetUrl props) && truthy (faucetName props));
    reflexivity.
Qed.

(** The icon is chosen by the environment, not by the card. *)
Lemma icon_of_env env props b :
  balance props = Some b →
  flat_map (elements "img") (UserBalance env props)
  = [[("src", Str (if truthy (NEXT_PUBLIC_CDP_CREATE_SOLANA_ACCOUNT env)
                   then "/sol.svg" else "/eth.svg"));
      ("alt", Str ""); ("className", Str "balance-icon")]].
Proof.
  intros E. unfold UserBalance. rewrite E.
  by destruct (truthy (faucetUrl props) && truthy (faucetName props)).
Qed.

(** The card holds no callback, no divider and no component but the
    skeleton. *)
Lemma UserBalance_handlers env props : flat_map handlers (UserBalance env props) = [].
Proof.
  unfold UserBalance.
  destruct (balance props), (faucetUrl props) as [u|], (faucetName props) as [n|];
    cbn; try destruct (negb (u =? "")%string); try destruct (negb (n =? "")%string);
    reflexivity.
Qed.

Lemma UserBalance_uses name env props :
  name ≠ "LoadingSkeleton"%string → flat_map (uses name) (UserBalance env props) = [].
Proof.
  intros Hne. unfold UserBalance.
  destruct (balance props), (truthy (faucetUrl props) && truthy (faucetName props));
    cbn; rewrite ?decide_False by done; reflexivity.
Qed.

Lemma UserBalance_hr env props : flat_map (elements "hr") (UserBalance env props) = [].
Proof.
  unfold UserBalance.
  destruct (balance props), (truthy (faucetUrl props) && truthy (faucetName props));
    reflexivity.
Qed.

(** The card has none of the blocks of the screen that holds it. *)
Lemma UserBalance_blocks cls env props :
  cls ∈ ["main-inner flex-col-container"; "card card--user-balance"]%string →
  flat_map (blocks cls) (UserBalance env props) = [].
Proof.
  rewrite !elem_of_cons, elem_of_nil. intros [->|[->|[]]]; unfold UserBalance;
    by destruct (balance props), (truthy (faucetUrl props) && truthy (faucetName props)).
Qed.

Lemma UserBalance_icons env props :
  Forall (λ attrs, prop "src" attrs
                   = Some (Str (if truthy (NEXT_PUBLIC_CDP_CREATE_SOLANA_ACCOUNT env)
                                then "/sol.svg" else "/eth.svg")))
         (flat_map (elements "img") (UserBalance env props)).
Proof.
  unfold UserBalance.
  destruct (balance props), (truthy (faucetUrl props) && truthy (faucetName props));
    cbn; repeat constructor.
Qed.

End component.

Lemma balance_shown_witness :
  flat_map (uses "LoadingSkeleton")
    (UserBalance (H := unit) (ProcessEnv None None) (Build_Props (Some "1.5"%string) None None))
  = []
  ∧ ∃ rest, flat_map texts
              (UserBalance (H := unit) (ProcessEnv None None)
                 (Build_Props (Some "1.5"%string) None None))
            = "Available balance"%string :: "1.5"%string
              :: shown_chain (ProcessEnv None None) :: rest.
Proof. by apply (balance_shown (H := unit)). Defined.

End UserBalance.
