(* ===== verification/Screen.v ===== *)
(** * Screen: the component [SignedInScreen]

    [SignedInScreen.tsx], lines 21-58 and 137-239: the module-level
    constants (the transaction component chosen from the environment, the
    two viem clients and the two Solana connections), the four hook calls
    of the component and the tree it renders.  The state of the screen is
    what the three [@coinbase/cdp-hooks] hooks return together with the
    states of its four balance hooks; the events are the life cycle of
    the component, the events of each hook, and the [onSuccess] calls of
    the children that were given a [getBalance].

    The children [Header], [FundWallet] and the three transaction
    components are other modules: they appear in the tree with their
    props and are not expanded.

    The theorems are about the four pollers as the screen calls them,
    and about the tree: which children it holds, and, section by
    section ([sections], [wired]), that the callback handed to a child
    refreshes the hook whose balance the card of that section shows. *)

From stdpp Require Import gmap.
From S2P Require Import Prelude JsString Float64 PublicKey React Poller.
From S2P Require Import EvmBalance SolanaBalance Jsx UserBalance.

(** ** Module-level constants *)

(** Lines 21-29. *)
Definition getEVMComponentPath (env : process_env) : string :=
  let isSmartAccount :=
    bool_decide (NEXT_PUBLIC_CDP_CREATE_ETHEREUM_ACCOUNT_TYPE env = Some "smart"%string) in
  if isSmartAccount then "@/components/SmartAccountTransaction"
  else "@/components/EOATransaction".

(** Lines 31-32: the lazily imported components, named by their module. *)
Definition EVMTransactionComponent (env : process_env) : string :=
  getEVMComponentPath env.
Definition SolanaTransactionComponent : string := "@/components/SolanaTransaction".

(** An RPC endpoint: a viem public client on a chain, or a Solana
    connection to a cluster. *)
Inductive rpc : Type :=
| PublicClient (chain : string)
| Connection (cluster : string).

#[global] Instance rpc_eq_dec : EqDecision rpc.
Proof. solve_decision. Defined.

(** Lines 37-58. *)
Definition client : rpc := PublicClient "base".
Definition sepoliaClient : rpc := PublicClient "baseSepolia".
Definition solanaMainnetConnection : rpc := Connection "mainnet-beta".
Definition solanaDevnetConnection : rpc := Connection "devnet".

(** ** The four hook calls *)

(** The four [getBalance] functions the component destructures (lines
    142-149); each names the hook call it comes from. *)
Inductive handler : Type :=
| getBalance
| getBalanceSepolia
| getBalanceSolana
| getBalanceSolanaDevnet.

#[global] Instance handler_eq_dec : EqDecision handler.
Proof. solve_decision. Defined.

Definition all_handlers : list handler :=
  [getBalance; getBalanceSepolia; getBalanceSolana; getBalanceSolanaDevnet].

(** Which hook each call is. *)
Definition ops_of (h : handler) : PollerOps :=
  match h with
  | getBalance | getBalanceSepolia => useEvmBalance.ops
  | getBalanceSolana | getBalanceSolanaDevnet => useSolanaBalance.ops
  end.

#[global] Instance laws_of (h : handler) : PollerLaws (ops_of h).
Proof. destruct h; first [apply useEvmBalance.laws | apply useSolanaBalance.laws]. Qed.

(** The second argument of each call. *)
Definition rpc_of (h : handler) : rpc :=
  match h with
  | getBalance => client
  | getBalanceSepolia => sepoliaClient
  | getBalanceSolana => solanaMainnetConnection
  | getBalanceSolanaDevnet => solanaDevnetConnection
  end.

(** The third argument of each call: the call for Solana mainnet passes
    none, so the parameter takes its default. *)
Definition poll_of (h : handler) : bool :=
  match h with
  | getBalance => true
  | getBalanceSepolia => true
  | getBalanceSolana => useSolanaBalance.poll_default
  | getBalanceSolanaDevnet => true
  end.

(** ** State *)

Record screen : Type := Screen {
  now : Z;
  (** what [useIsSignedIn], [useEvmAddress], [useSolanaAddress] return *)
  isSignedIn : bool;
  evmAddress : option string;
  solanaAddress : option string;
  (** the four hook instances, in call order *)
  hook_base : hook;
  hook_sepolia : hook;
  hook_solana : hook;
  hook_devnet : hook;
}.

Definition hook_of (h : handler) (s : screen) : hook :=
  match h with
  | getBalance => hook_base s
  | getBalanceSepolia => hook_sepolia s
  | getBalanceSolana => hook_solana s
  | getBalanceSolanaDevnet => hook_devnet s
  end.

(** The first argument of each call. *)
Definition address_of (h : handler) (s : screen) : option string :=
  match h with
  | getBalance | getBalanceSepolia => evmAddress s
  | getBalanceSolana | getBalanceSolanaDevnet => solanaAddress s
  end.

Definition set_hook (h : handler) (x : hook) (s : screen) : screen :=
  match h with
  | getBalance =>
      Screen (now s) (isSignedIn s) (evmAddress s) (solanaAddress s)
             x (hook_sepolia s) (hook_solana s) (hook_devnet s)
  | getBalanceSepolia =>
      Screen (now s) (isSignedIn s) (evmAddress s) (solanaAddress s)
             (hook_base s) x (hook_solana s) (hook_devnet s)
  | getBalanceSolana =>
      Screen (now s) (isSignedIn s) (evmAddress s) (solanaAddress s)
             (hook_base s) (hook_sepolia s) x (hook_devnet s)
  | getBalanceSolanaDevnet =>
      Screen (now s) (isSignedIn s) (evmAddress s) (solanaAddress s)
             (hook_base s) (hook_sepolia s) (hook_solana s) x
  end.

(** Apply [f] to each of the four hooks, in call order. *)
Definition each_hook (f : handler → hook → hook) (s : screen) : screen :=
  Screen (now s) (isSignedIn s) (evmAddress s) (solanaAddress s)
         (f getBalance (hook_base s)) (f getBalanceSepolia (hook_sepolia s))
         (f getBalanceSolana (hook_solana s))
         (f getBalanceSolanaDevnet (hook_devnet s)).

Definition set_auth (signedIn : bool) (evm sol : option string) (s : screen) : screen :=
  Screen (now s) signedIn evm sol
         (hook_base s) (hook_sepolia s) (hook_solana s) (hook_devnet s).

Definition set_now (t : Z) (s : screen) : screen :=
  Screen t (isSignedIn s) (evmAddress s) (solanaAddress s)
         (hook_base s) (hook_sepolia s) (hook_solana s) (hook_devnet s).

(** What each hook call returns as [formattedBalance]. *)
Definition formatted (h : handler) (s : screen) : option string :=
  string_of_list_ascii <$> (returned (hook_of h s)).2.

(** ** The rendered tree (lines 151-238) *)

Definition SignedInScreen (env : process_env) (s : screen) : list (node handler) :=
  let isSignedIn := isSignedIn s in
  let evmAddress := evmAddress s in
  let solanaAddress := solanaAddress s in
  let formattedBalance := formatted getBalance s in
  let formattedBalanceSepolia := formatted getBalanceSepolia s in
  let formattedBalanceSolana := formatted getBalanceSolana s in
  let formattedBalanceSolanaDevnet := formatted getBalanceSolanaDevnet s in
  [ component "Header" [];
    element "main" [("className", Str "main flex-col-container flex-grow")]
      (when (truthy evmAddress)
         [ element "p" [("className", Str "page-heading")]
             [text "Fund your EVM wallet on Base"];
           element "div" [("className", Str "main-inner flex-col-container")]
             [ element "div" [("className", Str "card card--user-balance")]
                 (UserBalance.UserBalance env
                    {| UserBalance.balance := formattedBalance;
                       UserBalance.faucetUrl := None;
                       UserBalance.faucetName := None |});
               element "div" [("className", Str "card card--transaction")]
                 (when isSignedIn
                    [component "FundWallet"
                       [("onSuccess", Handler getBalance); ("network", Str "base");
                        ("cryptoCurrency", Str "eth");
                        ("destinationAddress", optional evmAddress)]]) ];
           element "hr" [("className", Str "page-divider")] [];
           element "p" [("className", Str "page-heading")]
             [text "Send an EVM transaction on Base Sepolia"];
           element "div" [("className", Str "main-inner flex-col-container")]
             [ element "div" [("className", Str "card card--user-balance")]
                 (UserBalance.UserBalance env
                    {| UserBalance.balance := formattedBalanceSepolia;
                       UserBalance.faucetName := Some "Base Sepolia Faucet"%string;
                       UserBalance.faucetUrl :=
                         Some "https://portal.cdp.coinbase.com/products/faucet"%string |});
               element "div" [("className", Str "card card--transaction")]
                 (when isSignedIn
                    [Suspense
                       (element "div" [] [text "Loading transaction component..."])
                       [component (EVMTransactionComponent env)
                          [("balance", optional formattedBalanceSepolia);
                           ("onSuccess", Handler getBalanceSepolia)]]]) ] ]
       ++ when (truthy solanaAddress)
         (when (truthy evmAddress) [element "hr" [("className", Str "page-divider")] []]
          ++ [ element "p" [("className", Str "page-heading")]
                 [text "Fund your Solana wallet on Mainnet"];
               element "div" [("className", Str "main-inner flex-col-container")]
                 [ element "div" [("className", Str "card card--user-balance")]
                     (UserBalance.UserBalance env
                        {| UserBalance.balance := formattedBalanceSolana;
                           UserBalance.faucetUrl := None;
                           UserBalance.faucetName := None |});
                   element "div" [("className", Str "card card--transaction")]
                     (when isSignedIn
                        [component "FundWallet"
                           [("onSuccess", Handler getBalanceSolana);
                            ("network", Str "solana"); ("cryptoCurrency", Str "sol");
                            ("destinationAddress", optional solanaAddress)]]) ];
               element "hr" [("className", Str "page-divider")] [];
               element "p" [("className", Str "page-heading")]
                 [text "Send a Solana transaction on Devnet"];
               element "div" [("className", Str "main-inner flex-col-container")]
                 [ element "div" [("className", Str "card card--user-balance")]
                     (UserBalance.UserBalance env
                        {| UserBalance.balance := formattedBalanceSolanaDevnet;
                           UserBalance.faucetName := Some "Solana Devnet Faucet"%string;
                           UserBalance.faucetUrl :=
                             Some "https://portal.cdp.coinbase.com/products/faucet?network=solana-devnet"%string |});
                   element "div" [("className", Str "card card--transaction")]
                     (when isSignedIn
                        [Suspense
                           (element "div" [] [text "Loading transaction component..."])
                           [component SolanaTransactionComponent
                              [("onSuccess", Handler getBalanceSolanaDevnet)]]]) ] ])) ].

(** The callbacks the children hold. *)
Definition callbacks (env : process_env) (s : screen) : list handler :=
  flat_map handlers (SignedInScreen env s).

(** ** Events *)

(** The events of one hook that are not caused by its component. *)
Definition internal {ops : PollerOps} (ev : event ops) : bool :=
  match ev with
  | Tick _ | Resolve _ _ | Reject _ _ => true
  | _ => false
  end.

Inductive screen_event : Type :=
(** the first render, with what the three CDP hooks return *)
| Appear (signedIn : bool) (evm sol : option string)
(** a CDP hook returns a new value and the component renders again *)
| Update (signedIn : bool) (evm sol : option string)
| Disappear
(** a timer of the hook fires or one of its requests settles *)
| On (h : handler) (ev : event (ops_of h))
(** a child calls the [onSuccess] it was given *)
| Success (h : handler)
| Wait (d : Z).

(** One hook makes a step. *)
Definition hook_exec (h : handler) (ev : event (ops_of h)) (s : screen) : option screen :=
  c ← exec ev (Config (now s) (hook_of h s));
  Some (set_hook h (hk c) s).

Definition mounted (s : screen) : Prop := phase_of (hook_base s) = Mounted.

Definition screen_exec (env : process_env) (ev : screen_event) (s : screen)
    : option screen :=
  match ev with
  | Appear signedIn evm sol =>
      if decide (phase_of (hook_base s) = Fresh) then
        let s := set_auth signedIn evm sol s in
        Some (each_hook (λ h x, @mount (ops_of h) (address_of h s) (poll_of h) (now s) x) s)
      else None
  | Update signedIn evm sol =>
      if decide (mounted s) then
        let s := set_auth signedIn evm sol s in
        Some (each_hook (λ h x, @render (ops_of h) (address_of h s) (poll_of h) (now s) x) s)
      else None
  | Disappear =>
      if decide (mounted s) then Some (each_hook (λ h x, @unmount (ops_of h) x) s)
      else None
  | On h ev => if internal ev then hook_exec h ev s else None
  | Success h =>
      if decide (mounted s ∧ h ∈ callbacks env s) then hook_exec h Refresh s else None
  | Wait d =>
      if decide (0 < d ∧ Forall (λ h, timers_not_before (now s + d) (hook_of h s)) all_handlers)
      then Some (set_now (now s + d) s)
      else None
  end.

Fixpoint screen_run (env : process_env) (evs : list screen_event) (s : screen)
    : option screen :=
  match evs with
  | [] => Some s
  | ev :: evs' => s' ← screen_exec env ev s; screen_run env evs' s'
  end.

(** Before the first render. *)
Definition screen_initial (t : Z) : screen :=
  Screen t false None None fresh fresh fresh fresh.

Inductive screen_reachable (env : process_env) : screen → Prop :=
| reachable_initial t : screen_reachable env (screen_initial t)
| reachable_exec s ev s' :
    screen_reachable env s → screen_exec env ev s = Some s' →
    screen_reachable env s'.

(** ** The invariant *)

(** Every hook satisfies the invariant of its life cycle, has the props
    its call passes, and is in the phase of the component. *)
Record hook_ok (s : screen) (h : handler) : Prop := HookOk {
  ok_inv : @inv (ops_of h) (Config (now s) (hook_of h s));
  ok_phase : phase_of (hook_of h s) = phase_of (hook_base s);
  ok_address : phase_of (hook_of h s) ≠ Fresh → address (hook_of h s) = address_of h s;
  ok_poll : phase_of (hook_of h s) ≠ Fresh → poll (hook_of h s) = poll_of h;
}.

Definition screen_inv (s : screen) : Prop := ∀ h, hook_ok s h.

(** ** Frames *)

Lemma hook_of_each f s h : hook_of h (each_hook f s) = f h (hook_of h s).
Proof. by destruct h. Qed.

Lemma hook_of_set_hook h h' x s :
  hook_of h' (set_hook h x s) = if decide (h' = h) then x else hook_of h' s.
Proof. by destruct h, h'. Qed.

Lemma hook_of_set_hook_eq h x s : hook_of h (set_hook h x s) = x.
Proof. by destruct h. Qed.

Lemma hook_of_set_hook_ne h h' x s : h' ≠ h → hook_of h' (set_hook h x s) = hook_of h' s.
Proof. by destruct h, h'. Qed.

Lemma set_auth_same s : set_auth (isSignedIn s) (evmAddress s) (solanaAddress s) s = s.
Proof. by destruct s. Qed.

Lemma hook_exec_Some h ev s s' :
  hook_exec h ev s = Some s' →
  ∃ c, step (Config (now s) (hook_of h s)) ev c ∧ s' = set_hook h (hk c) s.
Proof.
  unfold hook_exec. destruct (exec ev _) as [c|] eqn:E; [|done].
  intros [= <-]. exists c. split; [|done]. by apply step_exec.
Qed.

(** ** Preservation of the invariant *)

Lemma hook_ok_props s h P :
  @inv (ops_of h) (Config (now s) (hook_of h s)) →
  phase_of (hook_base s) = P →
  props (hook_of h s) = (P, address_of h s, poll_of h) →
  hook_ok s h.
Proof. intros Hi Hb [= E1 E2 E3]. split; [done|congruence|by intros _..]. Qed.

Lemma hook_ok_inv_props s h :
  hook_ok s h → phase_of (hook_base s) ≠ Fresh →
  props (hook_of h s) = (phase_of (hook_base s), address_of h s, poll_of h).
Proof.
  intros [_ Hp Ha Hpo] Hne. unfold props. rewrite Ha, Hpo, Hp by congruence. done.
Qed.

Lemma screen_inv_initial t : screen_inv (screen_initial t).
Proof. intros h. destruct h; (split; [apply inv_initial|done..]). Qed.

(** A render of the component: every hook runs [f] with its arguments. *)
Lemma screen_inv_lifecycle (f : handler → hook → hook) signedIn evm sol s P :
  let s1 := set_auth signedIn evm sol s in
  P ≠ Fresh →
  (∀ h, @inv (ops_of h) (Config (now s) (f h (hook_of h s)))) →
  (∀ h, props (f h (hook_of h s)) = (P, address_of h s1, poll_of h)) →
  screen_inv (each_hook f s1).
Proof.
  intros s1 HP Hi Hpr h.
  assert (hook_of h (each_hook f s1) = f h (hook_of h s)) as E by (by destruct h).
  apply (hook_ok_props _ _ P); rewrite ?E.
  - apply Hi.
  - specialize (Hpr getBalance). by injection Hpr.
  - rewrite (Hpr h). by destruct h.
Qed.

(** One hook makes a step that is not a render. *)
Lemma screen_inv_hook h (ev : event (ops_of h)) s c :
  screen_inv s → step (Config (now s) (hook_of h s)) ev c →
  clock c = now s → props (hk c) = props (hook_of h s) →
  screen_inv (set_hook h (hk c) s).
Proof.
  intros Hs Hst Hc Hpr h'.
  assert (phase_of (hook_base (set_hook h (hk c) s)) = phase_of (hook_base s)) as Hb.
  { change (hook_base ?x) with (hook_of getBalance x).
    rewrite hook_of_set_hook. case_decide; [subst h|done].
    by injection Hpr. }
  destruct (Hs h') as [Hi Hp Ha Hpo].
  destruct (decide (h' = h)) as [->|Hne].
  - injection Hpr as E1 E2 E3.
    split; rewrite ?hook_of_set_hook_eq, ?Hb, ?E1, ?E2, ?E3;
      [|done|by destruct h|done].
    replace (now (set_hook h (hk c) s)) with (clock c) by (by destruct h).
    destruct c. eapply inv_step; [exact Hi|done].
  - split; rewrite ?hook_of_set_hook_ne, ?Hb by done; [|done|by destruct h|done].
    by replace (now (set_hook h (hk c) s)) with (now s) by (by destruct h).
Qed.

Lemma screen_inv_exec env ev s s' :
  screen_inv s → screen_exec env ev s = Some s' → screen_inv s'.
Proof.
  intros Hs. destruct ev as [si e so|si e so| |h ev|h|d]; cbn [screen_exec].
  - case_decide as Hf; [|done]. intros [= <-].
    apply (screen_inv_lifecycle _ si e so s Mounted); [done|..]; intros h.
    + destruct (Hs h) as [Hi Hp _ _]. apply inv_mount; [congruence|done].
    + apply props_mount.
  - case_decide as Hm; [|done]. intros [= <-]. unfold mounted in Hm.
    apply (screen_inv_lifecycle _ si e so s Mounted); [done|..]; intros h;
      destruct (Hs h) as [Hi Hp _ _].
    + apply inv_render; [congruence|done].
    + rewrite props_render. do 2 f_equal. congruence.
  - case_decide as Hm; [|done]. intros [= <-]. unfold mounted in Hm.
    rewrite <- (set_auth_same s) at 1.
    apply (screen_inv_lifecycle _ _ _ _ s Unmounted); [done|..]; intros h;
      destruct (Hs h) as [Hi Hp Ha Hpo].
    + apply inv_unmount; [congruence|done].
    + rewrite props_unmount, set_auth_same, Ha, Hpo by congruence. done.
  - destruct (internal ev) eqn:Hint; [|done].
    intros (c & Hst & ->)%hook_exec_Some.
    pose proof (props_step _ _ _ Hst) as Hpr. pose proof (clock_step _ _ _ Hst) as Hc.
    apply (screen_inv_hook h ev s c Hs Hst); by destruct ev.
  - case_decide; [|done]. intros (c & Hst & ->)%hook_exec_Some.
    apply (screen_inv_hook h Refresh s c Hs Hst).
    + apply (clock_step _ _ _ Hst).
    + apply (props_step _ _ _ Hst).
  - case_decide as Hd; [|done]. destruct Hd as [Hd Hall]. intros [= <-].
    rewrite Forall_forall in Hall. intros h.
    destruct (Hs h) as [Hi Hp Ha Hpo].
    split; [|by destruct h..].
    replace (hook_of h (set_now (now s + d) s)) with (hook_of h s) by (by destruct h).
    apply inv_elapse; [done| |done]. apply Hall. destruct h; set_solver.
Qed.

Lemma screen_inv_reachable env s : screen_reachable env s → screen_inv s.
Proof.
  induction 1; [apply screen_inv_initial|by eapply screen_inv_exec].
Qed.

(** ** Runs used as witnesses *)

Definition alice : string := "0x1111111111111111111111111111111111111111".
Definition wallet : string := "So11111111111111111111111111111111111111112".

(** Both kinds of account are created, EOA transactions. *)
Definition both : process_env := ProcessEnv None (Some "true"%string).

(** A signed-in user with both addresses; the two EVM balances and the
    devnet balance have arrived. *)
Definition signed_in : list screen_event :=
  [ Appear true (Some alice) (Some wallet);
    On getBalance (@Resolve useEvmBalance.ops 0 1500000000000000000);
    On getBalanceSepolia (@Resolve useEvmBalance.ops 0 0);
    On getBalanceSolanaDevnet (@Resolve useSolanaBalance.ops 0 (Number 2500000000));
    Wait 500 ].

Definition screen_after (env : process_env) (evs : list screen_event) : screen :=
  default (screen_initial 0) (screen_run env evs (screen_initial 0)).

Lemma screen_run_reachable env evs s s' :
  screen_reachable env s → screen_run env evs s = Some s' → screen_reachable env s'.
Proof.
  revert s. induction evs as [|ev evs IH]; cbn; intros s Hr.
  - by intros [= <-].
  - destruct (screen_exec env ev s) as [s1|] eqn:E; [|done]. cbn.
    apply IH. by eapply reachable_exec.
Qed.

Lemma screen_after_reachable env evs s :
  screen_run env evs (screen_initial 0) = Some s → screen_reachable env (screen_after env evs).
Proof.
  intros E. unfold screen_after. rewrite E. cbn.
  eapply screen_run_reachable; [apply reachable_initial|done].
Qed.

(** ** The four pollers *)

(** C15: in every reachable state of the mounted screen, each hook whose
    call passes [poll = true] has exactly one timer; it has period 500
    and fetches for the address the component passes now. *)
Theorem screen_polls (env : process_env) (s : screen) (h : handler) :
  screen_reachable env s → mounted s → poll_of h = true →
  ∃ id d, timers (hook_of h s) = {[ id := Timer d 500 (address_of h s) ]}
        ∧ now s ≤ d ≤ now s + 500.
Proof.
  intros Hr Hm Hpoll. destruct (screen_inv_reachable env s Hr h) as [Hi Hp Ha Hpo].
  unfold mounted in Hm.
  destruct (inv_one_timer _ Hi) as (id & d & _ & Ht & Hd);
    cbn [hk]; [congruence|rewrite Hpo; congruence|].
  exists id, d. cbn [hk clock] in *. rewrite Ha in Ht by congruence. done.
Qed.

Lemma screen_polls_witness :
  ∃ id d, timers (hook_of getBalanceSolanaDevnet (screen_after both signed_in))
          = {[ id := Timer d 500
                 (address_of getBalanceSolanaDevnet (screen_after both signed_in)) ]}
        ∧ now (screen_after both signed_in) ≤ d ≤ now (screen_after both signed_in) + 500.
Proof.
  apply (screen_polls both).
  - eapply screen_after_reachable. by vm_compute.
  - by vm_compute.
  - by vm_compute.
Defined.

(** C14: the hook for Solana mainnet never polls: its call passes no
    third argument, so in every reachable state it has no timer. *)
Theorem mainnet_never_polls (env : process_env) (s : screen) :
  screen_reachable env s →
  timers (hook_solana s) = ∅ ∧ cleanup (hook_solana s) = None.
Proof.
  intros Hr. destruct (screen_inv_reachable env s Hr getBalanceSolana) as [Hi Hp Ha Hpo].
  assert (timers (hook_solana s) = ∅) as Ht.
  { apply (inv_no_timer _ Hi). cbn [hk hook_of] in *.
    destruct (decide (phase_of (hook_solana s) = Mounted)) as [E|E]; [|by left].
    right. rewrite Hpo; [done|congruence]. }
  split; [done|]. destruct Hi as [Hti _ _ _ _ _]. unfold timers_ok in Hti.
  cbn [hk hook_of] in Hti. destruct (cleanup (hook_solana s)); [|done].
  destruct Hti as (d & Hd & _). rewrite Ht in Hd.
  by apply (f_equal (λ m, m !! n)) in Hd; rewrite lookup_empty, lookup_singleton_eq in Hd.
Qed.

Lemma mainnet_never_polls_witness :
  timers (hook_solana (screen_after both signed_in)) = ∅
  ∧ cleanup (hook_solana (screen_after both signed_in)) = None.
Proof.
  apply (mainnet_never_polls both). eapply screen_after_reachable. by vm_compute.
Defined.

(** ** Solana mainnet without polling *)

(** Nothing was asked and nothing is known. *)
Definition untouched (h : hook) : Prop := core h = (None, [], ∅).

Lemma untouched_exec env ev s s' :
  ev ≠ Success getBalanceSolana →
  screen_inv s → untouched (hook_solana s) → timers (hook_solana s) = ∅ →
  screen_exec env ev s = Some s' → untouched (hook_solana s').
Proof.
  intros Hev Hs Hu Ht. unfold untouched in *.
  destruct ev as [si e so|si e so| |h ev|h|d]; cbn [screen_exec].
  - case_decide; [|done]. intros [= <-]. cbn [hook_solana each_hook].
    by rewrite (mount_no_poll (ops := ops_of getBalanceSolana)).
  - case_decide; [|done]. intros [= <-]. cbn [hook_solana each_hook].
    by rewrite (render_no_poll (ops := ops_of getBalanceSolana)).
  - case_decide; [|done]. intros [= <-]. cbn [hook_solana each_hook].
    by rewrite (unmount_core (ops := ops_of getBalanceSolana)).
  - destruct (internal ev) eqn:Hint; [|done].
    intros (c & Hst & ->)%hook_exec_Some.
    destruct (decide (h = getBalanceSolana)) as [->|Hne]; [exfalso|by destruct h].
    injection Hu as _ _ Hin. cbn [hook_of] in Hst.
    inversion Hst; subst; try done;
      match goal with H : _ !! _ = Some _ |- _ =>
        rewrite ?Ht, ?Hin, lookup_empty in H; done end.
  - case_decide; [|done]. intros (c & Hst & ->)%hook_exec_Some.
    destruct (decide (h = getBalanceSolana)) as [->|Hne]; [done|by destruct h].
  - case_decide; [|done]. by intros [= <-].
Qed.

(** C13: as long as no child calls the [onSuccess] wired to Solana
    mainnet, the mainnet hook sends no request and its balance stays
    undefined, whatever address the wallet has. *)
Theorem mainnet_stays_loading (env : process_env) (evs : list screen_event)
    (t : Z) (s : screen) :
  screen_run env evs (screen_initial t) = Some s →
  Success getBalanceSolana ∉ evs →
  balance (hook_solana s) = None ∧ fetches (hook_solana s) = []
  ∧ inflight (hook_solana s) = ∅.
Proof.
  assert (∀ s0, screen_reachable env s0 → untouched (hook_solana s0) →
            screen_run env evs s0 = Some s → Success getBalanceSolana ∉ evs →
            untouched (hook_solana s)) as Hgen.
  { induction evs as [|ev evs IH]; cbn; intros s0 Hr Hu.
    - by intros [= <-].
    - destruct (screen_exec env ev s0) as [s1|] eqn:E; [|done]. cbn.
      intros Hrun [Hne Hnin]%not_elem_of_cons.
      apply (IH s1); [by eapply reachable_exec| |done..].
      eapply untouched_exec; [..|exact E]; [done|by apply screen_inv_reachable with env|done|].
      destruct (screen_inv_reachable env s0 Hr getBalanceSolana) as [Hi Hp Ha Hpo].
      apply (inv_no_timer _ Hi). cbn [hk hook_of] in *.
      destruct (decide (phase_of (hook_solana s0) = Mounted)) as [Em|Em]; [|by left].
      right. rewrite Hpo; [done|congruence]. }
  intros Hrun Hnin.
  specialize (Hgen _ (reachable_initial env t) eq_refl Hrun Hnin).
  injection Hgen as Hb Hl Hi. unfold fetches. by rewrite Hl.
Qed.

Lemma mainnet_stays_loading_witness :
  balance (hook_solana (screen_after both signed_in)) = None
  ∧ fetches (hook_solana (screen_after both signed_in)) = []
  ∧ inflight (hook_solana (screen_after both signed_in)) = ∅.
Proof.
  apply (mainnet_stays_loading both signed_in 0).
  - by vm_compute.
  - unfold signed_in. rewrite !not_elem_of_cons. split_and!; try done. apply not_elem_of_nil.
Defined.

(** ** The tree *)

(** The card and the formatted balances stay folded in the proofs about
    the tree. *)
#[local] Arguments UserBalance.UserBalance : simpl never.
#[local] Arguments formatted : simpl never.
#[local] Arguments handlers_of : simpl never.
#[local] Arguments EVMTransactionComponent : simpl never.

(** Case analysis on everything the tree itself branches on, then the
    query is pushed through the tree down to the cards. *)
Ltac view_cases env s :=
  unfold callbacks, SignedInScreen, EVMTransactionComponent, getEVMComponentPath,
    SolanaTransactionComponent;
  destruct (bool_decide (NEXT_PUBLIC_CDP_CREATE_ETHEREUM_ACCOUNT_TYPE env = _)),
    (truthy (evmAddress s)), (truthy (solanaAddress s)), (isSignedIn s);
  cbn;
  rewrite ?UserBalance.UserBalance_handlers, ?UserBalance.UserBalance_hr,
    ?UserBalance.UserBalance_uses by done.

(** C32: [FundWallet] is rendered once for each chain family whose
    address is present, and only for a signed-in user; each gets the
    [getBalance] of the mainnet hook of its family and that family's
    address as destination. *)
Theorem FundWallet_shown (env : process_env) (s : screen) :
  flat_map (uses "FundWallet") (SignedInScreen env s)
  = (if truthy (evmAddress s) && isSignedIn s
     then [[("onSuccess", Handler getBalance); ("network", Str "base");
            ("cryptoCurrency", Str "eth");
            ("destinationAddress", optional (evmAddress s))]]
     else [])
    ++ (if truthy (solanaAddress s) && isSignedIn s
        then [[("onSuccess", Handler getBalanceSolana); ("network", Str "solana");
               ("cryptoCurrency", Str "sol");
               ("destinationAddress", optional (solanaAddress s))]]
        else []).
Proof. view_cases env s; reflexivity. Qed.

(** The callbacks the children hold are those of the visible sections
    of a signed-in user. *)
Lemma callbacks_eq env s :
  callbacks env s
  = (if truthy (evmAddress s) && isSignedIn s
     then [getBalance; getBalanceSepolia] else [])
    ++ (if truthy (solanaAddress s) && isSignedIn s
        then [getBalanceSolana; getBalanceSolanaDevnet] else []).
Proof.
  view_cases env s;
    repeat match goal with
           | |- context [optional ?x] =>
               lazymatch x with
               | Some _ => fail
               | None => fail
               | _ => destruct x
               end
           end; reflexivity.
Qed.

Lemma callbacks_spec env s h :
  h ∈ callbacks env s ↔ isSignedIn s = true ∧ truthy (address_of h s) = true.
Proof.
  rewrite callbacks_eq.
  destruct h, (isSignedIn s); cbn [address_of];
    destruct (truthy (evmAddress s)), (truthy (solanaAddress s)); cbn [andb app];
    rewrite ?elem_of_cons, ?elem_of_nil; intuition congruence.
Qed.

(** C31: a child can call [onSuccess] exactly when the screen is
    mounted, the user is signed in and the address of the callback's
    chain family is present. *)
Theorem success_enabled (env : process_env) (s : screen) (h : handler) :
  screen_reachable env s →
  is_Some (screen_exec env (Success h) s)
  ↔ mounted s ∧ isSignedIn s = true ∧ truthy (address_of h s) = true.
Proof.
  intros Hr. destruct (screen_inv_reachable env s Hr h) as [_ Hp _ _].
  cbn [screen_exec]. rewrite <- callbacks_spec. case_decide as Hd.
  - split; [done|intros _]. destruct Hd as [Hm _]. unfold mounted in Hm.
    unfold hook_exec, exec. cbn [hk clock]. rewrite decide_True by congruence. by eexists.
  - split; [by intros [? ?]|done].
Qed.

Lemma success_enabled_witness :
  is_Some (screen_exec both (Success getBalanceSolana) (screen_after both signed_in))
  ↔ mounted (screen_after both signed_in)
    ∧ isSignedIn (screen_after both signed_in) = true
    ∧ truthy (address_of getBalanceSolana (screen_after both signed_in)) = true.
Proof. apply success_enabled. eapply screen_after_reachable. by vm_compute. Defined.

(** The address string is accepted by the hook's [getBalance]. *)
Definition accepts (h : handler) (a : string) : Prop :=
  match h with
  | getBalance | getBalanceSepolia => True
  | getBalanceSolana | getBalanceSolanaDevnet => ∃ key, PublicKey a = Normal key
  end.

(** The sections of the screen: the children of each
    [div.main-inner], a balance card and a transaction card. *)
Definition sections (env : process_env) (s : screen) : list (list (node handler)) :=
  flat_map (blocks "main-inner flex-col-container") (SignedInScreen env s).

(** The hooks that read from a mainnet. *)
Definition mainnet (h : handler) : Prop := rpc_of h ∈ [client; solanaMainnetConnection].

(** What a section with children [kids] does with the callback [h] it
    hands to its transaction component, when [a] is the address the
    component passes to the hook of [h]. *)
Record wired (env : process_env) (s : screen) (kids : list (node handler))
    (h : handler) (a : string) : Prop := Wired {
  (** the only balance card of the section shows the balance of [h] *)
  wired_card : ∃ fu fn,
    flat_map (blocks "card card--user-balance") kids
    = [UserBalance.UserBalance env
         {| UserBalance.balance := formatted h s;
            UserBalance.faucetUrl := fu; UserBalance.faucetName := fn |}];
  (** a [FundWallet] of the section pays to [a], and [h] reads a mainnet *)
  wired_fund :
    Forall (λ props, prop "destinationAddress" props = Some (Str a) ∧ mainnet h)
           (flat_map (uses "FundWallet") kids);
  (** the call sends one request for [a] on the hook of [h], and changes
      nothing else *)
  wired_refresh : ∃ s',
    screen_exec env (Success h) s = Some s'
    ∧ fetches (hook_of h s')
      = fetches (hook_of h s) ++ [(next_request (hook_of h s), a, now s)]
    ∧ timers (hook_of h s') = timers (hook_of h s)
    ∧ ∀ h', h' ≠ h → hook_of h' s' = hook_of h' s;
}.

Lemma start_accepts h a t x :
  truthy (Some a) = true → accepts h a →
  @start (ops_of h) (Some a) t x = request a t x.
Proof.
  intros Ht Ha. destruct h; cbn [start ops_of useEvmBalance.ops useSolanaBalance.ops].
  1,2: by apply useEvmBalance.getBalance_truthy.
  all: destruct Ha as [key Hk]; by eapply useSolanaBalance.sol_getBalance_valid.
Qed.

(** What the call of [onSuccess] does: one request, on the hook the
    callback came from, for the address the component passes to that
    hook; no other hook and no timer is touched. *)
Lemma Success_exec env s h a :
  screen_inv s → mounted s → isSignedIn s = true → truthy (address_of h s) = true →
  address_of h s = Some a → accepts h a →
  ∃ s', screen_exec env (Success h) s = Some s'
    ∧ fetches (hook_of h s')
      = fetches (hook_of h s) ++ [(next_request (hook_of h s), a, now s)]
    ∧ timers (hook_of h s') = timers (hook_of h s)
    ∧ ∀ h', h' ≠ h → hook_of h' s' = hook_of h' s.
Proof.
  intros Hs Hm Hsi Ht Ha Hacc. destruct (Hs h) as [_ Hp Haddr _]. unfold mounted in Hm.
  cbn [screen_exec]. rewrite decide_True by (by rewrite callbacks_spec).
  unfold hook_exec, exec. cbn [hk clock]. rewrite decide_True by congruence.
  eexists. split; [done|]. cbn [hk mbind option_bind]. rewrite hook_of_set_hook_eq.
  split_and!; [| |intros h' Hne; by apply hook_of_set_hook_ne].
  - rewrite refresh_eq, Haddr, Ha, (start_accepts h a) by (congruence || by rewrite <- Ha).
    apply fetches_request.
  - apply refresh_timers.
Qed.

Lemma EVMTransaction_not_FundWallet env : EVMTransactionComponent env ≠ "FundWallet"%string.
Proof. unfold EVMTransactionComponent, getEVMComponentPath. by case_bool_decide. Qed.

(** C30: every section of the screen is wired to one poller.  The
    [onSuccess] a section hands to its transaction component is the
    [getBalance] of the hook whose balance the card of the same section
    shows; calling it sends one request on that hook, for the address the
    component passes to it, and touches no other hook and no timer.
    [FundWallet] is found only in the sections of the two mainnet hooks,
    with that same address as destination. *)
Theorem success_refreshes (env : process_env) (s : screen) :
  screen_reachable env s → mounted s →
  Forall (λ kids, ∀ h a, h ∈ flat_map handlers kids →
                         address_of h s = Some a → accepts h a → wired env s kids h a)
         (sections env s).
Proof.
  intros Hr Hm. pose proof (screen_inv_reachable env s Hr) as Hs.
  unfold sections, SignedInScreen.
  destruct (evmAddress s) as [e|] eqn:Ee, (solanaAddress s) as [w|] eqn:Ew;
    try destruct (truthy (Some e)) eqn:He; try destruct (truthy (Some w)) eqn:Hw;
    destruct (isSignedIn s) eqn:Hsi; cbn;
    rewrite ?UserBalance.UserBalance_blocks, ?UserBalance.UserBalance_handlers by set_solver;
    cbn; repeat (apply Forall_cons_2 || apply Forall_nil_2).
  all: intros h a Hin Ha Hacc.
  all: cbn in Hin; autorewrite with jsx in Hin;
    rewrite ?UserBalance.UserBalance_handlers in Hin; cbn in Hin.
  all: try (by apply elem_of_nil in Hin).
  all: apply list_elem_of_singleton in Hin as ->; cbn [address_of] in Ha.
  all: rewrite ?Ee, ?Ew in Ha; injection Ha as <-.
  all: split; [do 2 eexists; cbn;
               by rewrite UserBalance.UserBalance_blocks by (rewrite !elem_of_cons; auto)
              |cbn; rewrite UserBalance.UserBalance_uses by done
              |apply Success_exec; cbn [address_of]; rewrite ?Ee, ?Ew; done].
  all: rewrite ?decide_False by apply EVMTransaction_not_FundWallet; cbn.
  all: repeat constructor; unfold mainnet; rewrite !elem_of_cons; auto.
Qed.

Lemma success_refreshes_witness :
  Forall (λ kids, ∀ h a, h ∈ flat_map handlers kids →
                         address_of h (screen_after both signed_in) = Some a →
                         accepts h a →
                         wired both (screen_after both signed_in) kids h a)
         (sections both (screen_after both signed_in)).
Proof.
  apply (success_refreshes both).
  - eapply screen_after_reachable. by vm_compute.
  - by vm_compute.
Defined.

(** The section for Solana mainnet of a signed-in user, and what its
    [onSuccess] does there. *)
Example mainnet_section_wired :
  ∃ kids, sections both (screen_after both signed_in) !! 2%nat = Some kids
  ∧ flat_map handlers kids = [getBalanceSolana]
  ∧ address_of getBalanceSolana (screen_after both signed_in) = Some wallet
  ∧ ∃ s', screen_exec both (Success getBalanceSolana) (screen_after both signed_in) = Some s'
        ∧ fetches (hook_of getBalanceSolana s') = [(0%nat, wallet, 500)].
Proof. eexists. split; [by vm_compute|]. split_and!; [by vm_compute..|]. eexists. by vm_compute. Qed.

(** C33: every balance card of the screen shows the same chain: the
    icon is chosen by the environment variable that enables Solana
    accounts, for the EVM cards and the Solana cards alike. *)
Theorem cards_same_icon (env : process_env) (s : screen) :
  Forall (λ attrs, prop "src" attrs
                   = Some (Str (if truthy (NEXT_PUBLIC_CDP_CREATE_SOLANA_ACCOUNT env)
                                then "/sol.svg" else "/eth.svg")))
         (flat_map (elements "img") (SignedInScreen env s)).
Proof.
  view_cases env s;
    repeat lazymatch goal with
           | |- Forall _ [] => apply Forall_nil_2
           | |- Forall _ (_ ++ _) => apply Forall_app_2
           | |- Forall _ (if decide _ is left _ then _ else _) =>
               rewrite decide_False by done
           | |- Forall _ (flat_map _ (UserBalance.UserBalance _ _)) =>
               apply UserBalance.UserBalance_icons
           end.
Qed.

(** C34: the EVM transaction component is the smart-account one iff the
    environment says ["smart"], and it receives the Sepolia balance and
    the Sepolia [getBalance]. *)
Theorem EVMTransaction_shown (env : process_env) (s : screen) :
  (getEVMComponentPath env
   = if bool_decide (NEXT_PUBLIC_CDP_CREATE_ETHEREUM_ACCOUNT_TYPE env = Some "smart"%string)
     then "@/components/SmartAccountTransaction"%string
     else "@/components/EOATransaction"%string)
  ∧ flat_map (uses (getEVMComponentPath env)) (SignedInScreen env s)
    = if truthy (evmAddress s) && isSignedIn s
      then [[("balance", optional (formatted getBalanceSepolia s));
             ("onSuccess", Handler getBalanceSepolia)]]
      else [].
Proof.
  split; [done|]. unfold EVMTransactionComponent, getEVMComponentPath.
  view_cases env s; reflexivity.
Qed.

(** A divider separates the two sections of a family, and one more
    separates the families when both addresses are present. *)
Theorem dividers (env : process_env) (s : screen) :
  length (flat_map (elements "hr") (SignedInScreen env s))
  = ((if truthy (evmAddress s) then 1 else 0)
     + (if truthy (solanaAddress s) then 1 else 0)
     + (if truthy (evmAddress s) && truthy (solanaAddress s) then 1 else 0))%nat.
Proof. view_cases env s; reflexivity. Qed.

(** What the screen shows of a section. *)
Example signed_in_view :
  flat_map texts (SignedInScreen both (screen_after both signed_in))
  = [ "Fund your EVM wallet on Base"; "Available balance"; "1.5"; "Solana";
      "Send an EVM transaction on Base Sepolia"; "Available balance"; "0"; "Solana";
      "Get testnet "; "SOL"; " from"; " "; "Base Sepolia Faucet";
      "Fund your Solana wallet on Mainnet"; "Available balance";
      "Send a Solana transaction on Devnet"; "Available balance"; "2.5"; "Solana";
      "Get testnet "; "SOL"; " from"; " "; "Solana Devnet Faucet" ]%string.
Proof. by vm_compute. Qed.
